(** * Email Validator Pro: the verification pipeline

    A shallow embedding of the server side of the repository
    ([server/validators/email.js], [server/validators/providers.js],
    [server/validators/smtp.js] and the two routes of
    [server/routes/validation.js]) together with the properties its
    specification states about it.

    JavaScript strings are modelled as [string] (sequences of 8-bit
    characters), numbers that are reply codes or priorities as [Z], counters
    as [nat], progress percentages as exact rationals [Q].  Asynchronous code
    is written in a state-and-exception monad over the state of the outside
    world (DNS and the network), whose behaviour is a parameter; besides a
    value and a throw it has a third outcome, for an [await] on a promise
    that never settles.  The two stream handlers of the bulk route are
    modelled with the order in which the parser runs them. *)

From Stdlib Require Import List String Ascii Bool Arith ZArith QArith Lia Sorted Permutation.
Import ListNotations.
Local Open Scope string_scope.
Local Open Scope list_scope.

Set Implicit Arguments.

(* ================================================================== *)
(** * JavaScript string primitives used by the sources *)
(* ================================================================== *)

Module Js.

Definition CR : ascii := "013"%char.
Definition LF : ascii := "010"%char.
Definition CRLF : string := String CR (String LF EmptyString).

(** A character lies in the inclusive range [lo-hi]. *)
Definition inRange (lo hi c : ascii) : bool :=
  (nat_of_ascii lo <=? nat_of_ascii c)%nat && (nat_of_ascii c <=? nat_of_ascii hi)%nat.

Definition isDigit (c : ascii) : bool := inRange "0" "9" c.
Definition isLower (c : ascii) : bool := inRange "a" "z" c.
Definition isUpper (c : ascii) : bool := inRange "A" "Z" c.
Definition isAlpha (c : ascii) : bool := isLower c || isUpper c.
Definition isAlnum (c : ascii) : bool := isAlpha c || isDigit c.

(** Membership of a character in a literal set such as [._%+-]. *)
Fixpoint oneOf (set : string) (c : ascii) : bool :=
  match set with
  | EmptyString => false
  | String d set' => Ascii.eqb c d || oneOf set' c
  end.

(** [s.split(sep)] for a one-character separator: always at least one
    piece; [n] separators give [n + 1] pieces. *)
Fixpoint split (sep : ascii) (s : string) : list string :=
  match s with
  | EmptyString => [EmptyString]
  | String c s' =>
      if Ascii.eqb c sep then EmptyString :: split sep s'
      else match split sep s' with
           | piece :: rest => String c piece :: rest
           | [] => [String c EmptyString]
           end
  end.

(** [s.split('\r\n')]. *)
Fixpoint splitCRLF (s : string) : list string :=
  match s with
  | EmptyString => [EmptyString]
  | String c s' =>
      match s' with
      | String d s'' =>
          if Ascii.eqb c CR && Ascii.eqb d LF then EmptyString :: splitCRLF s''
          else match splitCRLF s' with
               | piece :: rest => String c piece :: rest
               | [] => [String c EmptyString]
               end
      | EmptyString => [String c EmptyString]
      end
  end.

(** [s.startsWith(p)]. *)
Definition startsWith (s p : string) : bool := String.prefix p s.

(** [hay.includes(needle)]: [needle] occurs somewhere in [hay]. *)
Fixpoint includes (hay needle : string) : bool :=
  String.prefix needle hay ||
  match hay with
  | EmptyString => false
  | String _ hay' => includes hay' needle
  end.

(** [s.toLowerCase()] on the 8-bit alphabet: only [A-Z] move. *)
Definition lowerChar (c : ascii) : ascii :=
  if isUpper c then ascii_of_nat (nat_of_ascii c + 32) else c.

Fixpoint toLowerCase (s : string) : string :=
  match s with
  | EmptyString => EmptyString
  | String c s' => String (lowerChar c) (toLowerCase s')
  end.

(** [s.substring(n)]: drop the first [n] characters. *)
Fixpoint dropChars (n : nat) (s : string) : string :=
  match n, s with
  | O, _ => s
  | S n', String _ s' => dropChars n' s'
  | S _, EmptyString => EmptyString
  end.

(** [parseInt(digits, 10)] on a string of decimal digits (the callers
    only pass the three digits of a reply code). *)
Definition digitVal (c : ascii) : Z := Z.of_nat (nat_of_ascii c - 48).

Fixpoint parseDigits (acc : Z) (s : string) : Z :=
  match s with
  | String c s' => if isDigit c then parseDigits (10 * acc + digitVal c) s' else acc
  | EmptyString => acc
  end.

Definition parseInt (s : string) : Z := parseDigits 0 s.

(** [a || b] on possibly-missing strings: the empty string is falsy. *)
Definition orElse (a : option string) (b : string) : string :=
  match a with
  | Some EmptyString | None => b
  | Some s => s
  end.

(** Every character of the string satisfies the test. *)
Fixpoint allChars (p : ascii -> bool) (s : string) : bool :=
  match s with
  | EmptyString => true
  | String c s' => p c && allChars p s'
  end.

(** The character is not the separator. *)
Definition notSep (sep : ascii) (c : ascii) : bool := negb (Ascii.eqb c sep).

(** [arr.includes(x)] on arrays of numbers and of strings. *)
Definition includesZ (arr : list Z) (x : Z) : bool := existsb (Z.eqb x) arr.
Definition includesStr (arr : list string) (x : string) : bool := existsb (String.eqb x) arr.

End Js.

(* ================================================================== *)
(** * Regular expressions *)
(* ================================================================== *)

(** The sources test strings against anchored regular expressions.  They
    are embedded as syntax trees and run by a derivative matcher; [lang]
    gives the set of strings a tree denotes. *)
Module Regex.

Inductive regex : Type :=
| Void : regex
| Eps : regex
| Chr : (ascii -> bool) -> regex
| Cat : regex -> regex -> regex
| Alt : regex -> regex -> regex
| Star : regex -> regex.

(** [r?] *)
Definition Opt (r : regex) : regex := Alt Eps r.
(** [r+] *)
Definition Plus (r : regex) : regex := Cat r (Star r).
(** [r{n}] *)
Fixpoint Exactly (n : nat) (r : regex) : regex :=
  match n with
  | O => Eps
  | S n' => Cat r (Exactly n' r)
  end.
(** [r{0,n}] *)
Fixpoint UpTo (n : nat) (r : regex) : regex :=
  match n with
  | O => Eps
  | S n' => Opt (Cat r (UpTo n' r))
  end.
(** [r{n,}] *)
Definition AtLeast (n : nat) (r : regex) : regex := Cat (Exactly n r) (Star r).

Fixpoint nullable (r : regex) : bool :=
  match r with
  | Void => false
  | Eps => true
  | Chr _ => false
  | Cat r1 r2 => nullable r1 && nullable r2
  | Alt r1 r2 => nullable r1 || nullable r2
  | Star _ => true
  end.

Fixpoint deriv (c : ascii) (r : regex) : regex :=
  match r with
  | Void => Void
  | Eps => Void
  | Chr p => if p c then Eps else Void
  | Cat r1 r2 =>
      if nullable r1 then Alt (Cat (deriv c r1) r2) (deriv c r2)
      else Cat (deriv c r1) r2
  | Alt r1 r2 => Alt (deriv c r1) (deriv c r2)
  | Star r1 => Cat (deriv c r1) (Star r1)
  end.

(** The whole string is in the language: [/^r$/.test(s)]. *)
Fixpoint matches (r : regex) (s : string) : bool :=
  match s with
  | EmptyString => nullable r
  | String c s' => matches (deriv c r) s'
  end.

(** Any character at all, and JavaScript's [.], which excludes the line
    terminators. *)
Definition anyChar : regex := Chr (fun _ => true).
Definition dot : regex :=
  Chr (fun c => negb (Ascii.eqb c Js.LF || Ascii.eqb c Js.CR)).

(** A pattern anchored at the start only: [/^r/.test(s)]. *)
Definition matchesPrefix (r : regex) (s : string) : bool :=
  matches (Cat r (Star anyChar)) s.

(** The characters some class of the expression admits. *)
Fixpoint charsOf (r : regex) (c : ascii) : bool :=
  match r with
  | Void | Eps => false
  | Chr p => p c
  | Cat r1 r2 | Alt r1 r2 => charsOf r1 c || charsOf r2 c
  | Star r1 => charsOf r1 c
  end.

Inductive lang : regex -> string -> Prop :=
| lang_eps : lang Eps EmptyString
| lang_chr : forall (p : ascii -> bool) c,
    p c = true -> lang (Chr p) (String c EmptyString)
| lang_cat : forall r1 r2 s1 s2,
    lang r1 s1 -> lang r2 s2 -> lang (Cat r1 r2) (s1 ++ s2)
| lang_alt_l : forall r1 r2 s, lang r1 s -> lang (Alt r1 r2) s
| lang_alt_r : forall r1 r2 s, lang r2 s -> lang (Alt r1 r2) s
| lang_star_nil : forall r, lang (Star r) EmptyString
| lang_star_app : forall r s1 s2,
    lang r s1 -> lang (Star r) s2 -> lang (Star r) (s1 ++ s2).

End Regex.

(* ================================================================== *)
(** * The format check of [email.js] *)
(* ================================================================== *)

Module Format.
Import Regex.

Definition localChar (c : ascii) : bool := Js.isAlnum c || Js.oneOf "._%+-" c.
Definition labelChar (c : ascii) : bool := Js.isAlnum c || Js.oneOf "-" c.

(** [[a-zA-Z0-9](?:[a-zA-Z0-9._%+-]{0,61}[a-zA-Z0-9])?] *)
Definition localRegex : regex :=
  Cat (Chr Js.isAlnum)
      (Opt (Cat (UpTo 61 (Chr localChar)) (Chr Js.isAlnum))).

(** [[a-zA-Z0-9](?:[a-zA-Z0-9-]*[a-zA-Z0-9])?(?:\.[a-zA-Z]{2,})+] *)
Definition domainRegex : regex :=
  Cat (Chr Js.isAlnum)
      (Cat (Opt (Cat (Star (Chr labelChar)) (Chr Js.isAlnum)))
           (Plus (Cat (Chr (Js.oneOf ".")) (AtLeast 2 (Chr Js.isAlpha))))).

(** [emailRegex] of [validateEmailFormat]. *)
Definition emailRegex : regex :=
  Cat localRegex (Cat (Chr (Js.oneOf "@")) domainRegex).

End Format.

(* ================================================================== *)
(** * Asynchronous computations *)
(* ================================================================== *)

(** An [await]ed computation produces a value, throws, or never settles;
    what is thrown is identified with its [error.message].  Nothing that
    follows an [await] on a promise that never settles is run, and no
    [catch] or [finally] clause sees it.  The state threaded through is
    whatever the computation can change: the outside world, or a client
    object holding it. *)
Module Async.

Inductive Outcome (A : Type) : Type :=
| Ok : A -> Outcome A
| Thrown : string -> Outcome A
| Pending : Outcome A.
Arguments Ok {A} _.
Arguments Thrown {A} _.
Arguments Pending {A}.

(** How a promise that does settle ends. *)
Inductive Settlement (A : Type) : Type :=
| Fulfilled : A -> Settlement A
| RejectedWith : string -> Settlement A.
Arguments Fulfilled {A} _.
Arguments RejectedWith {A} _.

Definition M (St A : Type) : Type := St -> Outcome A * St.

Definition ret {St A} (a : A) : M St A := fun st => (Ok a, st).

Definition throw {St A} (msg : string) : M St A := fun st => (Thrown msg, st).

Definition bind {St A B} (m : M St A) (k : A -> M St B) : M St B :=
  fun st =>
    match m st with
    | (Ok a, st') => k a st'
    | (Thrown msg, st') => (Thrown msg, st')
    | (Pending, st') => (Pending, st')
    end.

(** [try { m } catch (error) { handler(error.message) }]: the effects of
    [m] up to the throw stay. *)
Definition tryCatch {St A} (m : M St A) (handler : string -> M St A) : M St A :=
  fun st =>
    match m st with
    | (Ok a, st') => (Ok a, st')
    | (Thrown msg, st') => handler msg st'
    | (Pending, st') => (Pending, st')
    end.

(** [await] on a promise that is sure to settle, because a timer or the
    library behind it rejects it in the end. *)
Definition settling {St A} (promise : St -> Settlement A * St) : M St A :=
  fun st =>
    match promise st with
    | (Fulfilled a, st') => (Ok a, st')
    | (RejectedWith msg, st') => (Thrown msg, st')
    end.

(** Run a computation and hand back how it settled; never throws. *)
Definition settle {St A} (m : M St A) : M St (Settlement A) :=
  fun st =>
    match m st with
    | (Ok a, st') => (Ok (Fulfilled a), st')
    | (Thrown msg, st') => (Ok (RejectedWith msg), st')
    | (Pending, st') => (Pending, st')
    end.

(** An effect that cannot fail. *)
Definition effect {St} (f : St -> St) : M St unit := fun st => (Ok tt, f st).

(** [Promise.allSettled]: every promise is run, in order, and its
    settlement recorded. *)
Fixpoint allSettled {St A} (ms : list (M St A)) : M St (list (Settlement A)) :=
  match ms with
  | [] => ret []
  | m :: ms' =>
      bind (settle m) (fun o =>
      bind (allSettled ms') (fun os => ret (o :: os)))
  end.

Definition fulfilled {A} (o : Settlement A) : bool :=
  match o with
  | Fulfilled _ => true
  | RejectedWith _ => false
  end.

(** [m] always ends normally, with a value satisfying [P]. *)
Definition returns {St A} (m : M St A) (P : A -> Prop) : Prop :=
  forall st, exists a st', m st = (Ok a, st') /\ P a.

(** Whenever [m] ends normally, its value satisfies [P]. *)
Definition ensures {St A} (m : M St A) (P : A -> Prop) : Prop :=
  forall st a st', m st = (Ok a, st') -> P a.

(** [m] ends normally with a value satisfying [P], or throws, or, only
    where [pends] holds, never settles. *)
Definition may {St A} (pends : Prop) (m : M St A) (P : A -> Prop) : Prop :=
  forall st,
    match fst (m st) with
    | Ok a => P a
    | Thrown _ => True
    | Pending => pends
    end.

(** [m] does not throw: it ends normally with a value satisfying [P], or,
    only where [pends] holds, never settles. *)
Definition must {St A} (pends : Prop) (m : M St A) (P : A -> Prop) : Prop :=
  forall st,
    match fst (m st) with
    | Ok a => P a
    | Thrown _ => False
    | Pending => pends
    end.

Declare Scope async_scope.
Delimit Scope async_scope with async.
Notation "x <- m ;; k" := (bind m (fun x => k))
  (at level 100, m at next level, right associativity) : async_scope.
Notation "m ;;; k" := (bind m (fun _ => k))
  (at level 100, right associativity) : async_scope.

End Async.

(* ================================================================== *)
(** * Data model *)
(* ================================================================== *)

Module Data.

(** One entry returned by [dns.resolveMx]. *)
Record MXRecord : Type := mkMX {
  exchange : string;
  priority : Z
}.

(** A provider configuration: an entry of [PROVIDERS] with its key added,
    or the generic object.  Fields the generic object does not have are
    optional ([domains] and [mxDomains], which only the lookup over
    [PROVIDERS] reads, are empty there). *)
Record ProviderConfig : Type := mkConfig {
  provider : option string;
  domains : list string;
  mxDomains : list string;
  reliable : bool;
  heloHost : option string;
  verifyMailboxFlag : bool;
  requireTLS : bool;
  timeout : Z;
  acceptCodes : list Z;
  rejectCodes : list Z;
  tempCodes : option (list Z);
  retryAttempts : nat;
  fromAddresses : option (list string)
}.

(** What [SMTPClient.command] resolves with. *)
Record Response : Type := mkResponse {
  code : Z;
  message : string;
  fullResponse : string
}.

(** The object returned by [verifyMailbox] and by [performSMTPCheck];
    a field one of them leaves out is [None]. *)
Record SmtpResult : Type := mkSmtpResult {
  success : bool;
  mailboxExists : bool;
  supportsTLS : option bool;
  replyCode : option Z;
  replyMessage : option string;
  error : option string;
  protected : option bool
}.

Record Checks : Type := mkChecks {
  format : bool;
  dns : bool;
  mx : bool;
  spf : bool;
  smtp : bool;
  mailbox : bool
}.

Record Details : Type := mkDetails {
  mxRecords : list MXRecord;
  spfRecord : option string;
  smtpResponse : option SmtpResult
}.

(** What a caller may hand to [validateEmail]. *)
Inductive JsValue : Type :=
| JsString : string -> JsValue
| JsUndefined : JsValue
| JsNull : JsValue
| JsBoolean : bool -> JsValue
| JsNumber : Z -> JsValue
| JsObject : JsValue.

Record ValidationResult : Type := mkResult {
  email : JsValue;
  valid : bool;
  checks : Checks;
  details : Details;
  reason : string
}.

End Data.

(* ================================================================== *)
(** * External collaborators *)
(* ================================================================== *)

(** The system resolver and the TCP transport, as operations on the state
    [W] of the outside world.  A promise the sources guard with a timer, or
    that the resolver library bounds by its own timeouts, is sure to settle;
    the TLS handshake is guarded by nothing. *)
Module Collab.
Import Async Data.

Inductive RRType : Type := RR_A | RR_AAAA | RR_CNAME.

Class Resolver (W : Type) : Type := {
  (** [dns.promises.resolve(domain, rrtype)]: only whether it fulfils is
      looked at. *)
  queryAddress : string -> RRType -> W -> Settlement unit * W;
  (** [promisify(dns.resolveMx)] *)
  queryMx : string -> W -> Settlement (list MXRecord) * W;
  (** [promisify(dns.resolveTxt)]: each record is a list of chunks. *)
  queryTxt : string -> W -> Settlement (list (list string)) * W
}.

Class Transport (W : Type) : Type := {
  (** The throw-away connection test of [performSMTPCheck]: connect to
      port 25, then destroy the socket; a timer of 5000 ms rejects it. *)
  connectionTest : string -> W -> Settlement unit * W;
  (** The promise of [SMTPClient.connect(host)]; a timer of the client's
      timeout rejects it. *)
  socketOpen : Z -> string -> W -> Settlement unit * W;
  (** [socket.write(data)]: synchronous; may throw. *)
  socketSend : string -> W -> Settlement unit * W;
  (** The chunks the socket hands to a ['data'] listener, in order, before
      the timer of the given length fires. *)
  socketData : Z -> W -> list string * W;
  (** The promise of [upgradeToTLS]: [tls.connect] over the connected
      socket, resolved by its callback and rejected by an ['error'] event.
      No timer is set, so it stays pending while neither happens. *)
  tlsConnect : M W unit;
  (** [SMTPClient.cleanup]: best-effort QUIT, end, destroy. *)
  socketCleanup : W -> W;
  (** [setTimeout(resolve, ms)] *)
  sleep : Z -> W -> W
}.

Section Operations.
Context {W : Type}.

Definition dnsResolve {R : Resolver W} (domain : string) (rrtype : RRType) : M W unit :=
  settling (queryAddress domain rrtype).

Definition resolveMx {R : Resolver W} (domain : string) : M W (list MXRecord) :=
  settling (queryMx domain).

Definition resolveTxt {R : Resolver W} (domain : string) : M W (list (list string)) :=
  settling (queryTxt domain).

Definition testConnection {T : Transport W} (host : string) : M W unit :=
  settling (connectionTest host).

Definition socketConnect {T : Transport W} (timeout : Z) (host : string) : M W unit :=
  settling (socketOpen timeout host).

Definition socketWrite {T : Transport W} (data : string) : M W unit :=
  settling (socketSend data).

End Operations.

End Collab.

(* ================================================================== *)
(** * The SMTP client ([smtp.js]) *)
(* ================================================================== *)

Module Smtp.
Import Regex Async Data Collab.
Local Open Scope string_scope.
Local Open Scope async_scope.

Definition TIMEOUT : Z := 10000.

(** The first pattern of [handleResponse]: [^], three [\d], then
    optionally one of space and [-] followed by any run of [.], then [$]. *)
Definition replyLine : regex :=
  Cat (Exactly 3 (Chr Js.isDigit)) (Opt (Cat (Chr (Js.oneOf " -")) (Star dot))).

(** The second pattern of [handleResponse]: [^], three [\d], then [-]. *)
Definition continuationLine : regex :=
  Cat (Exactly 3 (Chr Js.isDigit)) (Chr (Js.oneOf "-")).

(** The test of [handleResponse] on one line of the buffer. *)
Definition isFinalLine (line : string) : bool :=
  matches replyLine line && negb (matchesPrefix continuationLine line).

(** ** The reader inside [command]

    [Waiting response] is the pending promise with its buffer; the other
    two states are the settled promise. *)
Inductive Reader : Type :=
| Waiting : string -> Reader
| Resolved : Response -> Reader
| Rejected : string -> Reader.

(** One call of [handleResponse(data)].  Once the promise has settled the
    listener is gone and deliveries no longer reach it. *)
Definition handleResponse (rd : Reader) (data : string) : Reader :=
  match rd with
  | Waiting buffered =>
      let response := buffered ++ data in
      match find isFinalLine (Js.splitCRLF response) with
      | Some line =>
          Resolved {| code := Js.parseInt (String.substring 0 3 line);
                      message := Js.dropChars 4 line;
                      fullResponse := response |}
      | None => Waiting response
      end
  | settled => settled
  end.

(** The timer callback of [command]; cleared when the promise resolved. *)
Definition onTimeout (rd : Reader) : Reader :=
  match rd with
  | Waiting _ => Rejected "Response timeout"
  | settled => settled
  end.

(** The reader after a sequence of deliveries. *)
Definition deliver (chunks : list string) : Reader :=
  fold_left handleResponse chunks (Waiting "").

(** The buffer after a sequence of deliveries none of which completed a
    response. *)
Definition accumulated (chunks : list string) : string :=
  fold_left String.append chunks "".

(** A line that completes a reply, in the words of the specification: a
    three-digit code followed by a space or by the end of the line, and
    so not the [-] of a continuation line. *)
Definition completesReply (line : string) : bool :=
  match line with
  | String a (String b (String c rest)) =>
      Js.isDigit a && Js.isDigit b && Js.isDigit c &&
      match rest with
      | EmptyString => true
      | String x _ => Ascii.eqb x " "
      end
  | _ => false
  end.

(** A line of ASCII characters without a line terminator inside. *)
Definition plainLine (line : string) : bool :=
  Js.allChars (fun c => (nat_of_ascii c <? 128)%nat &&
                        negb (Ascii.eqb c Js.LF || Ascii.eqb c Js.CR)) line.

Section Client.
Context {W : Type} {T : Transport W}.

(** The client object together with the local [supportsTLS] of
    [verifyMailbox], which its [catch] clause reads. *)
Record Client : Type := mkClient {
  socket : W;
  optionsTimeout : Z;
  tlsSeen : bool
}.

(** An operation on the socket, run on the client's socket. *)
Definition onSocket {A} (m : M W A) : M Client A :=
  fun cl =>
    let '(o, w) := m (socket cl) in
    (o, {| socket := w; optionsTimeout := optionsTimeout cl; tlsSeen := tlsSeen cl |}).

(** [supportsTLS = b] *)
Definition setSupportsTLS (b : bool) : M Client unit :=
  effect (fun cl =>
    {| socket := socket cl; optionsTimeout := optionsTimeout cl; tlsSeen := b |}).

(** The computation leaves the [supportsTLS] flag alone. *)
Definition keepsFlag {A} (m : M Client A) : Prop :=
  forall cl, tlsSeen (snd (m cl)) = tlsSeen cl.

(** [client.connect(host)] *)
Definition connect (host : string) : M Client unit :=
  fun cl => onSocket (socketConnect (optionsTimeout cl) host) cl.

(** [client.command(cmd)]: write the command if there is one, then feed
    the reader until it resolves or the timer fires. *)
Definition command (cmd : option string) : M Client Response :=
  (match cmd with
   | Some c => onSocket (socketWrite (c ++ Js.CRLF))
   | None => ret tt
   end) ;;;
  fun cl =>
    onSocket (fun w =>
      let '(chunks, w') := socketData (optionsTimeout cl) w in
      match onTimeout (deliver chunks) with
      | Resolved r => (Ok r, w')
      | Rejected msg => (Thrown msg, w')
      | Waiting _ => (Thrown "Response timeout", w')
      end) cl.

(** [client.upgradeToTLS()]: unlike [connect] and [command] it sets no
    timer, so it settles only if the handshake does. *)
Definition upgradeToTLS : M Client unit := onSocket tlsConnect.

(** [Boolean(s)] on a string. *)
Definition truthy (s : string) : bool := negb (String.eqb s "").

(** The candidate identities: [[config?.heloHost, domain, host,
    'verify.local'].filter(Boolean)]. *)
Definition heloHosts (host domain : string) (config : option ProviderConfig)
  : list string :=
  filter truthy
    ((match config with
      | Some cfg => match heloHost cfg with Some h => [h] | None => [] end
      | None => []
      end) ++ [domain; host; "verify.local"])%list.

(** The EHLO/HELO loop; [Some r] is [ehloSuccess] with its response. *)
Fixpoint helloLoop (hosts : list string) : M Client (option Response) :=
  match hosts with
  | [] => ret None
  | heloHost :: rest =>
      attempt <- tryCatch
        (ehlo <- command (Some ("EHLO " ++ heloHost)) ;;
         if Z.eqb (code ehlo) 250 then ret (Some ehlo)
         else
           helo <- command (Some ("HELO " ++ heloHost)) ;;
           if Z.eqb (code helo) 250 then ret (Some helo) else ret None)
        (fun _ => ret None) ;;
      match attempt with
      | Some r => ret (Some r)
      | None => helloLoop rest
      end
  end.

(** Connect, greeting and EHLO/HELO negotiation. *)
Definition hello (host domain : string) (config : option ProviderConfig)
  : M Client Response :=
  connect host ;;;
  greeting <- command None ;;
  if negb (Z.eqb (code greeting) 220) then throw "Invalid server greeting"
  else
    ehloResponse <- helloLoop (heloHosts host domain config) ;;
    match ehloResponse with
    | Some r => ret r
    | None => throw "HELO/EHLO failed"
    end.

(** [ehloResponse.fullResponse.toLowerCase().includes('starttls')] *)
Definition advertisesStartTls (ehloResponse : Response) : bool :=
  Js.includes (Js.toLowerCase (fullResponse ehloResponse)) "starttls".

(** [config?.requireTLS] *)
Definition requiresTLS (config : option ProviderConfig) : bool :=
  match config with
  | Some cfg => requireTLS cfg
  | None => false
  end.

(** The STARTTLS upgrade fails from the client state [cl], with [msg],
    leaving [cl']: the STARTTLS command is rejected, or it is answered
    with 220 and the upgrade of the transport is rejected. *)
Inductive upgradeFails : Client -> string -> Client -> Prop :=
| commandRejected : forall cl msg cl',
    command (Some "STARTTLS") cl = (Thrown msg, cl') ->
    upgradeFails cl msg cl'
| handshakeRejected : forall cl tlsCmd cl1 msg cl',
    command (Some "STARTTLS") cl = (Ok tlsCmd, cl1) ->
    code tlsCmd = 220%Z ->
    upgradeToTLS cl1 = (Thrown msg, cl') ->
    upgradeFails cl msg cl'.

(** The optional STARTTLS step. *)
Definition startTls (host domain : string) (config : option ProviderConfig)
    (ehloResponse : Response) : M Client unit :=
  if advertisesStartTls ehloResponse then
    tryCatch
      (tlsCmd <- command (Some "STARTTLS") ;;
       if Z.eqb (code tlsCmd) 220 then
         upgradeToTLS ;;;
         setSupportsTLS true ;;;
         command (Some ("EHLO " ++ nth 0 (heloHosts host domain config) "undefined")) ;;;
         ret tt
       else ret tt)
      (fun _ =>
         if requiresTLS config then throw "Required TLS connection failed"
         else ret tt)
  else ret tt.

(** The array [fromAddresses] of [verifyMailbox]. *)
Definition candidateSenders (domain : string) (config : option ProviderConfig)
  : list string :=
  List.app
    (match config with
     | Some cfg => match fromAddresses cfg with Some l => l | None => [] end
     | None => []
     end)
    ["verify@" ++ domain; "postmaster@" ++ domain; "check@" ++ domain].

(** The MAIL FROM loop; the result is [mailFromSuccess]. *)
Fixpoint mailFromLoop (addresses : list string) : M Client bool :=
  match addresses with
  | [] => ret false
  | fromAddress :: rest =>
      accepted <- tryCatch
        (r <- command (Some ("MAIL FROM:<" ++ fromAddress ++ ">")) ;;
         ret (Z.eqb (code r) 250))
        (fun _ => ret false) ;;
      if accepted then ret true else mailFromLoop rest
  end.

(** Sender negotiation. *)
Definition sender (domain : string) (config : option ProviderConfig)
  : M Client unit :=
  mailFromSuccess <- mailFromLoop (candidateSenders domain config) ;;
  if mailFromSuccess then ret tt else throw "MAIL FROM command failed".

(** The recipient probe. *)
Definition rcpt (email : string) : M Client Response :=
  command (Some ("RCPT TO:<" ++ email ++ ">")).

(** Everything of the [try] block before the recipient probe. *)
Definition negotiate (host domain : string) (config : option ProviderConfig)
  : M Client unit :=
  ehloResponse <- hello host domain config ;;
  startTls host domain config ehloResponse ;;;
  sender domain config.

Definition newClient (config : option ProviderConfig) (w : W) : Client :=
  {| socket := w;
     optionsTimeout :=
       match config with
       | Some cfg => if Z.eqb (timeout cfg) 0 then TIMEOUT else timeout cfg
       | None => TIMEOUT
       end;
     tlsSeen := false |}.

(** [verifyMailbox(host, email, domain, config)]: the [return] of the
    [try] block, the one of the [catch] clause, and the [finally] clause
    that cleans up.  While the [try] block awaits a promise that never
    settles none of them is reached. *)
Definition verifyMailbox (host email domain : string)
    (config : option ProviderConfig) : M W SmtpResult :=
  fun w =>
    match (negotiate host domain config ;;; rcpt email) (newClient config w) with
    | (Ok rcptResponse, cl) =>
        (Ok {| success := true;
               mailboxExists := Z.eqb (code rcptResponse) 250;
               supportsTLS := Some (tlsSeen cl);
               replyCode := Some (code rcptResponse);
               replyMessage := Some (message rcptResponse);
               error := None;
               protected := None |},
         socketCleanup (socket cl))
    | (Thrown msg, cl) =>
        (Ok {| success := false;
               mailboxExists := false;
               supportsTLS := Some (tlsSeen cl);
               replyCode := None;
               replyMessage := None;
               error := Some msg;
               protected := None |},
         socketCleanup (socket cl))
    | (Pending, cl) => (Pending, socket cl)
    end.

End Client.

End Smtp.

(* ================================================================== *)
(** * Provider policies and the retry controller ([providers.js]) *)
(* ================================================================== *)

Module Providers.
Import Async Data Collab.
Local Open Scope string_scope.
Local Open Scope async_scope.

(** The table [PROVIDERS], in insertion order. *)
Definition PROVIDERS : list (string * ProviderConfig) :=
  [ ("gmail.com",
     {| provider := None;
        domains := ["gmail.com"; "googlemail.com"];
        mxDomains := ["google.com"; "googlemail.com"; "gmail.com"];
        reliable := true;
        heloHost := Some "gmail-smtp-in.l.google.com";
        verifyMailboxFlag := true;
        requireTLS := true;
        timeout := 15000;
        acceptCodes := [250]%Z;
        rejectCodes := [550; 551; 552; 553; 554]%Z;
        tempCodes := None;
        retryAttempts := 2;
        fromAddresses := Some ["postmaster@gmail.com"; "verify@gmail.com"] |});
    ("outlook.com",
     {| provider := None;
        domains := ["outlook.com"; "hotmail.com"; "live.com"; "msn.com"];
        mxDomains := ["outlook.com"; "hotmail.com"; "microsoft.com"];
        reliable := true;
        heloHost := Some "outlook-com.olc.protection.outlook.com";
        verifyMailboxFlag := true;
        requireTLS := true;
        timeout := 20000;
        acceptCodes := [250]%Z;
        rejectCodes := [550; 551; 552; 553; 554]%Z;
        tempCodes := None;
        retryAttempts := 3;
        fromAddresses := Some ["postmaster@outlook.com"; "verify@outlook.com"] |});
    ("yahoo.com",
     {| provider := None;
        domains := ["yahoo.com"; "ymail.com"];
        mxDomains := ["yahoo.com"; "yahoodns.net"];
        reliable := true;
        heloHost := Some "mta7.am0.yahoodns.net";
        verifyMailboxFlag := true;
        requireTLS := true;
        timeout := 12000;
        acceptCodes := [250]%Z;
        rejectCodes := [550; 551; 552; 553; 554]%Z;
        tempCodes := None;
        retryAttempts := 2;
        fromAddresses := Some ["postmaster@yahoo.com"; "verify@yahoo.com"] |}) ].

(** The generic provider configuration. *)
Definition genericConfig : ProviderConfig :=
  {| provider := None;
     domains := [];
     mxDomains := [];
     reliable := false;
     heloHost := None;
     verifyMailboxFlag := true;
     requireTLS := false;
     timeout := 10000;
     acceptCodes := [250; 251]%Z;
     rejectCodes := [550; 551; 553; 554]%Z;
     tempCodes := Some [450; 451; 452]%Z;
     retryAttempts := 2;
     fromAddresses := None |}.

(** [{ ...config, provider }] *)
Definition withProvider (entry : string * ProviderConfig) : ProviderConfig :=
  let '(name, config) := entry in
  {| provider := Some name;
     domains := domains config;
     mxDomains := mxDomains config;
     reliable := reliable config;
     heloHost := heloHost config;
     verifyMailboxFlag := verifyMailboxFlag config;
     requireTLS := requireTLS config;
     timeout := timeout config;
     acceptCodes := acceptCodes config;
     rejectCodes := rejectCodes config;
     tempCodes := tempCodes config;
     retryAttempts := retryAttempts config;
     fromAddresses := fromAddresses config |}.

Definition getProviderConfig (domain : string) : ProviderConfig :=
  let lowerDomain := Js.toLowerCase domain in
  match find (fun entry => Js.includesStr (domains (snd entry)) lowerDomain) PROVIDERS with
  | Some entry => withProvider entry
  | None =>
      match find (fun entry =>
                    existsb (fun mxDomain => Js.includes lowerDomain mxDomain)
                            (mxDomains (snd entry))) PROVIDERS with
      | Some entry => withProvider entry
      | None => genericConfig
      end
  end.

(** [codes.includes(result.code)]; a result without a code matches no set. *)
Definition includesCode (codes : list Z) (c : option Z) : bool :=
  match c with
  | Some z => Js.includesZ codes z
  | None => false
  end.

(** [config.tempCodes?.includes(result.code)] *)
Definition tempIncludes (config : ProviderConfig) (c : option Z) : bool :=
  match tempCodes config with
  | Some codes => includesCode codes c
  | None => false
  end.

(** The three [return]s inside [if (result.success)]; [None] when the
    attempt falls through to [lastError = ...]. *)
Definition classify (config : ProviderConfig) (result : SmtpResult) : option SmtpResult :=
  if success result then
    if includesCode (acceptCodes config) (replyCode result) then
      Some {| success := true;
              mailboxExists := true;
              supportsTLS := supportsTLS result;
              replyCode := replyCode result;
              replyMessage := replyMessage result;
              error := None;
              protected := None |}
    else if includesCode (rejectCodes config) (replyCode result) then
      Some {| success := true;
              mailboxExists := false;
              supportsTLS := supportsTLS result;
              replyCode := replyCode result;
              replyMessage := replyMessage result;
              error := None;
              protected := None |}
    else if negb (reliable config) && tempIncludes config (replyCode result) then
      Some {| success := true;
              mailboxExists := true;
              supportsTLS := supportsTLS result;
              replyCode := replyCode result;
              replyMessage := Some "Server employs protection measures";
              error := None;
              protected := Some true |}
    else None
  else None.

(** The object returned after the loop. *)
Definition exhausted (lastError : option string) : SmtpResult :=
  {| success := false;
     mailboxExists := false;
     supportsTLS := None;
     replyCode := None;
     replyMessage := None;
     error := Some (Js.orElse lastError "Maximum retry attempts exceeded");
     protected := None |}.

(** How one iteration of the retry loop ends: with a [return], or by
    going round again with a new [lastError]. *)
Inductive Step : Type :=
| Return : SmtpResult -> Step
| Continue : string -> Step.

Section Controller.
Context {W : Type} {T : Transport W}.

(** One iteration of [for (attempt ...)]. *)
Definition attemptOnce (config : ProviderConfig) (mxServer email domain : string)
    (attempt : nat) : M W Step :=
  tryCatch
    (testConnection mxServer ;;;
     result <- Smtp.verifyMailbox mxServer email domain (Some config) ;;
     match classify config result with
     | Some decisive => ret (Return decisive)
     | None => ret (Continue (Js.orElse (error result) "Ambiguous server response"))
     end)
    (fun msg =>
       (if (attempt <? retryAttempts config - 1)%nat
        then effect (sleep 1000) else ret tt) ;;;
       ret (Continue msg)).

(** The loop, with [remaining = config.retryAttempts - attempt]. *)
Fixpoint attempts (config : ProviderConfig) (mxServer email domain : string)
    (remaining attempt : nat) (lastError : option string) : M W SmtpResult :=
  match remaining with
  | O => ret (exhausted lastError)
  | S remaining' =>
      step <- attemptOnce config mxServer email domain attempt ;;
      match step with
      | Return r => ret r
      | Continue msg =>
          attempts config mxServer email domain remaining' (S attempt) (Some msg)
      end
  end.

Definition performSMTPCheck (mxServer email domain : string)
    (providerConfig : option ProviderConfig) : M W SmtpResult :=
  let config := match providerConfig with
                | Some c => c
                | None => getProviderConfig domain
                end in
  attempts config mxServer email domain (retryAttempts config) 0 None.

End Controller.

End Providers.

(* ================================================================== *)
(** * The validation pipeline ([email.js]) *)
(* ================================================================== *)

Module Email.
Import Regex Async Data Collab.
Local Open Scope string_scope.
Local Open Scope async_scope.

Definition validateEmailFormat (email : JsValue) : bool :=
  match email with
  | JsString s => if String.eqb s "" then false else matches Format.emailRegex s
  | _ => false
  end.

(** ** Assignments to the fields of [result] *)

Definition setReason (r : ValidationResult) (msg : string) : ValidationResult :=
  {| email := email r; valid := valid r; checks := checks r;
     details := details r; reason := msg |}.

Definition setValid (r : ValidationResult) (b : bool) : ValidationResult :=
  {| email := email r; valid := b; checks := checks r;
     details := details r; reason := reason r |}.

Definition setChecks (r : ValidationResult) (c : Checks) : ValidationResult :=
  {| email := email r; valid := valid r; checks := c;
     details := details r; reason := reason r |}.

Definition setDetails (r : ValidationResult) (d : Details) : ValidationResult :=
  {| email := email r; valid := valid r; checks := checks r;
     details := d; reason := reason r |}.

Definition setFormat (r : ValidationResult) (b : bool) : ValidationResult :=
  setChecks r {| format := b; dns := dns (checks r); mx := mx (checks r);
                 spf := spf (checks r); smtp := smtp (checks r);
                 mailbox := mailbox (checks r) |}.

Definition setDns (r : ValidationResult) (b : bool) : ValidationResult :=
  setChecks r {| format := format (checks r); dns := b; mx := mx (checks r);
                 spf := spf (checks r); smtp := smtp (checks r);
                 mailbox := mailbox (checks r) |}.

Definition setMx (r : ValidationResult) (b : bool) : ValidationResult :=
  setChecks r {| format := format (checks r); dns := dns (checks r); mx := b;
                 spf := spf (checks r); smtp := smtp (checks r);
                 mailbox := mailbox (checks r) |}.

Definition setSpf (r : ValidationResult) (b : bool) : ValidationResult :=
  setChecks r {| format := format (checks r); dns := dns (checks r);
                 mx := mx (checks r); spf := b; smtp := smtp (checks r);
                 mailbox := mailbox (checks r) |}.

Definition setSmtp (r : ValidationResult) (b : bool) : ValidationResult :=
  setChecks r {| format := format (checks r); dns := dns (checks r);
                 mx := mx (checks r); spf := spf (checks r); smtp := b;
                 mailbox := mailbox (checks r) |}.

Definition setMailbox (r : ValidationResult) (b : bool) : ValidationResult :=
  setChecks r {| format := format (checks r); dns := dns (checks r);
                 mx := mx (checks r); spf := spf (checks r);
                 smtp := smtp (checks r); mailbox := b |}.

Definition setMxRecords (r : ValidationResult) (l : list MXRecord) : ValidationResult :=
  setDetails r {| mxRecords := l; spfRecord := spfRecord (details r);
                  smtpResponse := smtpResponse (details r) |}.

Definition setSpfRecord (r : ValidationResult) (s : option string) : ValidationResult :=
  setDetails r {| mxRecords := mxRecords (details r); spfRecord := s;
                  smtpResponse := smtpResponse (details r) |}.

Definition setSmtpResponse (r : ValidationResult) (s : SmtpResult) : ValidationResult :=
  setDetails r {| mxRecords := mxRecords (details r);
                  spfRecord := spfRecord (details r);
                  smtpResponse := Some s |}.

(** The object [result] as [validateEmail] creates it. *)
Definition initialResult (input : JsValue) : ValidationResult :=
  {| email := input;
     valid := false;
     checks := {| format := false; dns := false; mx := false;
                  spf := false; smtp := false; mailbox := false |};
     details := {| mxRecords := []; spfRecord := None; smtpResponse := None |};
     reason := "" |}.

(** [records.sort((a, b) => a.priority - b.priority)]: stable, ascending. *)
Fixpoint insertByPriority (r : MXRecord) (sorted : list MXRecord) : list MXRecord :=
  match sorted with
  | [] => [r]
  | x :: rest =>
      if (priority r <=? priority x)%Z then r :: x :: rest
      else x :: insertByPriority r rest
  end.

Fixpoint sortByPriority (records : list MXRecord) : list MXRecord :=
  match records with
  | [] => []
  | r :: rest => insertByPriority r (sortByPriority rest)
  end.

(** What [checkSPF] returns. *)
Record SpfResult : Type := mkSpf {
  spfExists : bool;
  spfValue : option string
}.

Section Pipeline.
Context {W : Type} {R : Resolver W} {T : Transport W}.

Definition checkDNS (domain : string) : M W bool :=
  tryCatch
    (results <- allSettled [dnsResolve domain RR_A;
                            dnsResolve domain RR_AAAA;
                            dnsResolve domain RR_CNAME] ;;
     ret (existsb fulfilled results))
    (fun _ => ret false).

(** [None] is the [false] of the source. *)
Definition checkMX (domain : string) : M W (option (list MXRecord)) :=
  tryCatch
    (records <- resolveMx domain ;;
     match records with
     | [] => ret None
     | _ => ret (Some (sortByPriority records))
     end)
    (fun _ => ret None).

Definition checkSPF (domain : string) : M W SpfResult :=
  tryCatch
    (txtRecords <- resolveTxt domain ;;
     let spfRecord := find (fun record => Js.startsWith record "v=spf1")
                           (List.concat txtRecords) in
     ret {| spfExists := match spfRecord with
                         | Some s => negb (String.eqb s "")
                         | None => false
                         end;
            spfValue := spfRecord |})
    (fun _ => ret {| spfExists := false; spfValue := None |}).

(** The loop over [mxRecords]; the state is [result] and [lastError]. *)
Fixpoint smtpLoop (address domain : string) (providerConfig : ProviderConfig)
    (hosts : list MXRecord) (result : ValidationResult) (lastError : option string)
  : M W (ValidationResult * option string) :=
  match hosts with
  | [] => ret (result, lastError)
  | mxr :: rest =>
      step <- tryCatch
        (smtpResult <- Providers.performSMTPCheck (exchange mxr) address domain
                         (Some providerConfig) ;;
         let result := setSmtpResponse result smtpResult in
         if success smtpResult then
           ret (inl (setMailbox (setSmtp result true) (mailboxExists smtpResult)))
         else ret (inr (result, error smtpResult)))
        (fun msg => ret (inr (result, Some msg))) ;;
      match step with
      | inl result' => ret (result', lastError)
      | inr (result', lastError') =>
          smtpLoop address domain providerConfig rest result' lastError'
      end
  end.

(** The verdict and the reason, after the loop. *)
Definition verdict (result : ValidationResult) (lastError : option string)
  : ValidationResult :=
  let result :=
    setValid result (format (checks result) && dns (checks result) &&
                     mx (checks result) && mailbox (checks result)) in
  if negb (valid result) then
    if negb (mailbox (checks result)) then
      setReason result "Mailbox does not exist"
    else if negb (smtp (checks result)) then
      setReason result ("SMTP verification failed: " ++ Js.orElse lastError "Unknown error")
    else if negb (mx (checks result)) then
      setReason result "No mail servers found for domain"
    else if negb (dns (checks result)) then
      setReason result "Domain does not exist"
    else
      setReason result "One or more validation checks failed"
  else
    setReason result "Email verified successfully".

(** Steps 2 to 5, once the domain is known. *)
Definition validateDomain (address domain : string)
    (result : ValidationResult) : M W ValidationResult :=
  dnsOk <- checkDNS domain ;;
  let result := setDns result dnsOk in
  if negb (dns (checks result)) then ret (setReason result "Domain does not exist")
  else
    mxRecords <- checkMX domain ;;
    match mxRecords with
    | None => ret (setReason result "No mail servers found for domain")
    | Some records =>
        let result := setMxRecords (setMx result true) records in
        spfResult <- checkSPF domain ;;
        let result := setSpfRecord (setSpf result (spfExists spfResult))
                                   (spfValue spfResult) in
        let providerConfig := Providers.getProviderConfig domain in
        looped <- smtpLoop address domain providerConfig records result None ;;
        ret (verdict (fst looped) (snd looped))
    end.

(** The length caps on the two pieces [const [localPart, domain] =
    email.split('@')] binds.  A piece [split] did not produce is
    [undefined], and reading its [.length] throws a [TypeError]. *)
Definition validateSplit (address : string) (localPart domain : option string)
    (result : ValidationResult) : M W ValidationResult :=
  match localPart with
  | None => throw "TypeError: Cannot read properties of undefined (reading 'length')"
  | Some localPart =>
      if (64 <? String.length localPart)%nat then
        ret (setReason result "Local part exceeds maximum length")
      else
        match domain with
        | None => throw "TypeError: Cannot read properties of undefined (reading 'length')"
        | Some domain =>
            if (255 <? String.length domain)%nat then
              ret (setReason result "Domain exceeds maximum length")
            else validateDomain address domain result
        end
  end.

(** [validateEmail(email)].  Calling [split] on something that is not a
    string throws a [TypeError]. *)
Definition validateEmail (input : JsValue) : M W ValidationResult :=
  let result := initialResult input in
  let result := setFormat result (validateEmailFormat input) in
  if negb (format (checks result)) then ret (setReason result "Invalid email format")
  else
    match input with
    | JsString address =>
        let pieces := Js.split "@" address in
        validateSplit address (nth_error pieces 0) (nth_error pieces 1) result
    | _ => throw "TypeError: email.split is not a function"
    end.

End Pipeline.

(** The four checks the verdict is made of. *)
Definition verdictChecks (c : Checks) : bool :=
  format c && dns c && mx c && mailbox c.

(** What every returned result satisfies: the verdict is the conjunction
    of the four checks, and a confirmed mailbox comes with every other
    check but SPF passed and with the success reason. *)
Definition consistent (r : ValidationResult) : Prop :=
  valid r = verdictChecks (checks r) /\
  (mailbox (checks r) = true ->
   smtp (checks r) = true /\ format (checks r) = true /\
   dns (checks r) = true /\ mx (checks r) = true /\
   valid r = true /\ reason r = "Email verified successfully").

(** The state of [result] on entry to the loop over the mail servers and
    while no probe has succeeded. *)
Definition unprobed (r : ValidationResult) : Prop :=
  format (checks r) = true /\ dns (checks r) = true /\ mx (checks r) = true /\
  smtp (checks r) = false /\ mailbox (checks r) = false.

(** The state of [result] when the loop is left. *)
Definition probed (r : ValidationResult) : Prop :=
  format (checks r) = true /\ dns (checks r) = true /\ mx (checks r) = true /\
  (mailbox (checks r) = true -> smtp (checks r) = true).

End Email.

(* ================================================================== *)
(** * The bulk route ([routes/validation.js]) *)
(* ================================================================== *)

Module Bulk.
Import Async Data Collab.
Local Open Scope string_scope.

(** A record as the CSV parser hands it over: column name and value, in
    column order. *)
Definition Row : Type := list (string * string).

(** [record[key]] *)
Fixpoint field (key : string) (record : Row) : option string :=
  match record with
  | [] => None
  | (k, v) :: rest => if String.eqb k key then Some v else field key rest
  end.

(** [record.email || record.Email || record.EMAIL]; [None] when the
    result is falsy. *)
Definition emailOf (record : Row) : option string :=
  match field "email" record with
  | Some (String c s) => Some (String c s)
  | _ =>
      match field "Email" record with
      | Some (String c s) => Some (String c s)
      | _ =>
          match field "EMAIL" record with
          | Some (String c s) => Some (String c s)
          | _ => None
          end
      end
  end.

(** A record with the seven validation columns added. *)
Record Augmented : Type := mkAugmented {
  source : Row;
  validation_result : string;
  validation_reason : string;
  mx_check : bool;
  dns_check : bool;
  spf_check : bool;
  mailbox_check : bool;
  smtp_check : bool
}.

Inductive Event : Type :=
| Init (totalRecords : nat) (headers : list string)
| Progress (progress : Q) (results : list Augmented)
| Error (error : string)
| Complete.

(** What [res.write] is called with: a [data:] frame carrying an event,
    or a comment line. *)
Inductive Frame : Type :=
| DataFrame : Event -> Frame
| CommentFrame : string -> Frame.

(** The events of a stream of frames. *)
Fixpoint events (frames : list Frame) : list Event :=
  match frames with
  | [] => []
  | DataFrame e :: rest => e :: events rest
  | CommentFrame _ :: rest => events rest
  end.

(** The percentages of the progress events, in stream order. *)
Fixpoint percentages (evs : list Event) : list Q :=
  match evs with
  | [] => []
  | Progress p _ :: rest => p :: percentages rest
  | _ :: rest => percentages rest
  end.

Fixpoint nonDecreasing (qs : list Q) : Prop :=
  match qs with
  | [] => True
  | q :: rest =>
      match rest with
      | [] => True
      | q' :: _ => q <= q'
      end /\ nonDecreasing rest
  end.

Definition isProgress (e : Event) : bool :=
  match e with Progress _ _ => true | _ => false end.

Definition isComplete (e : Event) : bool :=
  match e with Complete => true | _ => false end.

Definition CHUNK_SIZE : nat := 5.

Definition validationColumns : list string :=
  ["validation_result"; "validation_reason"; "mx_check"; "dns_check";
   "spf_check"; "mailbox_check"; "smtp_check"].

(** [(processedCount / totalRecords) * 100] *)
Definition percent (processedCount totalRecords : nat) : Q :=
  (inject_Z (Z.of_nat processedCount) / inject_Z (Z.of_nat totalRecords)) * 100.

Definition failedRecord (record : Row) (why : string) : Augmented :=
  {| source := record;
     validation_result := "Invalid";
     validation_reason := why;
     mx_check := false; dns_check := false; spf_check := false;
     mailbox_check := false; smtp_check := false |}.

(** The variables the two stream handlers close over and the response:
    [written] is what [res.write] was called with, in order; [ended] tells
    how many of these calls had been made when [res.end()] was called;
    [stalled] says that the ['data'] handler paused the parser and awaits a
    promise that never settles, so that it never resumes it. *)
Record Pass (W : Type) : Type := mkPass {
  currentChunk : list Row;
  processedCount : nat;
  written : list Frame;
  ended : option nat;
  stalled : bool;
  world : W
}.
Arguments mkPass {W} _ _ _ _ _ _.
Arguments currentChunk {W} _.
Arguments processedCount {W} _.
Arguments written {W} _.
Arguments ended {W} _.
Arguments stalled {W} _.
Arguments world {W} _.

(** When the ['end'] event of the parser is emitted and how the race it
    can open ends.  A readable stream schedules ['end'] for the next tick
    when the last record is read out of its buffer after the input has
    ended, whether or not the handler of that record pauses it:
    [endEarly] says that this is how the last record was read.  When that
    record fills a chunk, the ['end'] handler then starts while the
    ['data'] handler awaits, and two validations of the chunk are in
    flight: [endFirst] says that the one the ['end'] handler started
    settles first. *)
Record Schedule : Type := mkSchedule {
  endEarly : bool;
  endFirst : bool
}.

Section Route.
Context {W : Type} {R : Resolver W} {T : Transport W}.

(** The function mapped over a chunk by [processChunk]. *)
Definition processRecord (record : Row) : M W Augmented :=
  let email := emailOf record in
  tryCatch
    (match email with
     | None => ret (failedRecord record "No email address found")
     | Some address =>
         bind (Email.validateEmail (JsString address)) (fun validationResult =>
         ret {| source := record;
                validation_result :=
                  if valid validationResult then "Valid" else "Invalid";
                validation_reason :=
                  Js.orElse (Some (reason validationResult)) "Unknown validation status";
                mx_check := mx (checks validationResult);
                dns_check := dns (checks validationResult);
                spf_check := spf (checks validationResult);
                mailbox_check := mailbox (checks validationResult);
                smtp_check := smtp (checks validationResult) |})
     end)
    (fun msg =>
       ret (failedRecord record
              ("Processing error: " ++ Js.orElse (Some msg) "Unknown error"))).

(** [processChunk(records)]: [Promise.all] over the mapped records, which
    settles once all of them have; the validations of one chunk are run
    one after the other on the world. *)
Fixpoint processChunk (records : list Row) : M W (list Augmented) :=
  match records with
  | [] => ret []
  | record :: rest =>
      bind (processRecord record) (fun a =>
      bind (processChunk rest) (fun others => ret (a :: others)))
  end.

Definition inWorld (st : Pass W) (w : W) : Pass W :=
  mkPass (currentChunk st) (processedCount st) (written st) (ended st) (stalled st) w.

(** The ['data'] handler of a record that fills the chunk, from
    [parser.pause()] to its first [await]: the validation of the chunk
    is started. *)
Definition dataStart (st : Pass W) (record : Row) : Pass W :=
  mkPass (currentChunk st ++ [record])%list (processedCount st) (written st)
         (ended st) (stalled st) (world st).

(** The rest of that handler, from how [processChunk(currentChunk)]
    settled: the [try] block after the [await], or the [catch] clause. *)
Definition dataFinish (totalRecords : nat) (st : Pass W)
    (settled : Outcome (list Augmented)) : Pass W :=
  match settled with
  | Ok results =>
      let processed := (processedCount st + List.length results)%nat in
      mkPass [] processed
        (written st ++
           [DataFrame (Progress (percent processed totalRecords) results);
            CommentFrame "keepalive"])%list
        (ended st) false (world st)
  | Thrown _ =>
      mkPass [] (processedCount st + List.length (currentChunk st))%nat (written st)
        (ended st) false (world st)
  | Pending =>
      mkPass (currentChunk st) (processedCount st) (written st) (ended st) true (world st)
  end.

(** The ['data'] handler of the second pass, run to its end before the
    next event.  A stalled parser hands over nothing more. *)
Definition onData (totalRecords : nat) (st : Pass W) (record : Row) : Pass W :=
  if stalled st then st
  else if (CHUNK_SIZE <=? List.length (currentChunk st ++ [record]))%nat then
    let started := dataStart st record in
    let '(settled, w) := processChunk (currentChunk started) (world started) in
    dataFinish totalRecords (inWorld started w) settled
  else dataStart st record.

(** The end of the ['end'] handler: the [complete] event, [resolve()],
    and the [res.end()] that follows the promise of the second pass. *)
Definition complete (st : Pass W) : Pass W :=
  mkPass (currentChunk st) (processedCount st)
    (written st ++ [DataFrame Complete])%list
    (Some (S (List.length (written st)))) (stalled st) (world st).

(** The ['end'] handler after its [await], from how the validation of
    the chunk it found settled. *)
Definition endFinish (st : Pass W) (settled : Outcome (list Augmented)) : Pass W :=
  match settled with
  | Ok results =>
      complete
        (mkPass (currentChunk st) (processedCount st + List.length results)%nat
           (written st ++ [DataFrame (Progress 100 results)])%list
           (ended st) (stalled st) (world st))
  | Thrown _ => complete st
  | Pending => st
  end.

(** The ['end'] handler of the second pass, started once the ['data']
    handlers are done.  A stalled parser does not emit ['end']. *)
Definition onEnd (st : Pass W) : Pass W :=
  if stalled st then st
  else
    match currentChunk st with
    | [] => complete st
    | chunk =>
        let '(settled, w) := processChunk chunk (world st) in
        endFinish (inWorld st w) settled
    end.

(** The last record and the ['end'] event.  When the record fills the
    chunk and ['end'] is emitted on the next tick, the ['end'] handler
    finds [currentChunk] still full and validates it a second time; the
    two handlers then go on in the order in which their validations
    settle, which are run in that order on the world. *)
Definition onLast (schedule : Schedule) (totalRecords : nat) (st : Pass W)
    (record : Row) : Pass W :=
  if stalled st then st
  else if (CHUNK_SIZE <=? List.length (currentChunk st ++ [record]))%nat
          && endEarly schedule then
    let started := dataStart st record in
    let chunk := currentChunk started in
    if endFirst schedule then
      let '(settledEnd, w1) := processChunk chunk (world started) in
      let afterEnd := endFinish (inWorld started w1) settledEnd in
      let '(settledData, w2) := processChunk chunk w1 in
      dataFinish totalRecords (inWorld afterEnd w2) settledData
    else
      let '(settledData, w1) := processChunk chunk (world started) in
      let afterData := dataFinish totalRecords (inWorld started w1) settledData in
      let '(settledEnd, w2) := processChunk chunk w1 in
      endFinish (inWorld afterData w2) settledEnd
  else onEnd (onData totalRecords st record).

(** [Object.keys(record)] *)
Definition keys (record : Row) : list string := map fst record.

(** The handler of [POST /validate/bulk] on the records of the uploaded
    file: the state it leaves, with the calls of [res.write] and of
    [res.end()].  [production] is [process.env.NODE_ENV === 'production'].
    With no record the first pass throws, and the outer [catch] clause
    writes the error event and ends the response. *)
Definition validateBulk (production : bool) (schedule : Schedule)
    (records : list Row) (w : W) : Pass W :=
  let totalRecords := List.length records in
  match records with
  | [] =>
      mkPass [] 0%nat
        [DataFrame (Error (if production then "Failed to process CSV file"
                           else "CSV file is empty"))]
        (Some 1%nat) false w
  | first :: rest =>
      let start :=
        mkPass [] 0%nat
          [DataFrame (Init totalRecords (keys first ++ validationColumns)%list)]
          None false w in
      onLast schedule totalRecords
        (fold_left (onData totalRecords) (removelast records) start)
        (last records first)
  end.

(** The frames that reach the client: those written before [res.end()]. *)
Definition delivered (st : Pass W) : list Frame :=
  match ended st with
  | Some n => firstn n (written st)
  | None => written st
  end.

End Route.

End Bulk.

(* ================================================================== *)
(** * A scripted outside world *)
(* ================================================================== *)

(** A resolver and a transport whose answers are fixed in advance, on which
    the pipeline can be run. *)
Module Scripted.
Import Async Data Collab.
Local Open Scope string_scope.

Record Net : Type := mkNet {
  (** whether A/AAAA/CNAME lookups fulfil *)
  addressable : bool;
  (** the answer to the MX lookup; [None] rejects *)
  mxAnswer : option (list MXRecord);
  (** the answer to the TXT lookup; [None] rejects *)
  txtAnswer : option (list (list string));
  (** whether port 25 accepts connections *)
  reachable : bool;
  (** whether the TLS handshake goes through *)
  tlsWorks : bool;
  (** for each coming read, the chunks that arrive before its timer fires *)
  inbox : list (list string);
  (** everything written to sockets so far, oldest first *)
  sent : list string
}.

Definition answer {A} (ok : bool) (a : A) (msg : string) (n : Net)
  : Settlement A * Net :=
  if ok then (Fulfilled a, n) else (RejectedWith msg, n).

Definition withInbox (n : Net) (l : list (list string)) : Net :=
  {| addressable := addressable n; mxAnswer := mxAnswer n; txtAnswer := txtAnswer n;
     reachable := reachable n; tlsWorks := tlsWorks n; inbox := l; sent := sent n |}.

Definition withSent (n : Net) (l : list string) : Net :=
  {| addressable := addressable n; mxAnswer := mxAnswer n; txtAnswer := txtAnswer n;
     reachable := reachable n; tlsWorks := tlsWorks n; inbox := inbox n; sent := l |}.

#[export] Instance resolver : Resolver Net := {|
  queryAddress := fun _ _ n => answer (addressable n) tt "queryA ENOTFOUND" n;
  queryMx := fun _ n =>
    match mxAnswer n with
    | Some l => (Fulfilled l, n)
    | None => (RejectedWith "queryMx ENODATA", n)
    end;
  queryTxt := fun _ n =>
    match txtAnswer n with
    | Some l => (Fulfilled l, n)
    | None => (RejectedWith "queryTxt ENODATA", n)
    end
|}.

(** The reads of a socket: the next entry of the inbox. *)
Definition nextRead (n : Net) : list string * Net :=
  match inbox n with
  | [] => ([], n)
  | chunks :: rest => (chunks, withInbox n rest)
  end.

(** A peer that completes the TLS handshake or refuses it. *)
#[export] Instance transport : Transport Net := {|
  connectionTest := fun _ n => answer (reachable n) tt "connect ECONNREFUSED" n;
  socketOpen := fun _ _ n => answer (reachable n) tt "connect ECONNREFUSED" n;
  socketSend := fun data n => (Fulfilled tt, withSent n (sent n ++ [data]));
  socketData := fun _ n => nextRead n;
  tlsConnect := fun n =>
    if tlsWorks n then (Ok tt, n) else (Thrown "TLS handshake failed", n);
  socketCleanup := fun n => withSent n (sent n ++ ["QUIT" ++ Js.CRLF]);
  sleep := fun _ n => n
|}.

(** A peer that falls silent once the TLS handshake starts. *)
Definition silentTransport : Transport Net := {|
  connectionTest := fun _ n => answer (reachable n) tt "connect ECONNREFUSED" n;
  socketOpen := fun _ _ n => answer (reachable n) tt "connect ECONNREFUSED" n;
  socketSend := fun data n => (Fulfilled tt, withSent n (sent n ++ [data]));
  socketData := fun _ n => nextRead n;
  tlsConnect := fun n => (Pending, n);
  socketCleanup := fun n => withSent n (sent n ++ ["QUIT" ++ Js.CRLF]);
  sleep := fun _ n => n
|}.

(** A reply that arrives in one piece. *)
Definition reply (text : string) : list string := [text ++ Js.CRLF].

(** A plain server: greeting, EHLO accepted without extensions, MAIL FROM
    accepted, and the given reply to RCPT TO. *)
Definition plainSession (rcptReply : string) : list (list string) :=
  [reply "220 mx.example.org ESMTP";
   reply "250 mx.example.org";
   reply "250 2.1.0 Ok";
   reply rcptReply].

(** A server that advertises STARTTLS and answers it with 220. *)
Definition tlsSession (rcptReply : string) : list (list string) :=
  [reply "220 mx.example.org ESMTP";
   ["250-mx.example.org" ++ Js.CRLF ++ "250-STARTTLS" ++ Js.CRLF;
    "250 SIZE 1000" ++ Js.CRLF];
   reply "220 2.0.0 Ready to start TLS";
   reply "250 2.1.0 Ok";
   reply rcptReply].

Definition net (tls : bool) (sessions : list (list string)) : Net :=
  {| addressable := true;
     mxAnswer := Some [ {| exchange := "mx2.example.org"; priority := 20 |};
                        {| exchange := "mx.example.org"; priority := 10 |} ];
     txtAnswer := Some [["v=spf1 -all"]];
     reachable := true;
     tlsWorks := tls;
     inbox := sessions;
     sent := [] |}.

(** The value a run ended with, or [default] if it did not end normally. *)
Definition valueOf {A St} (run : Outcome A * St) (default : A) : A :=
  match fst run with
  | Ok a => a
  | Thrown _ | Pending => default
  end.

(** A policy whose reject codes overlap its accept codes. *)
Definition overlappingConfig : ProviderConfig :=
  {| provider := None;
     domains := [];
     mxDomains := [];
     reliable := true;
     heloHost := None;
     verifyMailboxFlag := true;
     requireTLS := false;
     timeout := 10000;
     acceptCodes := [250]%Z;
     rejectCodes := [250; 550]%Z;
     tempCodes := None;
     retryAttempts := 2;
     fromAddresses := None |}.

(** The entry of [PROVIDERS] for gmail.com, as [getProviderConfig]
    returns it. *)
Definition gmailConfig : ProviderConfig := Providers.getProviderConfig "gmail.com".

(** A record of a file that has no email column. *)
Definition nameless : Bulk.Row := [("name", "Ann")].

(** ['a'.repeat(n)] *)
Fixpoint repeatChar (c : ascii) (n : nat) : string :=
  match n with
  | O => EmptyString
  | S n' => String c (repeatChar c n')
  end.

End Scripted.


(* ================================================================== *)
(** * The single-address endpoint ([routes/validation.js]) *)
(* ================================================================== *)

Module Endpoint.
Import Async Data Collab.
Local Open Scope string_scope.

(** What the handler answers with. *)
Inductive Body : Type :=
| JsonResult : ValidationResult -> Body
| JsonFailure : string -> Body.

Record HttpResponse : Type := mkHttp {
  status : Z;
  body : Body
}.

(** [!v] *)
Definition falsy (v : JsValue) : bool :=
  match v with
  | JsString s => String.eqb s ""
  | JsUndefined | JsNull => true
  | JsBoolean b => negb b
  | JsNumber z => Z.eqb z 0
  | JsObject => false
  end.

Section Handler.
Context {W : Type} {R : Resolver W} {T : Transport W}.

(** The handler of [POST /validate]: the response it sends.  [email]
    is the [email] property of the parsed body, [JsUndefined] when the
    body has none.  [production] is [process.env.NODE_ENV === 'production']. *)
Definition postValidate (production : bool) (email : JsValue) : M W HttpResponse :=
  tryCatch
    (if falsy email then
       ret {| status := 400; body := JsonFailure "Email is required" |}
     else
       bind (Email.validateEmail email) (fun result =>
       ret {| status := 200; body := JsonResult result |}))
    (fun msg =>
       ret {| status := 500;
              body := JsonFailure (if production then "Server error occurred"
                                   else msg) |}).

End Handler.

End Endpoint.

(* ================================================================== *)
(** * Shapes of results *)
(* ================================================================== *)

(** Predicates on what the pipeline, the client, the controller and the
    bulk route hand back. *)
Module Shape.
Import Async Data Collab.
Local Open Scope string_scope.

(** The reasons [validateEmail] gives. *)
Definition reasons : list string :=
  ["Invalid email format";
   "Domain exceeds maximum length";
   "Domain does not exist";
   "No mail servers found for domain";
   "Mailbox does not exist";
   "Email verified successfully"].

(** The five kinds of result: the stage that stopped the pipeline, or none. *)
Inductive Stage : Type :=
| FormatStage | DnsStage | MxStage | MailboxStage | Verified.

(** The flags, the verdict and the reason that go with a stage. *)
Definition atStage (st : Stage) (r : ValidationResult) : Prop :=
  match st with
  | FormatStage =>
      checks r = mkChecks false false false false false false /\
      valid r = false /\ reason r = "Invalid email format"
  | DnsStage =>
      checks r = mkChecks true false false false false false /\
      valid r = false /\
      (reason r = "Domain exceeds maximum length" \/ reason r = "Domain does not exist")
  | MxStage =>
      checks r = mkChecks true true false false false false /\
      valid r = false /\ reason r = "No mail servers found for domain"
  | MailboxStage =>
      (exists spfFlag smtpFlag,
          checks r = mkChecks true true true spfFlag smtpFlag false) /\
      valid r = false /\ reason r = "Mailbox does not exist"
  | Verified =>
      (exists spfFlag, checks r = mkChecks true true true spfFlag true true) /\
      valid r = true /\ reason r = "Email verified successfully"
  end.

(** Ascending by priority. *)
Definition ascending (records : list MXRecord) : Prop :=
  Sorted (fun a b => (priority a <= priority b)%Z) records.

(** The details agree with the flags. *)
Definition detailed (r : ValidationResult) : Prop :=
  (mx (checks r) = false ->
   details r = {| mxRecords := []; spfRecord := None; smtpResponse := None |}) /\
  (mx (checks r) = true -> mxRecords (details r) <> [] /\ ascending (mxRecords (details r))) /\
  (spf (checks r) = true <-> exists s, spfRecord (details r) = Some s) /\
  (forall s, spfRecord (details r) = Some s -> Js.startsWith s "v=spf1" = true) /\
  (smtp (checks r) = true ->
   exists s, smtpResponse (details r) = Some s /\ success s = true /\
             mailboxExists s = mailbox (checks r)) /\
  (smtp (checks r) = false ->
   smtpResponse (details r) = None \/
   exists s, smtpResponse (details r) = Some s /\ success s = false).

(** What the MX and SPF steps leave in [result]. *)
Definition lookedUp (r : ValidationResult) : Prop :=
  mxRecords (details r) <> [] /\ ascending (mxRecords (details r)) /\
  (spf (checks r) = true <-> exists s, spfRecord (details r) = Some s) /\
  (forall s, spfRecord (details r) = Some s -> Js.startsWith s "v=spf1" = true).

(** [result] in the loop over the mail servers while no probe has
    succeeded. *)
Definition probing (input : JsValue) (r : ValidationResult) : Prop :=
  email r = input /\ valid r = false /\ lookedUp r /\
  (exists spfFlag, checks r = mkChecks true true true spfFlag false false) /\
  (smtpResponse (details r) = None \/
   exists s, smtpResponse (details r) = Some s /\ success s = false).

(** [result] when the loop is left after a probe that succeeded. *)
Definition probeStored (input : JsValue) (r : ValidationResult) : Prop :=
  email r = input /\ valid r = false /\ lookedUp r /\
  exists spfFlag s,
    checks r = mkChecks true true true spfFlag true (mailboxExists s) /\
    smtpResponse (details r) = Some s /\ success s = true.

(** What every result of [validateEmail] satisfies. *)
Definition audited (input : JsValue) (r : ValidationResult) : Prop :=
  email r = input /\ (exists st, atStage st r) /\ detailed r.

(** What an outcome of [verifyMailbox] looks like. *)
Definition probeShaped (r : SmtpResult) : Prop :=
  protected r = None /\
  (exists tls, supportsTLS r = Some tls) /\
  if success r then
    error r = None /\
    exists c, replyCode r = Some c /\ (0 <= c <= 999)%Z /\
              mailboxExists r = Z.eqb c 250 /\
              exists m, replyMessage r = Some m
  else
    mailboxExists r = false /\ replyCode r = None /\ replyMessage r = None /\
    exists msg, error r = Some msg.

(** What an outcome of [performSMTPCheck] under [config] looks like. *)
Definition outcomeShaped (config : ProviderConfig) (r : SmtpResult) : Prop :=
  if success r then
    error r = None /\
    exists c, replyCode r = Some c /\
      ((Providers.includesCode (acceptCodes config) (Some c) = true /\
        mailboxExists r = true /\ protected r = None) \/
       (Providers.includesCode (acceptCodes config) (Some c) = false /\
        Providers.includesCode (rejectCodes config) (Some c) = true /\
        mailboxExists r = false /\ protected r = None) \/
       (Providers.includesCode (acceptCodes config) (Some c) = false /\
        Providers.includesCode (rejectCodes config) (Some c) = false /\
        reliable config = false /\
        Providers.tempIncludes config (Some c) = true /\
        mailboxExists r = true /\ protected r = Some true /\
        replyMessage r = Some "Server employs protection measures"))
  else
    mailboxExists r = false /\ replyCode r = None /\ protected r = None /\
    exists msg, error r = Some msg /\ msg <> "".

(** The result lists of the progress events, in stream order. *)
Fixpoint batches (evs : list Bulk.Event) : list (list Bulk.Augmented) :=
  match evs with
  | [] => []
  | Bulk.Progress _ results :: rest => results :: batches rest
  | _ :: rest => batches rest
  end.

(** What every augmented record satisfies. *)
Definition rowShaped (a : Bulk.Augmented) : Prop :=
  (Bulk.validation_result a = "Valid" \/ Bulk.validation_result a = "Invalid") /\
  (Bulk.validation_result a = "Valid" <-> Bulk.mailbox_check a = true) /\
  (Bulk.mailbox_check a = true ->
   Bulk.smtp_check a = true /\ Bulk.mx_check a = true /\ Bulk.dns_check a = true /\
   Bulk.validation_reason a = "Email verified successfully") /\
  (Bulk.smtp_check a = true -> Bulk.mx_check a = true) /\
  (Bulk.spf_check a = true -> Bulk.mx_check a = true) /\
  (Bulk.mx_check a = true -> Bulk.dns_check a = true) /\
  Bulk.validation_reason a <> "".

(** The second pass while it runs in order, after the records [done]:
    the frames written are the init frame and then progress frames with
    their keepalive comments; nothing is stalled and the response is
    open; the records reported in the progress events followed by those
    waiting in the chunk are [done], in order, and fewer than a chunk are
    waiting; every row reported is well formed; the percentages written
    rise, and the last one is that of the current count. *)
Definition orderly {W} (totalRecords : nat) (headers : list string)
    (done : list Bulk.Row) (st : Bulk.Pass W) : Prop :=
  exists frames,
    Bulk.written st = Bulk.DataFrame (Bulk.Init totalRecords headers) :: frames /\
    forallb Bulk.isProgress (Bulk.events frames) = true /\
    Bulk.stalled st = false /\
    Bulk.ended st = None /\
    (List.length (Bulk.currentChunk st) < Bulk.CHUNK_SIZE)%nat /\
    List.app (map Bulk.source (List.concat (batches (Bulk.events frames))))
             (Bulk.currentChunk st) = done /\
    (Bulk.processedCount st = List.length (List.concat (batches (Bulk.events frames)))) /\
    Forall (Forall rowShaped) (batches (Bulk.events frames)) /\
    Bulk.nonDecreasing (Bulk.percentages (Bulk.events frames)) /\
    Forall (fun q => (q <= Bulk.percent (Bulk.processedCount st) totalRecords)%Q)
           (Bulk.percentages (Bulk.events frames)).

(** [f] applied [n] times. *)
Fixpoint iterate {A} (n : nat) (f : A -> A) (a : A) : A :=
  match n with
  | O => a
  | S n' => iterate n' f (f a)
  end.

End Shape.

(* ================================================================== *)
(** * Facts about strings *)
(* ================================================================== *)

Module JsFacts.
Import Js.
Local Open Scope string_scope.

Lemma append_nil_r (s : string) : s ++ "" = s.
Proof. induction s as [|c s IH]; simpl; [reflexivity | now rewrite IH]. Qed.

Lemma append_assoc (s1 s2 s3 : string) : (s1 ++ s2) ++ s3 = s1 ++ (s2 ++ s3).
Proof. induction s1 as [|c s1 IH]; simpl; [reflexivity | now rewrite IH]. Qed.

Lemma append_length (s1 s2 : string) :
  String.length (s1 ++ s2) = (String.length s1 + String.length s2)%nat.
Proof. induction s1 as [|c s1 IH]; simpl; [reflexivity | now rewrite IH]. Qed.

Lemma append_eq_nil (s1 s2 : string) : s1 ++ s2 = "" -> s1 = "" /\ s2 = "".
Proof. destruct s1; simpl; intros H; [now split | discriminate]. Qed.

Lemma append_eq_cons (s1 s2 : string) c s :
  s1 ++ s2 = String c s ->
  (s1 = "" /\ s2 = String c s) \/ (exists s1', s1 = String c s1' /\ s = s1' ++ s2).
Proof.
  destruct s1 as [|d s1]; simpl; intros H.
  - left; now split.
  - right; injection H as -> <-. now exists s1.
Qed.

Lemma allChars_append p s1 s2 :
  allChars p (s1 ++ s2) = allChars p s1 && allChars p s2.
Proof.
  induction s1 as [|c s1 IH]; simpl; [reflexivity|].
  now rewrite IH, andb_assoc.
Qed.

Lemma allChars_weaken (p q : ascii -> bool) s :
  (forall c, p c = true -> q c = true) -> allChars p s = true -> allChars q s = true.
Proof.
  intros Hpq; induction s as [|c s IH]; simpl; [reflexivity|].
  intros H; apply andb_true_iff in H as [Hc Hs].
  now rewrite (Hpq _ Hc), IH.
Qed.

Lemma split_nonempty sep s : split sep s <> [].
Proof.
  destruct s as [|c s]; simpl; [discriminate|].
  destruct (Ascii.eqb c sep); [discriminate|].
  destruct (split sep s); discriminate.
Qed.

(** A string without the separator is a single piece. *)
Lemma split_none sep s : allChars (notSep sep) s = true -> split sep s = [s].
Proof.
  induction s as [|c s IH]; simpl; [reflexivity|].
  intros H; apply andb_true_iff in H as [Hc Hs].
  unfold notSep in Hc; apply negb_true_iff in Hc; rewrite Hc.
  now rewrite (IH Hs).
Qed.

(** The first separator ends the first piece. *)
Lemma split_at sep l rest :
  allChars (notSep sep) l = true ->
  split sep (l ++ String sep rest) = l :: split sep rest.
Proof.
  induction l as [|c l IH]; simpl; intros H.
  - now rewrite Ascii.eqb_refl.
  - apply andb_true_iff in H as [Hc Hl].
    unfold notSep in Hc; apply negb_true_iff in Hc; rewrite Hc.
    now rewrite (IH Hl).
Qed.

End JsFacts.

(* ================================================================== *)
(** * The matcher decides the language *)
(* ================================================================== *)

Module RegexFacts.
Import Js Regex JsFacts.
Local Open Scope string_scope.

Lemma lang_void_inv s : lang Void s -> False.
Proof. intros H; inversion H. Qed.

Lemma lang_eps_inv s : lang Eps s -> s = "".
Proof. intros H; now inversion H. Qed.

Lemma lang_chr_inv p s : lang (Chr p) s -> exists c, s = String c "" /\ p c = true.
Proof. intros H; inversion H; subst; eauto. Qed.

Lemma lang_cat_inv r1 r2 s :
  lang (Cat r1 r2) s -> exists s1 s2, s = s1 ++ s2 /\ lang r1 s1 /\ lang r2 s2.
Proof. intros H; inversion H; subst; eauto. Qed.

Lemma lang_alt_inv r1 r2 s : lang (Alt r1 r2) s -> lang r1 s \/ lang r2 s.
Proof. intros H; inversion H; subst; auto. Qed.

Lemma lang_opt_inv r s : lang (Opt r) s -> s = "" \/ lang r s.
Proof.
  intros H; apply lang_alt_inv in H as [H|H]; [left; now apply lang_eps_inv | now right].
Qed.

Lemma lang_cons c r1 r2 s1 s2 :
  lang r1 (String c s1) -> lang r2 s2 -> lang (Cat r1 r2) (String c (s1 ++ s2)).
Proof.
  intros H1 H2. change (String c (s1 ++ s2)) with (String c s1 ++ s2).
  now constructor.
Qed.

Lemma nullable_lang r : nullable r = true <-> lang r "".
Proof.
  induction r as [| |p|r1 IH1 r2 IH2|r1 IH1 r2 IH2|r IH]; simpl.
  - split; [discriminate | intros H; now apply lang_void_inv in H].
  - split; [constructor | reflexivity].
  - split; [discriminate|].
    intros H; apply lang_chr_inv in H as (c & E & _); discriminate.
  - rewrite andb_true_iff, IH1, IH2; split.
    + intros [H1 H2]. change "" with ("" ++ ""). now constructor.
    + intros H; apply lang_cat_inv in H as (s1 & s2 & E & H1 & H2).
      symmetry in E; apply append_eq_nil in E as [-> ->]. now split.
  - rewrite orb_true_iff, IH1, IH2; split.
    + intros [H|H]; [now apply lang_alt_l | now apply lang_alt_r].
    + apply lang_alt_inv.
  - split; [constructor | reflexivity].
Qed.

(** A non-empty word of [r*] starts with a non-empty word of [r]. *)
Lemma star_cons r s :
  lang (Star r) s -> forall c t, s = String c t ->
  exists t1 t2, t = t1 ++ t2 /\ lang r (String c t1) /\ lang (Star r) t2.
Proof.
  intros H; remember (Star r) as sr eqn:E; revert r E.
  induction H as [| | | | | |r0 s1 s2 H1 _ H2 IH2]; intros r' E' d t Hs;
    try discriminate.
  injection E' as ->.
  apply append_eq_cons in Hs as [[-> ->]|[s1' [-> ->]]].
  - now apply (IH2 r' eq_refl).
  - now exists s1', s2.
Qed.

Lemma deriv_sound c r : forall s, lang (deriv c r) s -> lang r (String c s).
Proof.
  induction r as [| |p|r1 IH1 r2 IH2|r1 IH1 r2 IH2|r IH]; simpl; intros s H.
  - now apply lang_void_inv in H.
  - now apply lang_void_inv in H.
  - destruct (p c) eqn:Hp; [|now apply lang_void_inv in H].
    apply lang_eps_inv in H as ->. now constructor.
  - assert (Hcat : forall t, lang (Cat (deriv c r1) r2) t -> lang (Cat r1 r2) (String c t)).
    { intros t Ht; apply lang_cat_inv in Ht as (s1 & s2 & -> & H1 & H2).
      apply lang_cons; auto. }
    destruct (nullable r1) eqn:Hn; [|now apply Hcat].
    apply lang_alt_inv in H as [H|H]; [now apply Hcat|].
    change (String c s) with ("" ++ String c s).
    constructor; [now apply nullable_lang | auto].
  - apply lang_alt_inv in H as [H|H]; [apply lang_alt_l | apply lang_alt_r]; auto.
  - apply lang_cat_inv in H as (s1 & s2 & -> & H1 & H2).
    change (String c (s1 ++ s2)) with (String c s1 ++ s2).
    apply lang_star_app; auto.
Qed.

Lemma deriv_complete c r : forall s, lang r (String c s) -> lang (deriv c r) s.
Proof.
  induction r as [| |p|r1 IH1 r2 IH2|r1 IH1 r2 IH2|r IH]; simpl; intros s H.
  - now apply lang_void_inv in H.
  - apply lang_eps_inv in H; discriminate.
  - apply lang_chr_inv in H as (d & E & Hp). injection E as <- ->.
    rewrite Hp. constructor.
  - apply lang_cat_inv in H as (s1 & s2 & E & H1 & H2).
    symmetry in E; apply append_eq_cons in E as [[-> ->]|[s1' [-> ->]]].
    + apply nullable_lang in H1; rewrite H1. apply lang_alt_r; auto.
    + destruct (nullable r1); [apply lang_alt_l|]; constructor; auto.
  - apply lang_alt_inv in H as [H|H]; [apply lang_alt_l | apply lang_alt_r]; auto.
  - destruct (star_cons H eq_refl) as (t1 & t2 & -> & H1 & H2).
    constructor; auto.
Qed.

Theorem matches_lang r s : matches r s = true <-> lang r s.
Proof.
  revert r; induction s as [|c s IH]; intros r; simpl.
  - apply nullable_lang.
  - rewrite IH; split; [apply deriv_sound | apply deriv_complete].
Qed.

Lemma star_any s : lang (Star anyChar) s.
Proof.
  induction s as [|c s IH]; [constructor|].
  change (String c s) with (String c "" ++ s).
  apply lang_star_app; [now constructor | exact IH].
Qed.

(** Bounded repetition of a character class. *)
Lemma upto_chr p n : forall s,
  lang (UpTo n (Chr p)) s -> (String.length s <= n)%nat /\ allChars p s = true.
Proof.
  induction n as [|n IH]; simpl; intros s H.
  - apply lang_eps_inv in H as ->; simpl; split; [lia | reflexivity].
  - apply lang_opt_inv in H as [->|H]; [simpl; split; [lia | reflexivity]|].
    apply lang_cat_inv in H as (s1 & s2 & -> & H1 & H2).
    apply lang_chr_inv in H1 as (c & -> & Hp).
    destruct (IH _ H2) as [Hlen Hall]; simpl.
    rewrite Hp, Hall; split; [lia | reflexivity].
Qed.

Lemma star_chr p s : lang (Star (Chr p)) s -> allChars p s = true.
Proof.
  intros H; remember (Star (Chr p)) as sr eqn:E.
  induction H as [| | | | | |r0 s1 s2 H1 _ H2 IH2]; try discriminate;
    [reflexivity|].
  injection E as ->.
  apply lang_chr_inv in H1 as (c & -> & Hp); simpl.
  rewrite Hp, IH2 by reflexivity. reflexivity.
Qed.

End RegexFacts.

(* ================================================================== *)
(** * What the format pattern admits *)
(* ================================================================== *)

Module FormatFacts.
Import Js Regex Format JsFacts RegexFacts Data.
Local Open Scope string_scope.

Lemma lang_chars r s : lang r s -> allChars (charsOf r) s = true.
Proof.
  induction 1 as [|p c Hp|r1 r2 s1 s2 _ IH1 _ IH2|r1 r2 s _ IH|r1 r2 s _ IH
                 |r|r s1 s2 _ IH1 _ IH2]; simpl.
  - reflexivity.
  - now rewrite Hp.
  - rewrite allChars_append, andb_true_iff; split;
      [eapply allChars_weaken; [|exact IH1] | eapply allChars_weaken; [|exact IH2]];
      intros c Hc; simpl; rewrite Hc; auto using orb_true_r.
  - eapply allChars_weaken; [|exact IH]. intros c Hc; now rewrite Hc.
  - eapply allChars_weaken; [|exact IH]. intros c Hc; rewrite Hc; apply orb_true_r.
  - reflexivity.
  - rewrite allChars_append, andb_true_iff; split; [|exact IH2].
    eapply allChars_weaken; [|exact IH1]. intros c Hc; exact Hc.
Qed.

Lemma local_no_at c : charsOf localRegex c = true -> notSep "@" c = true.
Proof.
  destruct c as [[] [] [] [] [] [] [] []]; vm_compute; intros H;
    first [reflexivity | discriminate H].
Qed.

Lemma domain_no_at c : charsOf domainRegex c = true -> notSep "@" c = true.
Proof.
  destruct c as [[] [] [] [] [] [] [] []]; vm_compute; intros H;
    first [reflexivity | discriminate H].
Qed.

(** The local part the pattern admits has one to 63 characters. *)
Lemma local_length l :
  lang localRegex l -> (1 <= String.length l <= 63)%nat.
Proof.
  unfold localRegex; intros H.
  apply lang_cat_inv in H as (s1 & s2 & -> & H1 & H2).
  apply lang_chr_inv in H1 as (c & -> & _).
  apply lang_opt_inv in H2 as [->|H2]; [simpl; lia|].
  apply lang_cat_inv in H2 as (m & e & -> & Hm & He).
  apply lang_chr_inv in He as (c' & -> & _).
  apply upto_chr in Hm as [Hlen _].
  simpl; rewrite append_length; simpl; lia.
Qed.

(** An address the pattern admits is a local part, one [@] and a domain. *)
Lemma email_shape s :
  matches emailRegex s = true ->
  exists l d, s = l ++ String "@" d /\ lang localRegex l /\ lang domainRegex d.
Proof.
  intros H; apply matches_lang in H; unfold emailRegex in H.
  apply lang_cat_inv in H as (l & rest & -> & Hl & Hrest).
  apply lang_cat_inv in Hrest as (a & d & -> & Ha & Hd).
  apply lang_chr_inv in Ha as (c & -> & Hc).
  simpl in Hc; rewrite orb_false_r in Hc; apply Ascii.eqb_eq in Hc as ->.
  now exists l, d.
Qed.

(** On an accepted address [split('@')] yields exactly the two pieces. *)
Lemma accepted_split s :
  matches emailRegex s = true ->
  exists l d, Js.split "@" s = [l; d] /\ lang localRegex l /\ lang domainRegex d.
Proof.
  intros H; destruct (email_shape _ H) as (l & d & -> & Hl & Hd).
  exists l, d; repeat split; auto.
  rewrite split_at.
  - rewrite split_none; [reflexivity|].
    eapply allChars_weaken; [apply domain_no_at | now apply lang_chars].
  - eapply allChars_weaken; [apply local_no_at | now apply lang_chars].
Qed.

End FormatFacts.

(* ================================================================== *)
(** * Reasoning about asynchronous computations *)
(* ================================================================== *)

Module AsyncFacts.
Import Async.

Section Rules.
Context {St : Type}.

Lemma ensures_any {A} (m : M St A) : ensures m (fun _ => True).
Proof. intros st a st' _; exact I. Qed.

Lemma ensures_ret {A} (a : A) (P : A -> Prop) : P a -> ensures (St := St) (ret a) P.
Proof. intros Ha st b st' E; unfold ret in E. now injection E as <- _. Qed.

Lemma ensures_throw {A} msg (P : A -> Prop) : ensures (St := St) (throw msg) P.
Proof. intros st b st' E; discriminate E. Qed.

Lemma ensures_bind {A B} (m : M St A) (k : A -> M St B) (Q : A -> Prop) (P : B -> Prop) :
  ensures m Q -> (forall a, Q a -> ensures (k a) P) -> ensures (bind m k) P.
Proof.
  intros Hm Hk st b st' E. unfold bind in E.
  destruct (m st) as [[a|msg|] st1] eqn:Em; [|discriminate E|discriminate E].
  eapply Hk; [eapply Hm; exact Em | exact E].
Qed.

Lemma returns_ensures {A} (m : M St A) (P : A -> Prop) : returns m P -> ensures m P.
Proof.
  intros Hm st a st' E. destruct (Hm st) as (a' & st1 & E' & Ha).
  rewrite E in E'. now injection E' as -> _.
Qed.

(** ** Computations that may stay pending *)

Variable pends : Prop.

Lemma may_ret {A} (a : A) (P : A -> Prop) : P a -> may (St := St) pends (ret a) P.
Proof. intros Ha st; exact Ha. Qed.

Lemma must_ret {A} (a : A) (P : A -> Prop) : P a -> must (St := St) pends (ret a) P.
Proof. intros Ha st; exact Ha. Qed.

Lemma may_throw {A} msg (P : A -> Prop) : may (St := St) pends (throw msg) P.
Proof. intros st; exact I. Qed.

Lemma must_effect (f : St -> St) (P : unit -> Prop) : P tt -> must pends (effect f) P.
Proof. intros H st; exact H. Qed.

Lemma must_may {A} (m : M St A) (P : A -> Prop) : must pends m P -> may pends m P.
Proof.
  intros Hm st. specialize (Hm st).
  destruct (m st) as [[a|msg|] st1]; simpl in *; auto.
Qed.

Lemma may_weaken {A} (m : M St A) (P Q : A -> Prop) :
  may pends m P -> (forall a, P a -> Q a) -> may pends m Q.
Proof.
  intros Hm HPQ st. specialize (Hm st).
  destruct (m st) as [[a|msg|] st1]; simpl in *; auto.
Qed.

Lemma must_weaken {A} (m : M St A) (P Q : A -> Prop) :
  must pends m P -> (forall a, P a -> Q a) -> must pends m Q.
Proof.
  intros Hm HPQ st. specialize (Hm st).
  destruct (m st) as [[a|msg|] st1]; simpl in *; auto.
Qed.

Lemma may_bind {A B} (m : M St A) (k : A -> M St B) (Q : A -> Prop) (P : B -> Prop) :
  may pends m Q -> (forall a, Q a -> may pends (k a) P) -> may pends (bind m k) P.
Proof.
  intros Hm Hk st. unfold bind. specialize (Hm st).
  destruct (m st) as [[a|msg|] st1]; simpl in *; auto.
  exact (Hk a Hm st1).
Qed.

Lemma must_bind {A B} (m : M St A) (k : A -> M St B) (Q : A -> Prop) (P : B -> Prop) :
  must pends m Q -> (forall a, Q a -> must pends (k a) P) -> must pends (bind m k) P.
Proof.
  intros Hm Hk st. unfold bind. specialize (Hm st).
  destruct (m st) as [[a|msg|] st1]; simpl in *; auto.
  exact (Hk a Hm st1).
Qed.

Lemma may_tryCatch {A} (m : M St A) (h : string -> M St A) (P : A -> Prop) :
  may pends m P -> (forall msg, may pends (h msg) P) -> may pends (tryCatch m h) P.
Proof.
  intros Hm Hh st. unfold tryCatch. specialize (Hm st).
  destruct (m st) as [[a|msg|] st1]; simpl in *; auto.
  exact (Hh msg st1).
Qed.

(** A [try] whose [catch] clause does not throw does not throw. *)
Lemma must_tryCatch {A} (m : M St A) (h : string -> M St A) (P : A -> Prop) :
  may pends m P -> (forall msg, must pends (h msg) P) -> must pends (tryCatch m h) P.
Proof.
  intros Hm Hh st. unfold tryCatch. specialize (Hm st).
  destruct (m st) as [[a|msg|] st1]; simpl in *; auto.
  exact (Hh msg st1).
Qed.

(** A promise that is sure to settle is never left pending. *)
Lemma may_settling {A} (promise : St -> Settlement A * St) :
  may pends (settling promise) (fun _ => True).
Proof.
  intros st. unfold settling. now destruct (promise st) as [[a|msg] st1].
Qed.

Lemma must_settle {A} (m : M St A) :
  may pends m (fun _ => True) -> must pends (settle m) (fun _ => True).
Proof.
  intros Hm st. unfold settle. specialize (Hm st).
  destruct (m st) as [[a|msg|] st1]; simpl in *; auto.
Qed.

Lemma must_allSettled {A} (ms : list (M St A)) :
  Forall (fun m => may pends m (fun _ => True)) ms ->
  must pends (allSettled ms) (fun _ => True).
Proof.
  induction 1 as [|m ms Hm _ IH]; simpl; [now apply must_ret|].
  eapply must_bind; [apply must_settle, Hm|]. intros o _.
  eapply must_bind; [exact IH|]. intros os _. now apply must_ret.
Qed.

Lemma must_ok {A} (m : M St A) (P : A -> Prop) st a st' :
  must pends m P -> m st = (Ok a, st') -> P a.
Proof. intros Hm E. specialize (Hm st). now rewrite E in Hm. Qed.

Lemma must_not_thrown {A} (m : M St A) (P : A -> Prop) st msg st' :
  must pends m P -> m st <> (Thrown msg, st').
Proof. intros Hm E. specialize (Hm st). now rewrite E in Hm. Qed.

End Rules.

(** Where staying pending is allowed, nothing is asked of a computation
    that may throw. *)
Lemma may_trivial {St A} (m : M St A) : may True m (fun _ => True).
Proof. intros st. now destruct (fst (m st)). Qed.

(** A computation that neither throws nor stays pending ends normally. *)
Lemma must_returns {St A} (m : M St A) (P : A -> Prop) :
  must False m P -> returns m P.
Proof.
  intros Hm st. specialize (Hm st).
  destruct (m st) as [[a|msg|] st1]; simpl in *; try contradiction.
  now exists a, st1.
Qed.

End AsyncFacts.

(* ================================================================== *)
(** * The pipeline returns a consistent result unless a probe stays pending *)
(* ================================================================== *)

Module PipelineFacts.
Import Js Regex Async Data Collab AsyncFacts FormatFacts Email.
Local Open Scope string_scope.

Section Pipeline.
Context {W : Type} {R : Resolver W} {T : Transport W}.
Variable pends : Prop.

(** What is asked of the probe of one mail server. *)
Hypothesis probe : forall mxServer address domain config,
  may pends (Providers.performSMTPCheck (W := W) mxServer address domain config)
      (fun _ => True).

Lemma checkDNS_must domain : must pends (checkDNS domain) (fun _ => True).
Proof.
  unfold checkDNS. apply must_tryCatch; [|intros; now apply must_ret].
  apply must_may. eapply must_bind.
  - apply must_allSettled. repeat constructor; apply may_settling.
  - intros results _. now apply must_ret.
Qed.

Lemma checkMX_must domain : must pends (checkMX domain) (fun _ => True).
Proof.
  unfold checkMX. apply must_tryCatch; [|intros; now apply must_ret].
  eapply may_bind; [apply may_settling|].
  intros [|r rs] _; now apply may_ret.
Qed.

Lemma checkSPF_must domain : must pends (checkSPF domain) (fun _ => True).
Proof.
  unfold checkSPF. apply must_tryCatch; [|intros; now apply must_ret].
  eapply may_bind; [apply may_settling|].
  intros txt _; now apply may_ret.
Qed.

(** A host's probe that is caught leaves [result] as it was; one that
    reports success sets both flags; one that reports failure only
    stores the response. *)
Lemma smtpLoop_must address domain config hosts :
  forall result lastError,
    unprobed result ->
    must pends (smtpLoop address domain config hosts result lastError)
         (fun looped => probed (fst looped)).
Proof.
  induction hosts as [|mxr rest IH]; intros result lastError Hr; simpl.
  - apply must_ret; simpl.
    destruct Hr as (Hf & Hd & Hm & Hs & Hb); repeat split; auto.
    rewrite Hb; discriminate.
  - eapply must_bind with
      (Q := fun step => match step with
                        | inl r' => probed r'
                        | inr (r', _) => unprobed r'
                        end).
    + apply must_tryCatch.
      * eapply may_bind; [apply probe|].
        intros smtpResult _.
        destruct (success smtpResult); apply may_ret.
        -- destruct Hr as (Hf & Hd & Hm & Hs & Hb); repeat split; auto.
        -- exact Hr.
      * intros msg; apply must_ret; exact Hr.
    + intros [r'|[r' e]] Hstep.
      * now apply must_ret.
      * now apply IH.
Qed.

Lemma verdict_consistent result lastError :
  probed result -> consistent (verdict result lastError).
Proof.
  intros (Hf & Hd & Hm & Hs). unfold verdict, consistent, verdictChecks.
  destruct result as [e v [f d m sp sm mb] det rsn]; simpl in *; subst.
  destruct mb; simpl.
  - rewrite Hs by reflexivity; simpl; repeat split; reflexivity.
  - split; [reflexivity | discriminate].
Qed.

Lemma early_consistent (result : ValidationResult) :
  valid result = false -> verdictChecks (checks result) = false ->
  mailbox (checks result) = false -> consistent result.
Proof.
  intros Hv Hc Hb; split; [congruence|]. rewrite Hb; discriminate.
Qed.

Lemma validateDomain_must address domain result :
  valid result = false -> format (checks result) = true ->
  smtp (checks result) = false -> mailbox (checks result) = false ->
  must pends (validateDomain address domain result) consistent.
Proof.
  intros Hv Hf Hs Hb. unfold validateDomain.
  eapply must_bind; [apply checkDNS_must|]. intros [|] _; simpl.
  - eapply must_bind; [apply checkMX_must|]. intros [records|] _.
    + eapply must_bind; [apply checkSPF_must|]. intros spfResult _.
      eapply must_bind.
      * apply smtpLoop_must. repeat split; simpl; auto.
      * intros looped Hl. apply must_ret. now apply verdict_consistent.
    + apply must_ret, early_consistent; simpl; auto.
      unfold verdictChecks; simpl. now rewrite Hb, andb_false_r.
  - apply must_ret, early_consistent; simpl; auto.
    unfold verdictChecks; simpl. now rewrite Hb, andb_false_r.
Qed.

(** On every input the pipeline does not throw, and what it returns is
    consistent. *)
Lemma validateEmail_must input : must pends (validateEmail input) consistent.
Proof.
  unfold validateEmail.
  destruct (validateEmailFormat input) eqn:Hfmt; simpl.
  - destruct input as [address| | | | |]; try discriminate Hfmt.
    simpl in Hfmt. destruct (String.eqb address ""); [discriminate|].
    destruct (accepted_split _ Hfmt) as (l & d & Hsplit & Hl & _).
    rewrite Hsplit; simpl.
    apply local_length in Hl.
    replace (64 <? String.length l)%nat with false
      by (symmetry; apply Nat.ltb_ge; lia).
    destruct (255 <? String.length d)%nat.
    + apply must_ret, early_consistent; reflexivity.
    + apply validateDomain_must; reflexivity.
  - apply must_ret, early_consistent; reflexivity.
Qed.

End Pipeline.

(** Whatever the collaborators do, every result the pipeline returns is
    consistent, and it never throws. *)
Lemma validateEmail_safe {W} {R : Resolver W} {T : Transport W} input :
  must True (validateEmail input) consistent.
Proof. apply validateEmail_must. intros; apply may_trivial. Qed.

End PipelineFacts.

(* ================================================================== *)
(** * Response framing *)
(* ================================================================== *)

Module FramingFacts.
Import Js Regex JsFacts RegexFacts Data Smtp.
Local Open Scope string_scope.

Lemma lang_chr_cons (p : ascii -> bool) c r s :
  p c = true -> lang r s -> lang (Cat (Chr p) r) (String c s).
Proof.
  intros Hp Hs. change (String c s) with (String c "" ++ s).
  constructor; [now constructor | exact Hs].
Qed.

(** Three characters of a class, as [Exactly 3] spells them. *)
Lemma exactly3_inv p s :
  lang (Exactly 3 (Chr p)) s ->
  exists a b c, s = String a (String b (String c "")) /\
                p a = true /\ p b = true /\ p c = true.
Proof.
  simpl; intros H.
  apply lang_cat_inv in H as (s1 & t1 & -> & Ha & H).
  apply lang_cat_inv in H as (s2 & t2 & -> & Hb & H).
  apply lang_cat_inv in H as (s3 & t3 & -> & Hc & H).
  apply lang_eps_inv in H as ->.
  apply lang_chr_inv in Ha as (a & -> & Ha).
  apply lang_chr_inv in Hb as (b & -> & Hb).
  apply lang_chr_inv in Hc as (c & -> & Hc).
  now exists a, b, c.
Qed.

Lemma exactly3_intro (p : ascii -> bool) a b c :
  p a = true -> p b = true -> p c = true ->
  lang (Exactly 3 (Chr p)) (String a (String b (String c ""))).
Proof.
  intros Ha Hb Hc; simpl.
  repeat (apply lang_chr_cons; [assumption|]). constructor.
Qed.

Lemma oneOf_space_dash x : oneOf " -" x = true -> x = " "%char \/ x = "-"%char.
Proof.
  simpl; rewrite orb_false_r, orb_true_iff, !Ascii.eqb_eq. tauto.
Qed.

(** The shape of a line the first pattern admits. *)
Lemma replyLine_inv line :
  lang replyLine line ->
  exists a b c rest,
    line = String a (String b (String c rest)) /\
    isDigit a = true /\ isDigit b = true /\ isDigit c = true /\
    (rest = "" \/ exists x t, rest = String x t /\ oneOf " -" x = true /\
                              lang (Star dot) t).
Proof.
  unfold replyLine; intros H.
  apply lang_cat_inv in H as (code & rest & -> & Hcode & Hrest).
  apply exactly3_inv in Hcode as (a & b & c & -> & Ha & Hb & Hc).
  exists a, b, c, rest; simpl; repeat split; auto.
  apply lang_opt_inv in Hrest as [->|Hrest]; [now left|right].
  apply lang_cat_inv in Hrest as (s1 & t & -> & Hx & Ht).
  apply lang_chr_inv in Hx as (x & -> & Hx).
  now exists x, t.
Qed.

(** A line starting with three digits and [-] is a continuation line. *)
Lemma continuation_intro a b c t :
  isDigit a = true -> isDigit b = true -> isDigit c = true ->
  matchesPrefix continuationLine (String a (String b (String c (String "-" t)))) = true.
Proof.
  intros Ha Hb Hc. unfold matchesPrefix; apply matches_lang.
  change (String a (String b (String c (String "-" t))))
    with (String a (String b (String c (String "-" ""))) ++ t).
  constructor; [|apply star_any].
  unfold continuationLine.
  change (String a (String b (String c (String "-" ""))))
    with (String a (String b (String c "")) ++ String "-" "").
  constructor; [now apply exactly3_intro | now constructor].
Qed.

Lemma continuation_inv line :
  matchesPrefix continuationLine line = true ->
  exists a b c t, line = String a (String b (String c (String "-" t))).
Proof.
  unfold matchesPrefix, continuationLine; intros H; apply matches_lang in H.
  apply lang_cat_inv in H as (s1 & t & -> & H & _).
  apply lang_cat_inv in H as (code & dash & -> & Hcode & Hdash).
  apply exactly3_inv in Hcode as (a & b & c & -> & _).
  apply lang_chr_inv in Hdash as (x & -> & Hx).
  simpl in Hx; rewrite orb_false_r in Hx; apply Ascii.eqb_eq in Hx as ->.
  now exists a, b, c, t.
Qed.

(** The test of the source admits only lines that complete a reply in
    the specification's sense. *)
Lemma isFinalLine_completes line :
  isFinalLine line = true -> completesReply line = true.
Proof.
  unfold isFinalLine; intros H; apply andb_true_iff in H as [Hm Hc].
  apply negb_true_iff in Hc. apply matches_lang, replyLine_inv in Hm.
  destruct Hm as (a & b & c & rest & -> & Ha & Hb & Hc' & Hrest); simpl.
  rewrite Ha, Hb, Hc'; simpl.
  destruct Hrest as [->|(x & t & -> & Hx & _)]; [reflexivity|].
  apply oneOf_space_dash in Hx as [->| ->]; [reflexivity|].
  rewrite continuation_intro in Hc by assumption. discriminate.
Qed.

Lemma star_dot line : plainLine line = true -> lang (Star dot) line.
Proof.
  unfold plainLine; induction line as [|c s IH]; simpl; [constructor|].
  intros H; apply andb_true_iff in H as [Hc Hs].
  apply andb_true_iff in Hc as [_ Hc].
  change (String c s) with (String c "" ++ s).
  apply lang_star_app; [now constructor | auto].
Qed.

(** Conversely, on a plain line the two notions agree. *)
Lemma completes_isFinalLine line :
  plainLine line = true -> completesReply line = true -> isFinalLine line = true.
Proof.
  intros Hsl H. destruct line as [|a [|b [|c rest]]]; try discriminate H.
  simpl in H. apply andb_true_iff in H as [H Hrest].
  apply andb_true_iff in H as [H Hc]. apply andb_true_iff in H as [Ha Hb].
  unfold isFinalLine; apply andb_true_iff; split.
  - apply matches_lang. unfold replyLine.
    change (String a (String b (String c rest)))
      with (String a (String b (String c "")) ++ rest).
    constructor; [now apply exactly3_intro|].
    destruct rest as [|x t]; [apply lang_alt_l; constructor|].
    apply Ascii.eqb_eq in Hrest as ->.
    apply lang_alt_r, lang_chr_cons; [reflexivity|].
    apply star_dot. unfold plainLine in *; simpl in Hsl.
    repeat (apply andb_true_iff in Hsl as [_ Hsl]). exact Hsl.
  - apply negb_true_iff.
    destruct (matchesPrefix continuationLine _) eqn:E; [|reflexivity].
    apply continuation_inv in E as (a' & b' & c' & t & E).
    injection E as -> -> -> ->. simpl in Hrest; discriminate.
Qed.

Lemma find_all_false {A} (f : A -> bool) l :
  (forall x, In x l -> f x = false) -> find f l = None.
Proof.
  induction l as [|x l IH]; simpl; intros H; [reflexivity|].
  rewrite (H x) by now left. apply IH; intros y Hy; apply H; now right.
Qed.

(** Deliveries no longer reach a settled reader. *)
Lemma settled_resolved r chunks : fold_left handleResponse chunks (Resolved r) = Resolved r.
Proof. induction chunks; simpl; auto. Qed.

(** The reader from an arbitrary buffer: if it resolved, some delivery
    completed a final line. *)
Lemma resolved_from chunks : forall buffered r,
  fold_left handleResponse chunks (Waiting buffered) = Resolved r ->
  exists n line,
    (1 <= n <= List.length chunks)%nat /\
    fullResponse r = fold_left String.append (firstn n chunks) buffered /\
    In line (splitCRLF (fullResponse r)) /\
    isFinalLine line = true /\
    code r = parseInt (String.substring 0 3 line) /\
    message r = dropChars 4 line.
Proof.
  induction chunks as [|data rest IH]; intros buffered r; simpl; [discriminate|].
  destruct (find isFinalLine (splitCRLF (buffered ++ data))) as [line|] eqn:Hfind.
  - rewrite settled_resolved. intros E; injection E as <-.
    apply find_some in Hfind as [Hin Hfinal].
    exists 1%nat, line; simpl; repeat split; auto; lia.
  - intros E; apply IH in E as (n & line & Hn & Hfull & Hin & Hfinal & Hcode & Hmsg).
    exists (S n), line; simpl; repeat split; auto; lia.
Qed.

(** The reader from an arbitrary buffer: while no delivery completes a
    final line, it keeps the concatenation of what arrived. *)
Lemma waiting_from chunks : forall buffered,
  (forall n, (1 <= n <= List.length chunks)%nat ->
     forall line, In line (splitCRLF (fold_left String.append (firstn n chunks) buffered)) ->
                  isFinalLine line = false) ->
  fold_left handleResponse chunks (Waiting buffered)
  = Waiting (fold_left String.append chunks buffered).
Proof.
  induction chunks as [|data rest IH]; intros buffered H; simpl; [reflexivity|].
  rewrite find_all_false.
  - apply IH; intros n Hn line Hin.
    apply (H (S n)); [simpl; lia | exact Hin].
  - intros line Hin. apply (H 1%nat); [simpl; lia | exact Hin].
Qed.

(** Conversely, a reader that is still waiting has seen no final line, and
    a reader fed from a waiting state is never rejected by a delivery. *)
Lemma waiting_inv chunks : forall buffered rd,
  fold_left handleResponse chunks (Waiting buffered) = rd ->
  (exists r, rd = Resolved r) \/
  (rd = Waiting (fold_left String.append chunks buffered) /\
   forall n, (1 <= n <= List.length chunks)%nat ->
     forall line, In line (splitCRLF (fold_left String.append (firstn n chunks) buffered)) ->
                  isFinalLine line = false).
Proof.
  induction chunks as [|data rest IH]; intros buffered rd; simpl.
  - intros <-; right; split; [reflexivity|]. intros n Hn; lia.
  - destruct (find isFinalLine (splitCRLF (buffered ++ data))) as [line|] eqn:Hfind.
    + rewrite settled_resolved. intros <-; left; eauto.
    + intros Hrd. destruct (IH _ _ Hrd) as [Hres|[Hwait Hnone]]; [now left|].
      right; split; [exact Hwait|].
      intros [|[|n]] Hn line Hin; [lia| |].
      * simpl in Hin. eapply find_none; eauto.
      * apply (Hnone (S n)); [simpl in Hn; lia | exact Hin].
Qed.

(** A string without a carriage return is one line. *)
Lemma splitCRLF_plain s :
  allChars (fun c => negb (Ascii.eqb c CR)) s = true -> splitCRLF s = [s].
Proof.
  induction s as [|c s IH]; [reflexivity|].
  intros H. simpl in H. apply andb_true_iff in H as [Hc Hs].
  apply negb_true_iff in Hc.
  change (splitCRLF (String c s)) with
    (match s with
     | String d s'' =>
         if Ascii.eqb c CR && Ascii.eqb d LF then EmptyString :: splitCRLF s''
         else match splitCRLF s with
              | piece :: rest => String c piece :: rest
              | [] => [String c EmptyString]
              end
     | EmptyString => [String c EmptyString]
     end).
  destruct s as [|d s']; [reflexivity|].
  rewrite Hc; simpl andb. cbv iota. now rewrite (IH Hs).
Qed.

Lemma plainLine_no_cr line :
  plainLine line = true -> allChars (fun c => negb (Ascii.eqb c CR)) line = true.
Proof.
  unfold plainLine; apply allChars_weaken. intros c H.
  apply andb_true_iff in H as [_ H]. apply negb_true_iff in H.
  apply orb_false_iff in H as [_ H]. now rewrite H.
Qed.

(** A string without a carriage return holds no line terminator. *)
Lemma no_terminator s :
  allChars (fun c => negb (Ascii.eqb c CR)) s = true -> includes s CRLF = false.
Proof.
  induction s as [|c s IH]; [reflexivity|].
  intros H. simpl in H. apply andb_true_iff in H as [Hc Hs].
  apply negb_true_iff in Hc.
  change (includes (String c s) CRLF)
    with (String.prefix CRLF (String c s) || includes s CRLF).
  rewrite (IH Hs), orb_false_r. unfold CRLF; cbn [String.prefix].
  destruct (Ascii.ascii_dec CR c) as [E|E]; [|reflexivity].
  subst c. now rewrite Ascii.eqb_refl in Hc.
Qed.

(** The reader resolves from a first delivery that is one unterminated
    line, if it starts like a final line. *)
Lemma unterminated_resolves line later :
  plainLine line = true -> completesReply line = true ->
  deliver (line :: later)
  = Resolved {| code := parseInt (String.substring 0 3 line);
                message := dropChars 4 line;
                fullResponse := line |}.
Proof.
  intros Hplain Hcomplete. unfold deliver; simpl.
  rewrite (splitCRLF_plain _ (plainLine_no_cr _ Hplain)); simpl.
  rewrite (completes_isFinalLine line Hplain Hcomplete).
  apply settled_resolved.
Qed.

End FramingFacts.

(* ================================================================== *)
(** * The SMTP session *)
(* ================================================================== *)

Module SessionFacts.
Import Js Async Data Collab Smtp AsyncFacts.
Local Open Scope string_scope.

Section Session.
Context {W : Type} {T : Transport W}.

Lemma keeps_ret {A} (a : A) : keepsFlag (W := W) (ret a).
Proof. intros cl; reflexivity. Qed.

Lemma keeps_throw {A} msg : keepsFlag (W := W) (A := A) (throw msg).
Proof. intros cl; reflexivity. Qed.

Lemma keeps_bind {A B} (m : M (@Client W) A) (k : A -> M (@Client W) B) :
  keepsFlag m -> (forall a, keepsFlag (k a)) -> keepsFlag (bind m k).
Proof.
  intros Hm Hk cl. unfold bind. specialize (Hm cl).
  destruct (m cl) as [[a|msg|] cl1]; simpl in *; [|exact Hm|exact Hm].
  now rewrite Hk.
Qed.

Lemma keeps_tryCatch {A} (m : M (@Client W) A) (h : string -> M (@Client W) A) :
  keepsFlag m -> (forall msg, keepsFlag (h msg)) -> keepsFlag (tryCatch m h).
Proof.
  intros Hm Hh cl. unfold tryCatch. specialize (Hm cl).
  destruct (m cl) as [[a|msg|] cl1]; simpl in *; [exact Hm| |exact Hm].
  now rewrite Hh.
Qed.

Lemma keeps_onSocket {A} (m : M W A) : keepsFlag (W := W) (onSocket m).
Proof. intros cl; unfold onSocket. now destruct (m (socket cl)). Qed.

Lemma keeps_connect host : keepsFlag (connect host).
Proof. intros cl; unfold connect. apply keeps_onSocket. Qed.

Lemma keeps_command cmd : keepsFlag (command cmd).
Proof.
  unfold command; apply keeps_bind.
  - destruct cmd; [apply keeps_onSocket | apply keeps_ret].
  - intros _ cl. apply keeps_onSocket.
Qed.

Lemma keeps_helloLoop hosts : keepsFlag (helloLoop hosts).
Proof.
  induction hosts as [|h rest IH]; simpl; [apply keeps_ret|].
  apply keeps_bind.
  - apply keeps_tryCatch; [|intros; apply keeps_ret].
    apply keeps_bind; [apply keeps_command|]. intros ehlo.
    destruct (code ehlo =? 250)%Z; [apply keeps_ret|].
    apply keeps_bind; [apply keeps_command|]. intros helo.
    destruct (code helo =? 250)%Z; apply keeps_ret.
  - intros [r|]; [apply keeps_ret | exact IH].
Qed.

Lemma keeps_hello host domain config : keepsFlag (hello host domain config).
Proof.
  unfold hello. apply keeps_bind; [apply keeps_connect|]. intros _.
  apply keeps_bind; [apply keeps_command|]. intros greeting.
  destruct (negb (code greeting =? 220)%Z); [apply keeps_throw|].
  apply keeps_bind; [apply keeps_helloLoop|].
  intros [r|]; [apply keeps_ret | apply keeps_throw].
Qed.

Lemma keeps_mailFromLoop addresses : keepsFlag (mailFromLoop addresses).
Proof.
  induction addresses as [|a rest IH]; simpl; [apply keeps_ret|].
  apply keeps_bind.
  - apply keeps_tryCatch; [|intros; apply keeps_ret].
    apply keeps_bind; [apply keeps_command|]. intros r; apply keeps_ret.
  - intros [|]; [apply keeps_ret | exact IH].
Qed.

Lemma keeps_sender domain config : keepsFlag (sender domain config).
Proof.
  unfold sender. apply keeps_bind; [apply keeps_mailFromLoop|].
  intros [|]; [apply keeps_ret | apply keeps_throw].
Qed.

(** What [verifyMailbox] returns when its [try] block reaches the
    [return]. *)
Lemma verifyMailbox_completed host email domain config (w : W) cl1 rcptResponse cl2 :
  negotiate host domain config (newClient config w) = (Ok tt, cl1) ->
  rcpt email cl1 = (Ok rcptResponse, cl2) ->
  verifyMailbox host email domain config w =
  (Ok {| success := true;
         mailboxExists := (code rcptResponse =? 250)%Z;
         supportsTLS := Some (tlsSeen cl2);
         replyCode := Some (code rcptResponse);
         replyMessage := Some (message rcptResponse);
         error := None;
         protected := None |},
   socketCleanup (socket cl2)).
Proof.
  intros Hneg Hrcpt. unfold verifyMailbox, bind. now rewrite Hneg, Hrcpt.
Qed.

(** What [verifyMailbox] returns when its [try] block throws. *)
Lemma verifyMailbox_caught host email domain config (w : W) msg cl :
  bind (negotiate host domain config) (fun _ => rcpt email) (newClient config w)
  = (Thrown msg, cl) ->
  verifyMailbox host email domain config w =
  (Ok {| success := false;
         mailboxExists := false;
         supportsTLS := Some (tlsSeen cl);
         replyCode := None;
         replyMessage := None;
         error := Some msg;
         protected := None |},
   socketCleanup (socket cl)).
Proof. intros H. unfold verifyMailbox. now rewrite H. Qed.

(** A confirmed mailbox is a reply 250 to RCPT TO. *)
Lemma verifyMailbox_mailbox host email domain config (w w' : W) r :
  verifyMailbox host email domain config w = (Ok r, w') ->
  mailboxExists r = true ->
  success r = true /\ replyCode r = Some 250%Z.
Proof.
  unfold verifyMailbox.
  destruct (bind _ _ _) as [[resp|msg|] cl]; intros E; [| |discriminate E];
    injection E as <- _; simpl; [|discriminate].
  intros H; apply Z.eqb_eq in H; rewrite H. now split.
Qed.

(** ** Where a session can stay pending *)

Variable pends : Prop.

(** What is asked of the TLS handshake. *)
Hypothesis handshake : may pends (tlsConnect (W := W)) (fun _ => True).

Lemma may_onSocket {A} (m : M W A) (P : A -> Prop) :
  may pends m P -> may pends (onSocket m) P.
Proof.
  intros Hm cl. unfold onSocket. specialize (Hm (socket cl)).
  now destruct (m (socket cl)) as [[a|msg|] w].
Qed.

Lemma connect_settles host : may pends (connect host) (fun _ => True).
Proof.
  intros cl. unfold connect.
  apply (may_onSocket (may_settling pends (socketOpen (optionsTimeout cl) host))).
Qed.

(** The timer of [command] settles it. *)
Lemma command_settles cmd : may pends (command cmd) (fun _ => True).
Proof.
  unfold command. eapply may_bind with (Q := fun _ => True).
  - destruct cmd; [apply may_onSocket, may_settling | now apply may_ret].
  - intros _ _ cl. apply may_onSocket. intros w.
    destruct (socketData (optionsTimeout cl) w) as [chunks w'].
    now destruct (onTimeout (deliver chunks)).
Qed.

Lemma helloLoop_settles hosts : may pends (helloLoop hosts) (fun _ => True).
Proof.
  induction hosts as [|h rest IH]; simpl; [now apply may_ret|].
  eapply may_bind with (Q := fun _ => True).
  - apply may_tryCatch; [|intros; now apply may_ret].
    eapply may_bind; [apply command_settles|]. intros ehlo _.
    destruct (code ehlo =? 250)%Z; [now apply may_ret|].
    eapply may_bind; [apply command_settles|]. intros helo _.
    destruct (code helo =? 250)%Z; now apply may_ret.
  - intros [r|] _; [now apply may_ret | exact IH].
Qed.

Lemma hello_settles host domain config :
  may pends (hello host domain config) (fun _ => True).
Proof.
  unfold hello. eapply may_bind; [apply connect_settles|]. intros _ _.
  eapply may_bind; [apply command_settles|]. intros greeting _.
  destruct (negb (code greeting =? 220)%Z); [apply may_throw|].
  eapply may_bind; [apply helloLoop_settles|].
  intros [r|] _; [now apply may_ret | apply may_throw].
Qed.

(** The STARTTLS step stays pending only where the handshake does. *)
Lemma startTls_pends host domain config ehloResponse :
  may pends (startTls host domain config ehloResponse) (fun _ => True).
Proof.
  unfold startTls. destruct (advertisesStartTls ehloResponse); [|now apply may_ret].
  apply may_tryCatch.
  - eapply may_bind; [apply command_settles|]. intros tlsCmd _.
    destruct (code tlsCmd =? 220)%Z; [|now apply may_ret].
    eapply may_bind; [apply may_onSocket, handshake|]. intros _ _.
    eapply may_bind with (Q := fun _ => True); [now apply must_may, must_effect|].
    intros _ _.
    eapply may_bind; [apply command_settles|]. intros _ _. now apply may_ret.
  - intros msg. destruct (requiresTLS config); [apply may_throw | now apply may_ret].
Qed.

Lemma mailFromLoop_settles addresses : may pends (mailFromLoop addresses) (fun _ => True).
Proof.
  induction addresses as [|a rest IH]; simpl; [now apply may_ret|].
  eapply may_bind with (Q := fun _ => True).
  - apply may_tryCatch; [|intros; now apply may_ret].
    eapply may_bind; [apply command_settles|]. intros r _. now apply may_ret.
  - intros [|] _; [now apply may_ret | exact IH].
Qed.

Lemma negotiate_pends host domain config :
  may pends (negotiate host domain config) (fun _ => True).
Proof.
  unfold negotiate. eapply may_bind; [apply hello_settles|]. intros ehlo _.
  eapply may_bind; [apply startTls_pends|]. intros _ _.
  unfold sender. eapply may_bind; [apply mailFromLoop_settles|].
  intros [|] _; [now apply may_ret | apply may_throw].
Qed.

(** [verifyMailbox] does not throw, and stays pending only where the
    handshake does. *)
Lemma verifyMailbox_must host email domain config :
  must pends (verifyMailbox host email domain config) (fun _ => True).
Proof.
  intros w. unfold verifyMailbox.
  assert (H : may pends (bind (negotiate host domain config) (fun _ => rcpt email))
                  (fun _ => True)).
  { eapply may_bind; [apply negotiate_pends|]. intros _ _. apply command_settles. }
  specialize (H (newClient config w)).
  now destruct (bind _ _ _) as [[resp|msg|] cl].
Qed.

End Session.

End SessionFacts.

(* ================================================================== *)
(** * The retry controller *)
(* ================================================================== *)

Module ControllerFacts.
Import Js Async Data Collab Providers AsyncFacts.
Local Open Scope string_scope.

Lemma includesZ_In codes c : includesZ codes c = true <-> In c codes.
Proof.
  unfold includesZ; rewrite existsb_exists; split.
  - intros (x & Hin & E); apply Z.eqb_eq in E; now subst.
  - intros Hin; exists c; split; [exact Hin | apply Z.eqb_refl].
Qed.

Lemma includesZ_not_In codes c : ~ In c codes -> includesZ codes c = false.
Proof.
  intros Hn; destruct (includesZ codes c) eqn:E; [|reflexivity].
  apply includesZ_In in E; contradiction.
Qed.

(** A completed probe with a reject code that is not an accept code. *)
Lemma classify_reject config result c :
  success result = true -> replyCode result = Some c ->
  In c (rejectCodes config) -> ~ In c (acceptCodes config) ->
  classify config result =
  Some {| success := true; mailboxExists := false;
          supportsTLS := supportsTLS result; replyCode := Some c;
          replyMessage := replyMessage result; error := None; protected := None |}.
Proof.
  intros Hs Hc Hr Ha. unfold classify; rewrite Hs, Hc; simpl.
  rewrite (includesZ_not_In _ _ Ha).
  apply includesZ_In in Hr; now rewrite Hr.
Qed.

(** A completed probe with a temporary code, under a policy that is not
    reliable. *)
Lemma classify_temp config result temps c :
  success result = true -> replyCode result = Some c ->
  reliable config = false -> tempCodes config = Some temps -> In c temps ->
  ~ In c (acceptCodes config) -> ~ In c (rejectCodes config) ->
  classify config result =
  Some {| success := true; mailboxExists := true;
          supportsTLS := supportsTLS result; replyCode := Some c;
          replyMessage := Some "Server employs protection measures";
          error := None; protected := Some true |}.
Proof.
  intros Hs Hc Hrel Ht Hin Ha Hr. unfold classify, tempIncludes.
  rewrite Hs, Hc, Hrel, Ht; simpl.
  rewrite (includesZ_not_In _ _ Ha), (includesZ_not_In _ _ Hr).
  apply includesZ_In in Hin; now rewrite Hin.
Qed.

(** In every policy the resolver returns, no reject code is an accept
    code. *)
Lemma resolved_policy_disjoint domain c :
  In c (rejectCodes (getProviderConfig domain)) ->
  ~ In c (acceptCodes (getProviderConfig domain)).
Proof.
  assert (Hentry : forall entry, In entry PROVIDERS ->
            In c (rejectCodes (withProvider entry)) ->
            ~ In c (acceptCodes (withProvider entry))).
  { intros entry Hin.
    repeat (destruct Hin as [<-|Hin]; [simpl; lia|]). contradiction. }
  unfold getProviderConfig.
  destruct (find (fun entry => includesStr _ _) PROVIDERS) as [entry|] eqn:E1.
  - apply find_some in E1 as [Hin _]. now apply Hentry.
  - destruct (find (fun entry => existsb _ _) PROVIDERS) as [entry|] eqn:E2.
    + apply find_some in E2 as [Hin _]. now apply Hentry.
    + simpl; lia.
Qed.

Section Controller.
Context {W : Type} {T : Transport W}.

(** An iteration whose probe is classified returns from the loop, in
    the world the probe left. *)
Lemma attempts_decisive config mxServer email domain remaining attempt lastError
    (w w1 w2 : W) result decisive :
  testConnection mxServer w = (Ok tt, w1) ->
  Smtp.verifyMailbox mxServer email domain (Some config) w1 = (Ok result, w2) ->
  classify config result = Some decisive ->
  attempts config mxServer email domain (S remaining) attempt lastError w
  = (Ok decisive, w2).
Proof.
  intros Hconn Hprobe Hclass. simpl.
  unfold bind at 1, attemptOnce, tryCatch, bind.
  now rewrite Hconn, Hprobe, Hclass.
Qed.

Variable pends : Prop.
Hypothesis handshake : may pends (tlsConnect (W := W)) (fun _ => True).

Lemma attemptOnce_must config mxServer email domain attempt :
  must pends (attemptOnce config mxServer email domain attempt) (fun _ => True).
Proof.
  unfold attemptOnce. apply must_tryCatch.
  - eapply may_bind; [apply may_settling|]. intros _ _.
    eapply may_bind; [apply must_may, SessionFacts.verifyMailbox_must, handshake|].
    intros result _. destruct (classify config result); now apply may_ret.
  - intros msg. eapply must_bind with (Q := fun _ => True).
    + destruct (attempt <? retryAttempts config - 1)%nat;
        [now apply must_effect | now apply must_ret].
    + intros _ _. now apply must_ret.
Qed.

Lemma attempts_must config mxServer email domain remaining :
  forall attempt lastError,
    must pends (attempts config mxServer email domain remaining attempt lastError)
         (fun _ => True).
Proof.
  induction remaining as [|n IH]; intros attempt lastError; simpl;
    [now apply must_ret|].
  eapply must_bind; [apply attemptOnce_must|].
  intros [r|msg] _; [now apply must_ret | apply IH].
Qed.

(** The controller does not throw, and stays pending only where a
    handshake does. *)
Lemma performSMTPCheck_must mxServer email domain providerConfig :
  must pends (performSMTPCheck mxServer email domain providerConfig) (fun _ => True).
Proof. unfold performSMTPCheck. apply attempts_must. Qed.

End Controller.

End ControllerFacts.

(* ================================================================== *)
(** * The bulk route *)
(* ================================================================== *)

Module BulkFacts.
Import Async Data Collab Bulk.
Local Open Scope list_scope.
Local Open Scope Q_scope.

Lemma percent_mono a b t :
  (a <= b)%nat -> (0 < t)%nat -> percent a t <= percent b t.
Proof.
  intros Hab Ht. unfold percent.
  apply Qmult_le_compat_r; [|discriminate].
  unfold Qdiv. apply Qmult_le_compat_r.
  - rewrite <- Zle_Qle. lia.
  - apply Qinv_le_0_compat. change 0 with (inject_Z 0). rewrite <- Zle_Qle. lia.
Qed.

Lemma percent_full t : (0 < t)%nat -> percent t t == 100.
Proof.
  intros Ht. unfold percent. field.
  change 0 with (inject_Z 0). rewrite inject_Z_injective. lia.
Qed.

Lemma percent_le_100 a t : (a <= t)%nat -> (0 < t)%nat -> percent a t <= 100.
Proof.
  intros Hat Ht. rewrite <- (percent_full Ht). now apply percent_mono.
Qed.

Lemma events_app a b : events (a ++ b) = events a ++ events b.
Proof.
  induction a as [|[e|c] a IH]; simpl; [reflexivity | now rewrite IH | exact IH].
Qed.

Lemma percentages_app a b : percentages (a ++ b) = percentages a ++ percentages b.
Proof.
  induction a as [|e a IH]; simpl; [reflexivity|].
  destruct e; simpl; now rewrite ?IH.
Qed.

Lemma nonDecreasing_snoc qs b :
  nonDecreasing qs -> Forall (fun q => q <= b) qs -> nonDecreasing (qs ++ [b]).
Proof.
  induction qs as [|q qs IH]; simpl; intros Hnd Hall; [auto|].
  destruct Hnd as [Hhead Htail]. inversion Hall as [|? ? Hq Hqs]; subst.
  split; [|now apply IH].
  destruct qs as [|q' qs']; simpl; [exact Hq | exact Hhead].
Qed.

Lemma Forall_le_trans (qs : list Q) a b :
  a <= b -> Forall (fun q => q <= a) qs -> Forall (fun q => q <= b) qs.
Proof.
  intros Hab H; eapply Forall_impl; [|exact H].
  intros q Hq; simpl in Hq. eapply Qle_trans; eauto.
Qed.

End BulkFacts.


(* ================================================================== *)
(** * The anatomy of the pipeline's results *)
(* ================================================================== *)

Module AuditFacts.
Import Js Async Data Collab AsyncFacts FormatFacts Email Shape.
Local Open Scope string_scope.

Lemma insert_permutation r l : Permutation (r :: l) (insertByPriority r l).
Proof.
  induction l as [|x l IH]; simpl; [apply Permutation_refl|].
  destruct (priority r <=? priority x)%Z; [apply Permutation_refl|].
  eapply perm_trans; [apply perm_swap|]. now apply perm_skip.
Qed.

Lemma sort_permutation records : Permutation records (sortByPriority records).
Proof.
  induction records as [|r rest IH]; simpl; [constructor|].
  eapply perm_trans; [apply perm_skip, IH | apply insert_permutation].
Qed.

Lemma insert_ascending r l : ascending l -> ascending (insertByPriority r l).
Proof.
  unfold ascending; induction l as [|x l IH]; simpl; intros Hs.
  - repeat constructor.
  - destruct (priority r <=? priority x)%Z eqn:E.
    + apply Z.leb_le in E. constructor; [exact Hs | now constructor].
    + apply Z.leb_gt in E. inversion Hs as [|? ? Hl Hhd]; subst.
      constructor; [now apply IH|].
      destruct l as [|y l]; simpl.
      * constructor; lia.
      * destruct (priority r <=? priority y)%Z; constructor;
          [lia | now inversion Hhd].
Qed.

Lemma sort_ascending records : ascending (sortByPriority records).
Proof.
  induction records as [|r rest IH]; simpl; [constructor | now apply insert_ascending].
Qed.

Lemma sort_nonempty r rest : sortByPriority (r :: rest) <> [].
Proof.
  intros E. pose proof (sort_permutation (r :: rest)) as P.
  rewrite E in P. apply Permutation_sym in P. now apply Permutation_nil_cons in P.
Qed.

Lemma spf_prefix_nonempty s : Js.startsWith s "v=spf1" = true -> s <> "".
Proof. intros H ->; discriminate H. Qed.

Section Pipeline.
Context {W : Type} {R : Resolver W} {T : Transport W}.
Variable pends : Prop.

(** What is asked of the probe of one mail server. *)
Hypothesis probe : forall mxServer address domain config,
  may pends (Providers.performSMTPCheck (W := W) mxServer address domain config)
      (fun _ => True).

(** The MX step: nothing, or the resolver's answer reordered. *)
Lemma checkMX_cases domain (w : W) :
  (exists records w',
      resolveMx domain w = (Ok records, w') /\ records <> [] /\
      checkMX domain w = (Ok (Some (sortByPriority records)), w')) \/
  (exists w', checkMX domain w = (Ok None, w') /\
              (resolveMx domain w = (Ok [], w') \/
               exists msg, resolveMx domain w = (Thrown msg, w'))).
Proof.
  unfold checkMX, tryCatch, bind, resolveMx, settling.
  destruct (queryMx domain w) as [[[|r rest]|msg] w'] eqn:E.
  - right; exists w'; split; [reflexivity | now left].
  - left; exists (r :: rest), w'. split; [reflexivity|]. split; [discriminate | reflexivity].
  - right; exists w'; split; [reflexivity | right; now exists msg].
Qed.

Lemma checkMX_sorted domain :
  must pends (checkMX domain)
       (fun o => match o with
                 | Some l => l <> [] /\ ascending l
                 | None => True
                 end).
Proof.
  intros w. destruct (checkMX_cases domain w)
    as [(records & w' & _ & Hne & E)|(w' & E & _)]; rewrite E; simpl; [|exact I].
  split; [|apply sort_ascending].
  destruct records as [|r rest]; [contradiction | apply sort_nonempty].
Qed.

Lemma checkSPF_record domain :
  must pends (checkSPF domain)
       (fun s => (spfExists s = true <-> exists v, spfValue s = Some v) /\
                 (forall v, spfValue s = Some v -> Js.startsWith v "v=spf1" = true)).
Proof.
  intros w. unfold checkSPF, tryCatch, bind, resolveTxt, settling.
  destruct (queryTxt domain w) as [[txt|msg] w']; simpl.
  - destruct (find _ (List.concat txt)) as [v|] eqn:E.
    + apply find_some in E as [_ Hv].
      pose proof (spf_prefix_nonempty Hv) as Hne.
      apply String.eqb_neq in Hne. rewrite Hne; simpl.
      split; [split; eauto|]. intros v' Hv'; now injection Hv' as <-.
    + split; [split; [discriminate | intros (v & Hv); discriminate]|].
      intros v Hv; discriminate.
  - split; [split; [discriminate | intros (v & Hv); discriminate]|].
    intros v Hv; discriminate.
Qed.

Lemma smtpLoop_audited input address domain config hosts :
  forall result lastError,
    probing input result ->
    must pends (smtpLoop address domain config hosts result lastError)
         (fun looped => probing input (fst looped) \/ probeStored input (fst looped)).
Proof.
  induction hosts as [|mxr rest IH]; intros result lastError Hr; simpl.
  - apply must_ret; now left.
  - eapply must_bind with
      (Q := fun step => match step with
                        | inl r' => probeStored input r'
                        | inr (r', _) => probing input r'
                        end).
    + apply must_tryCatch.
      * eapply may_bind; [apply probe|].
        intros smtpResult _.
        destruct Hr as (He & Hv & Hl & (sp & Hc) & _).
        destruct result as [e v c d rsn]; simpl in *; subst.
        destruct (success smtpResult) eqn:Hs; apply may_ret; simpl.
        -- split; [reflexivity|]. split; [reflexivity|]. split; [exact Hl|].
           exists sp, smtpResult. now repeat split.
        -- split; [reflexivity|]. split; [reflexivity|]. split; [exact Hl|].
           split; [now exists sp|]. right; exists smtpResult; now split.
      * intros msg; apply must_ret; exact Hr.
    + intros [r'|[r' e]] Hstep.
      * apply must_ret; now right.
      * now apply IH.
Qed.

Lemma lookedUp_detailed r :
  lookedUp r -> mx (checks r) = true ->
  (smtp (checks r) = true ->
   exists s, smtpResponse (details r) = Some s /\ success s = true /\
             mailboxExists s = mailbox (checks r)) ->
  (smtp (checks r) = false ->
   smtpResponse (details r) = None \/
   exists s, smtpResponse (details r) = Some s /\ success s = false) ->
  detailed r.
Proof.
  intros (Hne & Hasc & Hspf & Hpre) Hmx Hs1 Hs0.
  repeat split; auto; try (rewrite Hmx; discriminate); apply Hspf.
Qed.

Lemma verdict_audited input result lastError :
  probing input result \/ probeStored input result ->
  audited input (verdict result lastError).
Proof.
  intros [(He & Hv & Hl & (sp & Hc) & Hresp)|(He & Hv & Hl & sp & s & Hc & Hresp & Hs)];
    destruct result as [e v c d rsn]; simpl in *; subst; unfold verdict; simpl.
  - split; [reflexivity|]. split.
    + exists MailboxStage; simpl; repeat split; eauto.
    + apply lookedUp_detailed; simpl; auto; discriminate.
  - destruct (mailboxExists s) eqn:Hm; simpl.
    + split; [reflexivity|]. split.
      * exists Verified; simpl; repeat split; eauto.
      * apply lookedUp_detailed; simpl; auto; [|discriminate].
        intros _; exists s; now repeat split.
    + split; [reflexivity|]. split.
      * exists MailboxStage; simpl; repeat split; eauto.
      * apply lookedUp_detailed; simpl; auto; [|discriminate].
        intros _; exists s; now repeat split.
Qed.

Lemma early_detailed (r : ValidationResult) :
  mx (checks r) = false -> spf (checks r) = false -> smtp (checks r) = false ->
  details r = {| mxRecords := []; spfRecord := None; smtpResponse := None |} ->
  detailed r.
Proof.
  intros Hmx Hspf Hsmtp Hd. unfold detailed. rewrite Hmx, Hspf, Hsmtp, Hd; simpl.
  repeat split; try discriminate; auto.
  intros (s & Hs); discriminate.
Qed.

Lemma validateDomain_audited input address domain :
  must pends (validateDomain address domain (setFormat (initialResult input) true))
       (audited input).
Proof.
  unfold validateDomain.
  eapply must_bind; [apply PipelineFacts.checkDNS_must|]. intros [|] _; simpl.
  - eapply must_bind; [apply checkMX_sorted|]. intros [records|] Hrec.
    + destruct Hrec as [Hne Hasc].
      eapply must_bind; [apply checkSPF_record|]. intros spfResult [Hex Hpre].
      eapply must_bind.
      * apply (smtpLoop_audited (input := input)).
        repeat split; simpl; auto; try apply Hex; eauto.
      * intros looped Hl. apply must_ret. now apply verdict_audited.
    + apply must_ret. split; [reflexivity|]. split.
      * exists MxStage; simpl; now repeat split.
      * now apply early_detailed.
  - apply must_ret. split; [reflexivity|]. split.
    + exists DnsStage; simpl; repeat split; now right.
    + now apply early_detailed.
Qed.

(** On every input the pipeline does not throw, and what it returns is
    audited. *)
Lemma validateEmail_audited input : must pends (validateEmail input) (audited input).
Proof.
  unfold validateEmail.
  destruct (validateEmailFormat input) eqn:Hfmt; simpl.
  - destruct input as [address| | | | |]; try discriminate Hfmt.
    simpl in Hfmt. destruct (String.eqb address ""); [discriminate|].
    destruct (accepted_split _ Hfmt) as (l & d & Hsplit & Hl & _).
    rewrite Hsplit; simpl.
    apply local_length in Hl.
    replace (64 <? String.length l)%nat with false
      by (symmetry; apply Nat.ltb_ge; lia).
    destruct (255 <? String.length d)%nat.
    + apply must_ret. split; [reflexivity|]. split.
      * exists DnsStage; simpl; repeat split; now left.
      * now apply early_detailed.
    + apply validateDomain_audited.
  - apply must_ret. split; [reflexivity|]. split.
    + exists FormatStage; simpl; now repeat split.
    + now apply early_detailed.
Qed.

End Pipeline.

(** Whatever the collaborators do, every result the pipeline returns is
    audited. *)
Lemma validateEmail_checked {W} {R : Resolver W} {T : Transport W} input :
  must True (validateEmail input) (audited input).
Proof. apply validateEmail_audited. intros; apply may_trivial. Qed.

End AuditFacts.


(* ================================================================== *)
(** * Replies and probes *)
(* ================================================================== *)

Module ProbeFacts.
Import Js Regex JsFacts RegexFacts Async Data Collab Smtp Shape AsyncFacts.
Local Open Scope string_scope.

Lemma digit_value c : isDigit c = true -> (0 <= digitVal c <= 9)%Z.
Proof.
  unfold isDigit, inRange, digitVal.
  change (nat_of_ascii "0") with 48%nat. change (nat_of_ascii "9") with 57%nat.
  intros H. apply andb_true_iff in H as [Hlo Hhi].
  apply Nat.leb_le in Hlo, Hhi. lia.
Qed.

(** The number [parseInt] reads off three digits. *)
Lemma parse_three a b c rest :
  isDigit a = true -> isDigit b = true -> isDigit c = true ->
  parseInt (String.substring 0 3 (String a (String b (String c rest))))
  = (100 * digitVal a + 10 * digitVal b + digitVal c)%Z.
Proof.
  intros Ha Hb Hc. unfold parseInt.
  replace (String.substring 0 3 (String a (String b (String c rest))))
    with (String a (String b (String c ""))) by (destruct rest; reflexivity).
  cbn [parseDigits]. rewrite Ha, Hb, Hc. lia.
Qed.

(** A final line starts with three digits; its code lies in 0..999. *)
Lemma final_line_code line :
  isFinalLine line = true ->
  exists a b c rest,
    line = String a (String b (String c rest)) /\
    isDigit a = true /\ isDigit b = true /\ isDigit c = true /\
    parseInt (String.substring 0 3 line)
    = (100 * digitVal a + 10 * digitVal b + digitVal c)%Z /\
    (0 <= parseInt (String.substring 0 3 line) <= 999)%Z.
Proof.
  intros H. apply FramingFacts.isFinalLine_completes in H.
  destruct line as [|a [|b [|c rest]]]; try discriminate H.
  simpl in H. apply andb_true_iff in H as [H _].
  apply andb_true_iff in H as [H Hc]. apply andb_true_iff in H as [Ha Hb].
  exists a, b, c, rest. rewrite (@parse_three a b c rest Ha Hb Hc).
  pose proof (@digit_value a Ha). pose proof (@digit_value b Hb).
  pose proof (@digit_value c Hc). repeat split; auto; lia.
Qed.

Section Client.
Context {W : Type} {T : Transport W}.

(** What [command] resolves with came out of the reader. *)
Lemma command_resolved cmd (cl cl' : @Client W) r :
  command cmd cl = (Ok r, cl') ->
  exists chunks, deliver chunks = Resolved r.
Proof.
  unfold command, bind. intros H.
  destruct (match cmd with
            | Some c => onSocket (socketWrite (c ++ CRLF))
            | None => ret tt
            end cl) as [[[]|msg|] cl1]; [|discriminate H|discriminate H].
  unfold onSocket in H.
  destruct (socketData (optionsTimeout cl1) (socket cl1)) as [chunks w'].
  exists chunks. destruct (deliver chunks) as [buf|r'|msg]; simpl in H;
    try discriminate H.
  now injection H as -> _.
Qed.

Lemma command_code cmd (cl cl' : @Client W) r :
  command cmd cl = (Ok r, cl') -> (0 <= code r <= 999)%Z.
Proof.
  intros H. apply command_resolved in H as (chunks & H).
  unfold deliver in H. apply FramingFacts.resolved_from in H
    as (n & line & _ & _ & _ & Hfinal & Hcode & _).
  rewrite Hcode. now destruct (final_line_code _ Hfinal) as (a & b & c & rest & _ & _ & _ & _ & _ & ?).
Qed.

(** Every outcome of [verifyMailbox] is well formed. *)
Lemma verifyMailbox_shaped host email domain config (w w' : W) r :
  verifyMailbox host email domain config w = (Ok r, w') -> probeShaped r.
Proof.
  unfold verifyMailbox.
  destruct (bind (negotiate host domain config) (fun _ => rcpt email) (newClient config w))
    as [[resp|msg|] cl] eqn:E; intros H; [| |discriminate H];
    injection H as <- _; unfold probeShaped; simpl.
  - assert (Hcode : (0 <= code resp <= 999)%Z).
    { unfold bind in E.
      destruct (negotiate host domain config (newClient config w)) as [[[]|m|] cl1];
        [|discriminate E|discriminate E].
      unfold rcpt in E. now apply command_code in E. }
    split; [reflexivity|]. split; [now exists (tlsSeen cl)|]. split; [reflexivity|].
    exists (code resp). split; [reflexivity|]. split; [exact Hcode|].
    split; [reflexivity|]. now exists (message resp).
  - split; [reflexivity|]. split; [now exists (tlsSeen cl)|].
    split; [reflexivity|]. split; [reflexivity|]. split; [reflexivity|].
    now exists msg.
Qed.

End Client.

End ProbeFacts.

(* ================================================================== *)
(** * Outcomes of the retry controller *)
(* ================================================================== *)

Module OutcomeFacts.
Import Js Async Data Collab AsyncFacts Providers Shape.
Local Open Scope string_scope.

Lemma orElse_nonempty a b : b <> "" -> orElse a b <> "".
Proof. destruct a as [[|c s]|]; simpl; auto; discriminate. Qed.

(** A completed probe with an accept code. *)
Lemma classify_accept config result c :
  success result = true -> replyCode result = Some c ->
  In c (acceptCodes config) ->
  classify config result =
  Some {| success := true; mailboxExists := true;
          supportsTLS := supportsTLS result; replyCode := Some c;
          replyMessage := replyMessage result; error := None; protected := None |}.
Proof.
  intros Hs Hc Ha. unfold classify; rewrite Hs, Hc; simpl.
  apply ControllerFacts.includesZ_In in Ha; now rewrite Ha.
Qed.

(** A probe that failed, or completed with a code no set claims. *)
Lemma classify_ambiguous config result :
  success result = false \/
  (includesCode (acceptCodes config) (replyCode result) = false /\
   includesCode (rejectCodes config) (replyCode result) = false /\
   (reliable config = true \/ tempIncludes config (replyCode result) = false)) ->
  classify config result = None.
Proof.
  unfold classify. intros [->|(-> & -> & Htemp)]; [reflexivity|].
  destruct (success result); [|reflexivity].
  destruct Htemp as [->| ->]; [reflexivity|].
  now rewrite andb_false_r.
Qed.

Lemma classify_shaped config result decisive :
  classify config result = Some decisive -> outcomeShaped config decisive.
Proof.
  unfold classify, outcomeShaped. destruct (success result); [|discriminate].
  destruct (replyCode result) as [c|] eqn:Hc; simpl.
  - destruct (includesZ (acceptCodes config) c) eqn:Ha.
    { intros E; injection E as <-; simpl. split; [reflexivity|].
      exists c; split; [reflexivity|]. left; now rewrite Ha. }
    destruct (includesZ (rejectCodes config) c) eqn:Hr.
    { intros E; injection E as <-; simpl. split; [reflexivity|].
      exists c; split; [reflexivity|]. right; left; now rewrite Ha, Hr. }
    destruct (negb (reliable config) && tempIncludes config (Some c)) eqn:Ht;
      [|discriminate].
    apply andb_true_iff in Ht as [Hrel Ht]. apply negb_true_iff in Hrel.
    intros E; injection E as <-; simpl. split; [reflexivity|].
    exists c; split; [reflexivity|]. right; right. rewrite Ha, Hr. now repeat split.
  - unfold tempIncludes; destruct (tempCodes config); simpl;
      rewrite ?andb_false_r; discriminate.
Qed.

Lemma exhausted_shaped config lastError : outcomeShaped config (exhausted lastError).
Proof.
  unfold outcomeShaped, exhausted; simpl. repeat split.
  eexists; split; [reflexivity|]. apply orElse_nonempty; discriminate.
Qed.

Section Controller.
Context {W : Type} {T : Transport W}.

(** An iteration whose probe is not classified goes round again, at
    once, with the probe's error or the ambiguity message. *)
Lemma attempts_continue config mxServer email domain remaining attempt lastError
    (w w1 w2 : W) result :
  testConnection mxServer w = (Ok tt, w1) ->
  Smtp.verifyMailbox mxServer email domain (Some config) w1 = (Ok result, w2) ->
  classify config result = None ->
  attempts config mxServer email domain (S remaining) attempt lastError w
  = attempts config mxServer email domain remaining (S attempt)
      (Some (orElse (error result) "Ambiguous server response")) w2.
Proof.
  intros Hconn Hprobe Hclass. simpl.
  unfold bind at 1, attemptOnce, tryCatch, bind.
  now rewrite Hconn, Hprobe, Hclass.
Qed.

(** An iteration whose connection test throws backs off, unless it is the
    last one, and goes round again with the message thrown. *)
Lemma attempts_unreachable config mxServer email domain remaining attempt lastError
    (w w1 : W) msg :
  testConnection mxServer w = (Thrown msg, w1) ->
  attempts config mxServer email domain (S remaining) attempt lastError w
  = attempts config mxServer email domain remaining (S attempt) (Some msg)
      (if (attempt <? retryAttempts config - 1)%nat then sleep 1000 w1 else w1).
Proof.
  intros Hconn. simpl.
  unfold bind at 1, attemptOnce, tryCatch, bind. rewrite Hconn.
  destruct (attempt <? retryAttempts config - 1)%nat; reflexivity.
Qed.

(** A host whose connection test throws at every attempt: every attempt
    is made, with a backoff between two of them. *)
Lemma attempts_all_unreachable config mxServer email domain msg :
  forall remaining attempt lastError (w : W),
    (forall k, (k <= remaining)%nat ->
       testConnection mxServer (iterate k (sleep 1000) w)
       = (Thrown msg, iterate k (sleep 1000) w)) ->
    (attempt + S remaining = retryAttempts config)%nat ->
    attempts config mxServer email domain (S remaining) attempt lastError w
    = (Ok (exhausted (Some msg)), iterate remaining (sleep 1000) w).
Proof.
  induction remaining as [|remaining IH]; intros attempt lastError w Hdown Hn.
  - erewrite attempts_unreachable; [|apply (Hdown 0%nat); lia].
    replace (attempt <? retryAttempts config - 1)%nat with false
      by (symmetry; apply Nat.ltb_ge; lia).
    reflexivity.
  - erewrite attempts_unreachable; [|apply (Hdown 0%nat); lia].
    replace (attempt <? retryAttempts config - 1)%nat with true
      by (symmetry; apply Nat.ltb_lt; lia).
    simpl iterate. rewrite IH; [reflexivity| |lia].
    intros k Hk. apply (Hdown (S k)). lia.
Qed.

Variable pends : Prop.
Hypothesis handshake : may pends (tlsConnect (W := W)) (fun _ => True).

Lemma attemptOnce_shaped config mxServer email domain attempt :
  must pends (attemptOnce config mxServer email domain attempt)
       (fun step => match step with
                    | Return r => outcomeShaped config r
                    | Continue _ => True
                    end).
Proof.
  apply must_tryCatch.
  - eapply may_bind; [apply may_settling|]. intros _ _.
    eapply may_bind; [apply must_may, SessionFacts.verifyMailbox_must, handshake|].
    intros result _.
    destruct (classify config result) as [decisive|] eqn:E; apply may_ret; [|exact I].
    now apply classify_shaped in E.
  - intros msg. eapply must_bind with (Q := fun _ => True).
    + destruct (attempt <? _)%nat; [now apply must_effect | now apply must_ret].
    + intros _ _. now apply must_ret.
Qed.

(** The loop never throws, and what it returns is well formed. *)
Lemma attempts_shaped config mxServer email domain remaining :
  forall attempt lastError,
    must pends (attempts config mxServer email domain remaining attempt lastError)
         (outcomeShaped config).
Proof.
  induction remaining as [|remaining IH]; intros attempt lastError; simpl.
  - apply must_ret, exhausted_shaped.
  - eapply must_bind; [apply attemptOnce_shaped|].
    intros [r|msg] Hstep; [now apply must_ret | apply IH].
Qed.

End Controller.

(** The policies the resolver can return. *)
Lemma resolved_policy_cases domain :
  getProviderConfig domain = genericConfig \/
  exists entry, In entry PROVIDERS /\ getProviderConfig domain = withProvider entry.
Proof.
  unfold getProviderConfig.
  destruct (find (fun entry => includesStr _ _) PROVIDERS) as [entry|] eqn:E1.
  - apply find_some in E1 as [Hin _]. right; eauto.
  - destruct (find (fun entry => existsb _ _) PROVIDERS) as [entry|] eqn:E2.
    + apply find_some in E2 as [Hin _]. right; eauto.
    + now left.
Qed.

End OutcomeFacts.

(* ================================================================== *)
(** * The anatomy of the bulk stream *)
(* ================================================================== *)

Module StreamFacts.
Import Js Async Data Collab AsyncFacts Bulk Shape.
Local Open Scope string_scope.
Local Open Scope list_scope.

Lemma batches_app a b : batches (a ++ b) = (batches a ++ batches b)%list.
Proof.
  induction a as [|e a IH]; simpl; [reflexivity|].
  destruct e; simpl; now rewrite ?IH.
Qed.

Lemma failed_rowShaped record why : why <> "" -> rowShaped (failedRecord record why).
Proof.
  intros Hw. unfold rowShaped; simpl.
  repeat split; try discriminate; auto.
Qed.

(** The row made from an audited result. *)
Lemma audited_rowShaped input r record :
  audited input r ->
  rowShaped {| source := record;
               validation_result := if valid r then "Valid" else "Invalid";
               validation_reason := orElse (Some (reason r)) "Unknown validation status";
               mx_check := mx (checks r);
               dns_check := dns (checks r);
               spf_check := spf (checks r);
               mailbox_check := mailbox (checks r);
               smtp_check := smtp (checks r) |}.
Proof.
  intros (_ & (st & Hst) & _).
  destruct r as [e v c d rsn]; unfold rowShaped; simpl in *.
  destruct st; simpl in Hst.
  - destruct Hst as (-> & -> & ->); simpl. repeat split; try discriminate; auto.
  - destruct Hst as (-> & -> & [->| ->]); simpl; repeat split; try discriminate; auto.
  - destruct Hst as (-> & -> & ->); simpl. repeat split; try discriminate; auto.
  - destruct Hst as ((sp & sm & ->) & -> & ->); simpl. repeat split; try discriminate; auto.
  - destruct Hst as ((sp & ->) & -> & ->); simpl. repeat split; try discriminate; auto.
Qed.

Section Rows.
Context {W : Type} {R : Resolver W} {T : Transport W}.
Variable pends : Prop.

Hypothesis probe : forall mxServer address domain config,
  may pends (Providers.performSMTPCheck (W := W) mxServer address domain config)
      (fun _ => True).

(** The function mapped over a chunk never throws and keeps the record. *)
Lemma processRecord_shaped record :
  must pends (processRecord record) (fun a => source a = record /\ rowShaped a).
Proof.
  unfold processRecord. apply must_tryCatch.
  - destruct (emailOf record) as [address|].
    + eapply may_bind.
      * apply must_may, (AuditFacts.validateEmail_audited probe (JsString address)).
      * intros r Hr. apply may_ret. split; [reflexivity|].
        now apply audited_rowShaped with (input := JsString address).
    + apply may_ret. split; [reflexivity|]. apply failed_rowShaped; discriminate.
  - intros msg. apply must_ret. split; [reflexivity|].
    apply failed_rowShaped. discriminate.
Qed.

Lemma processChunk_shaped records :
  must pends (processChunk records)
       (fun results => map source results = records /\ Forall rowShaped results).
Proof.
  induction records as [|record rest IH]; simpl.
  - apply must_ret. split; constructor.
  - eapply must_bind; [apply processRecord_shaped|]. intros a [Hsrc Hrow].
    eapply must_bind; [exact IH|]. intros others [Hsrcs Hrows].
    apply must_ret. split; [simpl; now rewrite Hsrc, Hsrcs | now constructor].
Qed.

End Rows.

Section Route.
Context {W : Type} {R : Resolver W} {T : Transport W}.

(** The TLS handshake settles in every state of the world. *)
Hypothesis settles : forall w0 : W, fst (tlsConnect w0) <> Pending.

Lemma processChunk_returns records (w : W) :
  exists results w',
    processChunk records w = (Ok results, w') /\
    map source results = records /\ Forall rowShaped results.
Proof.
  assert (Hhs : may False (tlsConnect (W := W)) (fun _ => True)).
  { intros w0. specialize (settles w0). destruct (fst (tlsConnect w0)); auto. }
  assert (Hprobe : forall mxServer address domain config,
            may False (Providers.performSMTPCheck (W := W) mxServer address domain config)
                (fun _ => True)).
  { intros. apply must_may, ControllerFacts.performSMTPCheck_must, Hhs. }
  destruct (must_returns (processChunk_shaped Hprobe records) w) as (results & w' & E & H).
  now exists results, w'.
Qed.

Lemma onData_orderly total headers done (st : Pass W) record :
  (List.length done < total)%nat ->
  orderly total headers done st ->
  orderly total headers (done ++ [record]) (onData total st record).
Proof.
  intros Hroom (frames & Hw & Hprog & Hstall & Hend & Hlen & Hdone & Hcount & Hrows
                & Hnd & Hbound).
  unfold onData. rewrite Hstall.
  assert (Hchunk : List.length (currentChunk st ++ [record]) =
                   S (List.length (currentChunk st)))
    by (rewrite length_app; simpl; lia).
  destruct (CHUNK_SIZE <=? _)%nat eqn:Hfullchunk.
  - apply Nat.leb_le in Hfullchunk.
    unfold dataStart; cbn [currentChunk world].
    destruct (processChunk_returns (currentChunk st ++ [record]) (world st))
      as (results & w' & E & Hsrc & Hrow).
    rewrite E. unfold dataFinish, inWorld; cbn [currentChunk processedCount written ended
                                                  stalled world].
    assert (Hres : List.length results = S (List.length (currentChunk st))).
    { rewrite <- (length_map source), Hsrc. exact Hchunk. }
    assert (Hdone' : (List.length (List.concat (batches (events frames)))
                      + List.length (currentChunk st) = List.length done)%nat).
    { rewrite <- Hdone, length_app, length_map. reflexivity. }
    assert (Hmono : (percent (processedCount st) total
                     <= percent (processedCount st + List.length results) total)%Q).
    { apply BulkFacts.percent_mono; lia. }
    exists (frames ++ [DataFrame (Progress (percent (processedCount st + List.length results)
                                                     total) results);
                       CommentFrame "keepalive"]).
    rewrite Hw, BulkFacts.events_app; simpl.
    rewrite batches_app, BulkFacts.percentages_app, concat_app, map_app; simpl.
    rewrite !app_nil_r.
    split; [reflexivity|].
    split; [rewrite forallb_app, Hprog; reflexivity|].
    split; [reflexivity|]. split; [exact Hend|].
    split; [unfold CHUNK_SIZE; lia|].
    split; [now rewrite Hsrc, app_assoc, Hdone|].
    split; [rewrite length_app, Hcount; reflexivity|].
    split; [apply Forall_app; split; [exact Hrows | now repeat constructor]|].
    split.
    + apply BulkFacts.nonDecreasing_snoc; [exact Hnd|].
      eapply BulkFacts.Forall_le_trans; [exact Hmono | exact Hbound].
    + apply Forall_app; split.
      * eapply BulkFacts.Forall_le_trans; [exact Hmono | exact Hbound].
      * repeat constructor. apply Qle_refl.
  - apply Nat.leb_gt in Hfullchunk.
    exists frames; unfold dataStart; cbn [currentChunk processedCount written ended
                                            stalled world].
    split; [exact Hw|]. split; [exact Hprog|].
    split; [exact Hstall|]. split; [exact Hend|].
    split; [exact Hfullchunk|].
    split; [now rewrite app_assoc, Hdone|].
    now repeat split.
Qed.

Lemma pass_orderly total headers records : forall done (st : Pass W),
  (List.length done + List.length records <= total)%nat ->
  orderly total headers done st ->
  orderly total headers (done ++ records) (fold_left (onData total) records st).
Proof.
  induction records as [|record rest IH]; simpl; intros done st Hroom Hst.
  - now rewrite app_nil_r.
  - replace (done ++ record :: rest) with ((done ++ [record]) ++ rest)
      by (now rewrite <- app_assoc).
    apply IH.
    + rewrite length_app; simpl; lia.
    + apply onData_orderly; [lia | exact Hst].
Qed.

(** The ['end'] handler, started in order after all the records. *)
Lemma onEnd_orderly total headers records (st : Pass W) :
  (0 < total)%nat -> List.length records = total ->
  orderly total headers records st ->
  exists middle,
    events (written (onEnd st)) = Init total headers :: middle ++ [Complete] /\
    forallb isProgress middle = true /\
    map source (List.concat (batches middle)) = records /\
    Forall (Forall rowShaped) (batches middle) /\
    nonDecreasing (percentages middle) /\
    Forall (fun q => (q <= 100)%Q) (percentages middle) /\
    ended (onEnd st) = Some (List.length (written (onEnd st))) /\
    processedCount (onEnd st) = total.
Proof.
  intros Ht Htotal (frames & Hw & Hprog & Hstall & Hend & Hlen & Hdone & Hcount & Hrows
                    & Hnd & Hbound).
  assert (Hsum : (processedCount st + List.length (currentChunk st) = total)%nat).
  { rewrite Hcount, <- Htotal, <- Hdone, length_app, length_map. reflexivity. }
  assert (Hle : Forall (fun q => (q <= 100)%Q) (percentages (events frames))).
  { eapply BulkFacts.Forall_le_trans; [|exact Hbound].
    apply BulkFacts.percent_le_100; lia. }
  unfold onEnd. rewrite Hstall.
  destruct (currentChunk st) as [|r rs] eqn:Echunk.
  - exists (events frames). unfold complete;
      cbn [written currentChunk processedCount ended stalled world].
    rewrite BulkFacts.events_app, Hw; simpl.
    rewrite app_nil_r in Hdone. simpl in Hsum.
    split; [reflexivity|]. split; [exact Hprog|]. split; [exact Hdone|].
    split; [exact Hrows|]. split; [exact Hnd|]. split; [exact Hle|].
    split; [rewrite length_app; simpl; f_equal; lia | lia].
  - destruct (processChunk_returns (r :: rs) (world st)) as (results & w' & E & Hsrc & Hrow).
    rewrite E. unfold endFinish, complete, inWorld;
      cbn [written currentChunk processedCount ended stalled world].
    exists (events frames ++ [Progress 100 results]).
    rewrite !BulkFacts.events_app, Hw; simpl.
    rewrite batches_app, BulkFacts.percentages_app, concat_app, map_app; simpl.
    rewrite !app_nil_r.
    assert (Hres : List.length results = List.length (r :: rs))
      by (now rewrite <- (length_map source), Hsrc).
    split; [now rewrite <- app_assoc|].
    split; [rewrite forallb_app, Hprog; reflexivity|].
    split; [now rewrite Hsrc|].
    split; [apply Forall_app; split; [exact Hrows | now repeat constructor]|].
    split; [apply BulkFacts.nonDecreasing_snoc; [exact Hnd | exact Hle]|].
    split; [apply Forall_app; split; [exact Hle | repeat constructor; apply Qle_refl]|].
    split; [rewrite !length_app; simpl; f_equal; lia | lia].
Qed.

(** The whole pass, when ['end'] is emitted after the last handler is
    done. *)
Lemma stream_orderly production schedule first rest (w : W) :
  endEarly schedule = false ->
  let records := first :: rest in
  let pass := validateBulk production schedule records w in
  exists middle,
    events (written pass)
    = Init (List.length records) (keys first ++ validationColumns) :: middle ++ [Complete] /\
    forallb isProgress middle = true /\
    map source (List.concat (batches middle)) = records /\
    Forall (Forall rowShaped) (batches middle) /\
    nonDecreasing (percentages middle) /\
    Forall (fun q => (q <= 100)%Q) (percentages middle) /\
    ended pass = Some (List.length (written pass)) /\
    processedCount pass = List.length records.
Proof.
  intros Hlate records pass. subst pass records. unfold validateBulk.
  cbv beta iota zeta. set (records := first :: rest).
  set (total := List.length records).
  set (headers := (keys first ++ validationColumns)%list).
  set (start := mkPass _ _ _ _ _ _).
  assert (Ht : (0 < total)%nat) by (unfold total, records; simpl; lia).
  assert (Hsplit : records = removelast records ++ [last records first]).
  { apply app_removelast_last. discriminate. }
  assert (Hstart : orderly total headers [] start).
  { exists []; unfold start; simpl. repeat split; auto; try constructor.
    unfold CHUNK_SIZE; lia. }
  assert (Hfront : (List.length (removelast records) < total)%nat).
  { pose proof (f_equal (@List.length _) Hsplit) as Hl.
    rewrite length_app in Hl.
    change (List.length [last records first]) with 1%nat in Hl.
    unfold total. lia. }
  pose proof (@pass_orderly total headers (removelast records) [] start
                (Nat.lt_le_incl _ _ Hfront) Hstart) as Hpass.
  simpl app in Hpass.
  set (st := fold_left (onData total) (removelast records) start) in *.
  assert (Hst : stalled st = false) by (destruct Hpass as (? & _ & _ & H & _); exact H).
  unfold onLast. rewrite Hst, Hlate, andb_false_r.
  apply onEnd_orderly; [exact Ht | reflexivity|].
  rewrite Hsplit at 1. apply onData_orderly; [exact Hfront | exact Hpass].
Qed.

End Route.

End StreamFacts.


(* ================================================================== *)
(** * The anatomy of an accepted address *)
(* ================================================================== *)

Module AddressFacts.
Import Js Regex Format JsFacts RegexFacts FormatFacts Data.
Local Open Scope string_scope.

(** A word of [r+] ends with a word of [r]. *)
Lemma star_last r s :
  lang (Star r) s -> s = "" \/ exists pre t, s = pre ++ t /\ lang r t.
Proof.
  intros H; remember (Star r) as sr eqn:E.
  induction H as [| | | | | |r0 s1 s2 H1 _ H2 IH2]; try discriminate; [now left|].
  injection E as ->. right.
  destruct (IH2 eq_refl) as [->|(pre & t & -> & Ht)].
  - exists "", s1. now rewrite append_nil_r.
  - exists (s1 ++ pre), t. now rewrite append_assoc.
Qed.

Lemma plus_last r s : lang (Plus r) s -> exists pre t, s = pre ++ t /\ lang r t.
Proof.
  unfold Plus; intros H.
  apply lang_cat_inv in H as (s1 & s2 & -> & H1 & H2).
  destruct (star_last H2) as [->|(pre & t & -> & Ht)].
  - exists "", s1. now rewrite append_nil_r.
  - exists (s1 ++ pre), t. now rewrite append_assoc.
Qed.

(** A group [\.[a-zA-Z]{2,}]. *)
Lemma tld_group t :
  lang (Cat (Chr (oneOf ".")) (AtLeast 2 (Chr isAlpha))) t ->
  exists tld, t = String "." tld /\ (2 <= String.length tld)%nat /\
              allChars isAlpha tld = true.
Proof.
  intros H. apply lang_cat_inv in H as (d & tld & -> & Hd & Htld).
  apply lang_chr_inv in Hd as (c & -> & Hc).
  simpl in Hc; rewrite orb_false_r in Hc; apply Ascii.eqb_eq in Hc as ->.
  exists tld; split; [reflexivity|].
  unfold AtLeast in Htld; simpl in Htld.
  apply lang_cat_inv in Htld as (two & more & -> & Htwo & Hmore).
  apply lang_cat_inv in Htwo as (a & rest & -> & Ha & Hrest).
  apply lang_cat_inv in Hrest as (b & e & -> & Hb & He).
  apply lang_eps_inv in He as ->.
  apply lang_chr_inv in Ha as (ca & -> & Hca).
  apply lang_chr_inv in Hb as (cb & -> & Hcb).
  apply star_chr in Hmore. simpl.
  rewrite Hca, Hcb, Hmore. split; [lia | reflexivity].
Qed.

(** The local part starts and ends with a letter or a digit and has only
    characters of the local class. *)
Lemma local_anatomy l :
  lang localRegex l ->
  (exists c rest, l = String c rest /\ isAlnum c = true) /\
  (exists pre c, l = pre ++ String c "" /\ isAlnum c = true) /\
  allChars localChar l = true.
Proof.
  unfold localRegex; intros H.
  apply lang_cat_inv in H as (s1 & s2 & -> & H1 & H2).
  apply lang_chr_inv in H1 as (c & -> & Hc).
  assert (Hlc : localChar c = true) by (unfold localChar; now rewrite Hc).
  apply lang_opt_inv in H2 as [->|H2].
  - split; [now exists c, ""|]. split; [now exists "", c|].
    simpl. now rewrite Hlc.
  - apply lang_cat_inv in H2 as (m & e & -> & Hm & He).
    apply lang_chr_inv in He as (c' & -> & Hc').
    apply upto_chr in Hm as [_ Hm].
    split; [eexists c, _; split; [reflexivity | exact Hc]|].
    split; [exists (String c m), c'; split; [reflexivity | exact Hc']|].
    simpl. rewrite Hlc, allChars_append, Hm; simpl.
    unfold localChar; now rewrite Hc'.
Qed.

(** The domain is a non-empty name, a dot and at least two letters. *)
Lemma domain_anatomy d :
  lang domainRegex d ->
  exists name tld,
    d = name ++ String "." tld /\ name <> "" /\
    (2 <= String.length tld)%nat /\ allChars isAlpha tld = true.
Proof.
  unfold domainRegex; intros H.
  apply lang_cat_inv in H as (s1 & s2 & -> & H1 & H2).
  apply lang_chr_inv in H1 as (c & -> & Hc).
  apply lang_cat_inv in H2 as (label & groups & -> & _ & Hg).
  apply plus_last in Hg as (pre & t & -> & Ht).
  apply tld_group in Ht as (tld & -> & Hlen & Halpha).
  exists (String c (label ++ pre)), tld.
  split; [simpl; now rewrite !append_assoc|].
  split; [discriminate | now split].
Qed.

End AddressFacts.

(* ================================================================== *)
(** * Candidates and policies *)
(* ================================================================== *)

Module PolicyFacts.
Import Js Async Data Collab Providers Smtp.
Local Open Scope string_scope.

(** The candidate identities end with the placeholder and are never
    empty strings. *)
Lemma heloHosts_anatomy host domain config :
  (exists pre, heloHosts host domain config = (pre ++ ["verify.local"])%list) /\
  (forall h, In h (heloHosts host domain config) -> h <> "") /\
  (forall h, In h (heloHosts host domain config) ->
     (exists cfg, config = Some cfg /\ heloHost cfg = Some h) \/
     h = domain \/ h = host \/ h = "verify.local").
Proof.
  unfold heloHosts. split; [|split].
  - set (policy := match config with Some _ => _ | None => _ end).
    change [domain; host; "verify.local"] with ([domain; host] ++ ["verify.local"])%list.
    rewrite app_assoc, filter_app. simpl filter at 2.
    eexists; reflexivity.
  - intros h Hin. apply filter_In in Hin as [_ Ht].
    unfold truthy in Ht. apply negb_true_iff, String.eqb_neq in Ht. exact Ht.
  - intros h Hin. apply filter_In in Hin as [Hin _].
    apply in_app_or in Hin as [Hin|Hin].
    + left. destruct config as [cfg|]; [|contradiction].
      destruct (heloHost cfg) as [h0|] eqn:E; [|contradiction].
      destruct Hin as [<-|[]]. now exists cfg.
    + right. simpl in Hin. intuition auto.
Qed.

Lemma includesStr_In names x : includesStr names x = true <-> In x names.
Proof.
  unfold includesStr; rewrite existsb_exists; split.
  - intros (y & Hin & E); apply String.eqb_eq in E; now subst.
  - intros Hin; exists x; split; [exact Hin | apply String.eqb_refl].
Qed.

(** A registered alias, in any letter case, selects its provider. *)
Lemma alias_selects entry domain :
  In entry PROVIDERS ->
  In (toLowerCase domain) (domains (snd entry)) ->
  getProviderConfig domain = withProvider entry.
Proof.
  intros Hentry Halias. unfold getProviderConfig.
  repeat (destruct Hentry as [<-|Hentry];
          [simpl in Halias;
           repeat (destruct Halias as [<-|Halias]; [reflexivity|]); contradiction|]).
  contradiction.
Qed.

(** The generic policy is the answer exactly when the domain is no
    alias and contains no mail-host pattern. *)
Lemma generic_iff domain :
  provider (getProviderConfig domain) = None <->
  (forall entry, In entry PROVIDERS ->
     ~ In (toLowerCase domain) (domains (snd entry)) /\
     forall pattern, In pattern (mxDomains (snd entry)) ->
                     includes (toLowerCase domain) pattern = false).
Proof.
  unfold getProviderConfig.
  destruct (find (fun entry => includesStr _ _) PROVIDERS) as [e1|] eqn:E1.
  - apply find_some in E1 as [Hin Hm]. apply includesStr_In in Hm.
    split; [destruct e1; discriminate|].
    intros H; destruct (H e1 Hin) as [Hno _]; contradiction.
  - destruct (find (fun entry => existsb _ _) PROVIDERS) as [e2|] eqn:E2.
    + apply find_some in E2 as [Hin Hm]. apply existsb_exists in Hm as (p & Hp & Hinc).
      split; [destruct e2; discriminate|].
      intros H; destruct (H e2 Hin) as [_ Hno]. rewrite (Hno p Hp) in Hinc; discriminate.
    + split; [|reflexivity]. intros _ entry Hin. split.
      * intros Halias. apply includesStr_In in Halias.
        rewrite (find_none _ _ E1 entry Hin) in Halias. discriminate.
      * intros pattern Hp.
        destruct (includes (toLowerCase domain) pattern) eqn:Hinc; [|reflexivity].
        pose proof (find_none _ _ E2 entry Hin) as Hnone. simpl in Hnone.
        assert (Hex : existsb (fun mxDomain => includes (toLowerCase domain) mxDomain)
                              (mxDomains (snd entry)) = true)
          by (apply existsb_exists; eauto).
        rewrite Hex in Hnone; discriminate.
Qed.

(** What holds of every policy the resolver returns. *)
Lemma resolved_policy_facts domain :
  let cfg := getProviderConfig domain in
  (provider cfg = None <-> cfg = genericConfig) /\
  reliable cfg = requireTLS cfg /\
  (reliable cfg = false <-> provider cfg = None) /\
  (tempCodes cfg <> None <-> provider cfg = None) /\
  In 250%Z (acceptCodes cfg) /\
  (2 <= retryAttempts cfg <= 3)%nat /\
  (10000 <= timeout cfg <= 20000)%Z /\
  verifyMailboxFlag cfg = true.
Proof.
  destruct (OutcomeFacts.resolved_policy_cases domain) as [E|(entry & Hin & E)];
    cbv zeta; rewrite E.
  - simpl. repeat split; auto; try discriminate; try lia.
  - repeat (destruct Hin as [<-|Hin];
            [simpl; repeat split; auto; try discriminate; try lia;
             try (intros H; exfalso; now apply H)|]).
    contradiction.
Qed.

End PolicyFacts.

(* ================================================================== *)
(** * The stated properties *)
(* ================================================================== *)

Import Js Regex Async Data Collab Scripted.
Local Open Scope string_scope.

(** C1. For every input address, the result that [validateEmail] returns
    has [valid = format && dns && mx && mailbox]; so any two returned
    results that agree on these four checks agree on [valid], whatever
    their [spf] and [smtp] flags are. *)
Theorem C1_valid_is_conjunction
    (W : Type) (R : Resolver W) (T : Transport W)
    (input : JsValue) (w w' : W) (r : ValidationResult) :
  Email.validateEmail input w = (Ok r, w') ->
  valid r = format (checks r) && dns (checks r) && mx (checks r) && mailbox (checks r) /\
  (forall input2 (w2 w2' : W) r2,
     Email.validateEmail input2 w2 = (Ok r2, w2') ->
     format (checks r2) = format (checks r) -> dns (checks r2) = dns (checks r) ->
     mx (checks r2) = mx (checks r) -> mailbox (checks r2) = mailbox (checks r) ->
     valid r2 = valid r).
Proof.
  intros Hrun.
  assert (Hall : forall i (u u' : W) x,
             Email.validateEmail i u = (Ok x, u') ->
             valid x = Email.verdictChecks (checks x)).
  { intros i u u' x Hx.
    pose proof (PipelineFacts.validateEmail_safe i u) as Hm.
    rewrite Hx in Hm. exact (proj1 Hm). }
  split.
  - exact (Hall _ _ _ _ Hrun).
  - intros input2 w2 w2' r2 Hrun2 Hf Hd Hm Hb.
    rewrite (Hall _ _ _ _ Hrun), (Hall _ _ _ _ Hrun2).
    unfold Email.verdictChecks. now rewrite Hf, Hd, Hm, Hb.
Qed.

Lemma C1_valid_is_conjunction_witness :
  let r := Scripted.valueOf
             (Email.validateEmail (JsString "user@example.org")
                (Scripted.net true (Scripted.plainSession "550 5.1.1 no such user")))
             (Email.initialResult JsNull) in
  smtp (checks r) = true /\ valid r = false /\
  valid r = format (checks r) && dns (checks r) && mx (checks r) && mailbox (checks r).
Proof.
  split; [vm_compute; reflexivity|]. split; [vm_compute; reflexivity|].
  eapply (fun w' H => proj1 (@C1_valid_is_conjunction Scripted.Net _ _
            (JsString "user@example.org")
            (Scripted.net true (Scripted.plainSession "550 5.1.1 no such user")) w' _ H)).
  vm_compute. reflexivity.
Defined.

(** C2. On every input value, a string, the empty string or something
    that is not a string, and whatever the resolver and the transport do,
    [validateEmail] never throws: a failure of a collaborator does not
    escape it.  It ends by returning a result provided the TLS handshake
    settles in every state of the world.  But it does not always end:
    [upgradeToTLS] sets no timer, unlike [connect] and [command], so
    against a mail server that advertises STARTTLS, answers it with 220 and
    then falls silent, the validation of [user@example.org] stays pending
    for ever, after EHLO and STARTTLS have been sent. *)
Theorem C2_handshake_without_timer
    (W : Type) (R : Resolver W) (T : Transport W) (input : JsValue) (w : W) :
  (forall msg w', Email.validateEmail input w <> (Thrown msg, w')) /\
  ((forall w0 : W, fst (tlsConnect w0) <> Pending) ->
   exists r w', Email.validateEmail input w = (Ok r, w')) /\
  (let run := @Email.validateEmail Net resolver silentTransport
                (JsString "user@example.org") (net true (tlsSession "250 2.1.5 Ok")) in
   fst run = Pending /\
   sent (snd run) = ["EHLO example.org" ++ CRLF; "STARTTLS" ++ CRLF]).
Proof.
  split; [|split].
  - intros msg w' E.
    pose proof (PipelineFacts.validateEmail_safe input w) as Hm.
    now rewrite E in Hm.
  - intros Hsettles.
    assert (Hhs : may False (tlsConnect (W := W)) (fun _ => True)).
    { intros w0. specialize (Hsettles w0).
      destruct (fst (tlsConnect w0)); auto. }
    assert (Hprobe : forall mxServer address domain config,
              may False (Providers.performSMTPCheck (W := W) mxServer address domain config)
                  (fun _ => True)).
    { intros. apply AsyncFacts.must_may, ControllerFacts.performSMTPCheck_must, Hhs. }
    destruct (AsyncFacts.must_returns
                (PipelineFacts.validateEmail_must Hprobe input) w)
      as (r & w' & E & _).
    now exists r, w'.
  - vm_compute. split; reflexivity.
Qed.

Lemma C2_handshake_without_timer_witness :
  exists r w',
    Email.validateEmail (JsString "user@example.org")
      (net true (tlsSession "250 2.1.5 Ok")) = (Ok r, w').
Proof.
  apply (proj1 (proj2 (@C2_handshake_without_timer Net resolver transport
                         (JsString "user@example.org")
                         (net true (tlsSession "250 2.1.5 Ok"))))).
  intros w0. simpl. destruct (tlsWorks w0); discriminate.
Defined.

(** C3. The format stage does not enforce the stated cap of 64 on the
    local part.  Every address [validateEmailFormat] accepts splits into
    exactly two pieces with a local part of at most 63 characters, so the
    test [localPart.length > 64] never fires; a local part of 63 characters
    is accepted, one of 64 is rejected, and so is one of 65, both with the
    reason [Invalid email format]. *)
Theorem C3_local_part_cap_is_63 :
  (forall address,
     Email.validateEmailFormat (JsString address) = true ->
     exists l d, Js.split "@" address = [l; d] /\ (String.length l <= 63)%nat) /\
  Email.validateEmailFormat
    (JsString (Scripted.repeatChar "a" 63 ++ "@example.com")) = true /\
  (forall (W : Type) (R : Resolver W) (T : Transport W) (w : W),
     Email.validateEmail (JsString (Scripted.repeatChar "a" 64 ++ "@example.com")) w
     = (Ok (Email.setReason
              (Email.initialResult (JsString (Scripted.repeatChar "a" 64 ++ "@example.com")))
              "Invalid email format"), w) /\
     Email.validateEmail (JsString (Scripted.repeatChar "a" 65 ++ "@example.com")) w
     = (Ok (Email.setReason
              (Email.initialResult (JsString (Scripted.repeatChar "a" 65 ++ "@example.com")))
              "Invalid email format"), w)).
Proof.
  split; [|split].
  - intros address H. simpl in H.
    destruct (String.eqb address ""); [discriminate|].
    destruct (FormatFacts.accepted_split _ H) as (l & d & Hs & Hl & _).
    exists l, d; split; [exact Hs|]. apply FormatFacts.local_length in Hl; lia.
  - vm_compute; reflexivity.
  - intros W R T w.
    assert (H64 : Email.validateEmailFormat
                    (JsString (Scripted.repeatChar "a" 64 ++ "@example.com")) = false)
      by (vm_compute; reflexivity).
    assert (H65 : Email.validateEmailFormat
                    (JsString (Scripted.repeatChar "a" 65 ++ "@example.com")) = false)
      by (vm_compute; reflexivity).
    unfold Email.validateEmail. rewrite H64, H65. split; reflexivity.
Qed.

Lemma C3_local_part_cap_is_63_witness :
  exists l d, Js.split "@" "user@example.com" = [l; d] /\ (String.length l <= 63)%nat.
Proof.
  apply (proj1 C3_local_part_cap_is_63 "user@example.com").
  vm_compute. reflexivity.
Defined.

(** C4. The reader of [command] does not wait for a line to be
    terminated.  Let the first delivery be a string of ASCII characters
    that starts with a three-digit code followed by a space or by
    nothing, and that holds no line terminator, so that no line of the
    buffer is complete yet.  The reader resolves from that string alone,
    whatever is delivered afterwards: what comes later is left out of the
    message and of [fullResponse].  So the first three characters of the
    continuation line [250-STARTTLS] are taken for the final reply [250]
    of a response whose last line has not arrived, and the reply [250 ok]
    cut after [o] gives the message [o]. *)
Theorem C4_unterminated_line_resolves (line : string) (later : list string) :
  Smtp.plainLine line = true ->
  Smtp.completesReply line = true ->
  Js.includes line Js.CRLF = false /\
  Smtp.deliver (line :: later)
  = Smtp.Resolved {| code := Js.parseInt (String.substring 0 3 line);
                     message := Js.dropChars 4 line;
                     fullResponse := line |} /\
  Smtp.deliver ["250"; "-STARTTLS" ++ Js.CRLF ++ "250 SIZE 1000" ++ Js.CRLF]
  = Smtp.Resolved {| code := 250; message := ""; fullResponse := "250" |} /\
  Smtp.deliver ["250 o"; "k" ++ Js.CRLF]
  = Smtp.Resolved {| code := 250; message := "o"; fullResponse := "250 o" |}.
Proof.
  intros Hplain Hcomplete. split; [|split; [|split]].
  - apply FramingFacts.no_terminator, FramingFacts.plainLine_no_cr, Hplain.
  - now apply FramingFacts.unterminated_resolves.
  - vm_compute. reflexivity.
  - vm_compute. reflexivity.
Qed.

Lemma C4_unterminated_line_resolves_witness :
  Js.includes "550 5.1.1 no such us" Js.CRLF = false /\
  Smtp.deliver ["550 5.1.1 no such us"; "er" ++ Js.CRLF]
  = Smtp.Resolved {| code := 550; message := "5.1.1 no such us";
                     fullResponse := "550 5.1.1 no such us" |}.
Proof.
  split.
  - apply (@C4_unterminated_line_resolves "550 5.1.1 no such us" ["er" ++ Js.CRLF]).
    + reflexivity.
    + reflexivity.
  - apply (proj1 (proj2 (@C4_unterminated_line_resolves "550 5.1.1 no such us"
                           ["er" ++ Js.CRLF] eq_refl eq_refl))).
Defined.

(** C5. Whatever the policy, a probe whose negotiation reaches the
    recipient step and whose RCPT TO command gets a reply makes
    [verifyMailbox] return [success = true] with [mailboxExists] true
    exactly when the reply code is 250; and in no run at all does
    [verifyMailbox] report [mailboxExists = true] without [success = true]
    and reply code 250. *)
Theorem C5_mailbox_iff_250
    (W : Type) (T : Transport W)
    (host email domain : string) (config : option ProviderConfig) (w : W) :
  (forall cl1 rcptResponse cl2,
     Smtp.negotiate host domain config (Smtp.newClient config w) = (Ok tt, cl1) ->
     Smtp.rcpt email cl1 = (Ok rcptResponse, cl2) ->
     Smtp.verifyMailbox host email domain config w =
     (Ok {| success := true;
            mailboxExists := (code rcptResponse =? 250)%Z;
            supportsTLS := Some (Smtp.tlsSeen cl2);
            replyCode := Some (code rcptResponse);
            replyMessage := Some (message rcptResponse);
            error := None;
            protected := None |},
      socketCleanup (Smtp.socket cl2))) /\
  (forall r w',
     Smtp.verifyMailbox host email domain config w = (Ok r, w') ->
     mailboxExists r = true ->
     success r = true /\ replyCode r = Some 250%Z).
Proof.
  split.
  - intros cl1 rcptResponse cl2 Hneg Hrcpt.
    now apply SessionFacts.verifyMailbox_completed with (cl1 := cl1).
  - intros r w'. apply SessionFacts.verifyMailbox_mailbox.
Qed.

Lemma C5_mailbox_iff_250_witness :
  fst (Smtp.verifyMailbox "mx.example.org" "user@example.org" "example.org"
         (Some Providers.genericConfig) (net true (plainSession "251 will forward")))
  = Ok {| success := true;
          mailboxExists := false;
          supportsTLS := Some false;
          replyCode := Some 251%Z;
          replyMessage := Some "will forward";
          error := None;
          protected := None |} /\
  (let r := valueOf
              (Smtp.verifyMailbox "mx.example.org" "user@example.org" "example.org"
                 (Some gmailConfig) (net true (plainSession "250 2.1.5 Ok")))
              (Providers.exhausted None) in
   success r = true /\ replyCode r = Some 250%Z).
Proof.
  split.
  - erewrite (proj1 (@C5_mailbox_iff_250 Net _ "mx.example.org" "user@example.org"
                       "example.org" (Some Providers.genericConfig)
                       (net true (plainSession "251 will forward")))); cycle 1.
    + vm_compute. reflexivity.
    + vm_compute. reflexivity.
    + vm_compute. reflexivity.
  - eapply (fun w' H => proj2 (@C5_mailbox_iff_250 Net _ "mx.example.org"
                                 "user@example.org" "example.org" (Some gmailConfig)
                                 (net true (plainSession "250 2.1.5 Ok"))) _ w' H).
    + vm_compute. reflexivity.
    + vm_compute. reflexivity.
Defined.

(** C8. Let the server have advertised STARTTLS, under a policy with
    [requireTLS = true].  The attempt is aborted with [Required TLS
    connection failed] only when the upgrade fails by a throw: the
    STARTTLS command is rejected, or it is answered with 220 and the
    handshake is rejected.  When the server refuses the upgrade by
    answering STARTTLS with a code other than 220, nothing is thrown and
    [requireTLS] is never looked at: the STARTTLS step ends normally with
    the session unencrypted, and once the sender negotiation and the
    recipient probe complete, [verifyMailbox] reports a successful probe
    made in plain text.  Under a policy with [requireTLS = false] an
    upgrade that fails either way leaves the session unencrypted and the
    STARTTLS step ends normally. *)
Theorem C8_refused_upgrade_is_not_aborted
    (W : Type) (T : Transport W)
    (host email domain : string) (cfg : ProviderConfig) (w : W)
    (ehloResponse : Response) (cl1 : Smtp.Client) :
  Smtp.hello host domain (Some cfg) (Smtp.newClient (Some cfg) w) = (Ok ehloResponse, cl1) ->
  Smtp.advertisesStartTls ehloResponse = true ->
  (forall tlsCmd cl2,
     Smtp.command (Some "STARTTLS") cl1 = (Ok tlsCmd, cl2) ->
     code tlsCmd <> 220%Z ->
     Smtp.startTls host domain (Some cfg) ehloResponse cl1 = (Ok tt, cl2) /\
     Smtp.tlsSeen cl2 = false /\
     forall cl3 rcptResponse cl4,
       Smtp.sender domain (Some cfg) cl2 = (Ok tt, cl3) ->
       Smtp.rcpt email cl3 = (Ok rcptResponse, cl4) ->
       Smtp.verifyMailbox host email domain (Some cfg) w =
       (Ok {| success := true;
              mailboxExists := (code rcptResponse =? 250)%Z;
              supportsTLS := Some false;
              replyCode := Some (code rcptResponse);
              replyMessage := Some (message rcptResponse);
              error := None;
              protected := None |},
        socketCleanup (Smtp.socket cl4))) /\
  (forall msg cl3,
     Smtp.upgradeFails cl1 msg cl3 ->
     Smtp.tlsSeen cl3 = false /\
     (requireTLS cfg = true ->
      Smtp.verifyMailbox host email domain (Some cfg) w =
      (Ok {| success := false;
             mailboxExists := false;
             supportsTLS := Some false;
             replyCode := None;
             replyMessage := None;
             error := Some "Required TLS connection failed";
             protected := None |},
       socketCleanup (Smtp.socket cl3))) /\
     (requireTLS cfg = false ->
      Smtp.startTls host domain (Some cfg) ehloResponse cl1 = (Ok tt, cl3))).
Proof.
  intros Hhello Hadv.
  assert (Hflag1 : Smtp.tlsSeen cl1 = false).
  { pose proof (SessionFacts.keeps_hello host domain (Some cfg)
                  (Smtp.newClient (Some cfg) w)) as H1.
    now rewrite Hhello in H1. }
  split.
  - intros tlsCmd cl2 Hcmd Hcode.
    assert (Hstep : Smtp.startTls host domain (Some cfg) ehloResponse cl1 = (Ok tt, cl2)).
    { unfold Smtp.startTls, tryCatch, bind. rewrite Hadv, Hcmd.
      apply Z.eqb_neq in Hcode. now rewrite Hcode. }
    assert (Hflag2 : Smtp.tlsSeen cl2 = false).
    { pose proof (SessionFacts.keeps_command (Some "STARTTLS") cl1) as H2.
      rewrite Hcmd in H2; simpl in H2. congruence. }
    split; [exact Hstep|]. split; [exact Hflag2|].
    intros cl3 rcptResponse cl4 Hsender Hrcpt.
    assert (Hflag4 : Smtp.tlsSeen cl4 = false).
    { pose proof (SessionFacts.keeps_sender domain (Some cfg) cl2) as H3.
      pose proof (SessionFacts.keeps_command (Some ("RCPT TO:<" ++ email ++ ">")) cl3) as H4.
      unfold Smtp.rcpt in Hrcpt. rewrite Hsender in H3; rewrite Hrcpt in H4.
      simpl in *. congruence. }
    erewrite SessionFacts.verifyMailbox_completed with (cl1 := cl3) (cl2 := cl4);
      [now rewrite Hflag4 | | exact Hrcpt].
    unfold Smtp.negotiate, bind. now rewrite Hhello, Hstep.
  - intros msg cl3 Hfail.
    assert (Hflag : Smtp.tlsSeen cl3 = false).
    { inversion Hfail as [cl m cl' Hcmd|cl tlsCmd cl2 m cl' Hcmd Hcode Hup]; subst.
      - pose proof (SessionFacts.keeps_command (Some "STARTTLS") cl1) as H2.
        rewrite Hcmd in H2; simpl in H2. congruence.
      - pose proof (SessionFacts.keeps_command (Some "STARTTLS") cl1) as H2.
        pose proof (SessionFacts.keeps_onSocket tlsConnect cl2) as H3.
        unfold Smtp.upgradeToTLS in Hup.
        rewrite Hcmd in H2; rewrite Hup in H3; simpl in *. congruence. }
    assert (Hstep : forall b, requireTLS cfg = b ->
              Smtp.startTls host domain (Some cfg) ehloResponse cl1 =
              (if b then (Thrown "Required TLS connection failed", cl3) else (Ok tt, cl3))).
    { intros b Hb. unfold Smtp.startTls, tryCatch, bind. rewrite Hadv.
      inversion Hfail as [cl m cl' Hcmd|cl tlsCmd cl2 m cl' Hcmd Hcode Hup]; subst;
        rewrite Hcmd; simpl.
      - now destruct (requireTLS cfg).
      - rewrite Hcode; simpl. rewrite Hup. now destruct (requireTLS cfg). }
    split; [exact Hflag|]. split; intros Hreq.
    + erewrite SessionFacts.verifyMailbox_caught; [now rewrite Hflag|].
      unfold Smtp.negotiate, bind. now rewrite Hhello, (Hstep true Hreq).
    + exact (Hstep false Hreq).
Qed.

Lemma C8_refused_upgrade_is_not_aborted_witness :
  fst (Smtp.verifyMailbox "mx.example.org" "user@gmail.com" "gmail.com"
         (Some gmailConfig)
         (net true [reply "220 mx.example.org ESMTP";
                    ["250-mx.example.org" ++ Js.CRLF ++ "250-STARTTLS" ++ Js.CRLF;
                     "250 SIZE 1000" ++ Js.CRLF];
                    reply "454 4.7.0 TLS not available";
                    reply "250 2.1.0 Ok";
                    reply "250 2.1.5 Ok"]))
  = Ok {| success := true;
          mailboxExists := true;
          supportsTLS := Some false;
          replyCode := Some 250%Z;
          replyMessage := Some "2.1.5 Ok";
          error := None;
          protected := None |} /\
  fst (Smtp.verifyMailbox "mx.example.org" "user@gmail.com" "gmail.com"
         (Some gmailConfig) (net false (tlsSession "250 2.1.5 Ok")))
  = Ok {| success := false;
          mailboxExists := false;
          supportsTLS := Some false;
          replyCode := None;
          replyMessage := None;
          error := Some "Required TLS connection failed";
          protected := None |}.
Proof.
  split.
  - erewrite (fun e c1 H1 H2 t c2 H3 H4 c3 r c4 H5 H6 =>
                proj2 (proj2 (proj1 (@C8_refused_upgrade_is_not_aborted Net _
                  "mx.example.org" "user@gmail.com" "gmail.com" gmailConfig
                  (net true [reply "220 mx.example.org ESMTP";
                             ["250-mx.example.org" ++ Js.CRLF ++ "250-STARTTLS" ++ Js.CRLF;
                              "250 SIZE 1000" ++ Js.CRLF];
                             reply "454 4.7.0 TLS not available";
                             reply "250 2.1.0 Ok";
                             reply "250 2.1.5 Ok"])
                  e c1 H1 H2) t c2 H3 H4)) c3 r c4 H5 H6); cycle 1.
    + vm_compute. reflexivity.
    + vm_compute. reflexivity.
    + vm_compute. reflexivity.
    + vm_compute. discriminate.
    + vm_compute. reflexivity.
    + vm_compute. reflexivity.
    + vm_compute. reflexivity.
  - erewrite (fun e c1 H1 H2 m c3 H3 H4 =>
                proj1 (proj2 (proj2 (@C8_refused_upgrade_is_not_aborted Net _
                  "mx.example.org" "user@gmail.com" "gmail.com" gmailConfig
                  (net false (tlsSession "250 2.1.5 Ok")) e c1 H1 H2) m c3 H3)) H4);
      cycle 1.
    + vm_compute. reflexivity.
    + vm_compute. reflexivity.
    + eapply Smtp.handshakeRejected; vm_compute; reflexivity.
    + vm_compute. reflexivity.
    + vm_compute. reflexivity.
Defined.

(** C6, as stated, fails: under a policy whose reject codes overlap its
    accept codes, a completed probe with reply code 250, which is one of
    the reject codes, makes the controller return [mailboxExists = true]. *)
Lemma C6_reject_code_counterexample :
  In 250%Z (rejectCodes overlappingConfig) /\
  fst (Smtp.verifyMailbox "mx.example.org" "user@example.org" "example.org"
         (Some overlappingConfig) (net true (plainSession "250 2.1.5 Ok")))
  = Ok {| success := true;
          mailboxExists := true;
          supportsTLS := Some false;
          replyCode := Some 250%Z;
          replyMessage := Some "2.1.5 Ok";
          error := None;
          protected := None |} /\
  fst (Providers.performSMTPCheck "mx.example.org" "user@example.org" "example.org"
         (Some overlappingConfig) (net true (plainSession "250 2.1.5 Ok")))
  = Ok {| success := true;
          mailboxExists := true;
          supportsTLS := Some false;
          replyCode := Some 250%Z;
          replyMessage := Some "2.1.5 Ok";
          error := None;
          protected := None |}.
Proof.
  split; [now left|]. split; vm_compute; reflexivity.
Qed.

(** C6, amended.  For every policy, in whichever iteration of the retry
    loop it happens: when the connection test passes and the probe
    completes with a reply code that is among the policy's reject codes and
    not among its accept codes, the controller returns [success = true,
    mailboxExists = false] with that code, and the world it leaves is the
    one the probe left, so nothing more is attempted against the host.  In
    particular [performSMTPCheck] does so when this is the first attempt. *)
Theorem C6_reject_is_decisive
    (W : Type) (T : Transport W)
    (cfg : ProviderConfig) (mxServer email domain : string)
    (remaining attempt : nat) (lastError : option string)
    (w w1 w2 : W) (result : SmtpResult) (c : Z) :
  testConnection mxServer w = (Ok tt, w1) ->
  Smtp.verifyMailbox mxServer email domain (Some cfg) w1 = (Ok result, w2) ->
  success result = true ->
  replyCode result = Some c ->
  In c (rejectCodes cfg) ->
  ~ In c (acceptCodes cfg) ->
  Providers.attempts cfg mxServer email domain (S remaining) attempt lastError w
  = (Ok {| success := true;
           mailboxExists := false;
           supportsTLS := supportsTLS result;
           replyCode := Some c;
           replyMessage := replyMessage result;
           error := None;
           protected := None |}, w2) /\
  (retryAttempts cfg = S remaining ->
   Providers.performSMTPCheck mxServer email domain (Some cfg) w
   = (Ok {| success := true;
            mailboxExists := false;
            supportsTLS := supportsTLS result;
            replyCode := Some c;
            replyMessage := replyMessage result;
            error := None;
            protected := None |}, w2)).
Proof.
  intros Hconn Hprobe Hs Hc Hr Ha.
  pose proof (ControllerFacts.classify_reject cfg result Hs Hc Hr Ha) as Hclass.
  split.
  - eapply ControllerFacts.attempts_decisive; eauto.
  - intros Hn. unfold Providers.performSMTPCheck. rewrite Hn.
    eapply ControllerFacts.attempts_decisive; eauto.
Qed.

Lemma C6_reject_is_decisive_witness :
  Providers.performSMTPCheck "mx.example.org" "user@example.org" "example.org"
    (Some Providers.genericConfig) (net true (plainSession "550 5.1.1 no such user"))
  = (Ok {| success := true;
           mailboxExists := false;
           supportsTLS := Some false;
           replyCode := Some 550%Z;
           replyMessage := Some "5.1.1 no such user";
           error := None;
           protected := None |},
     snd (Smtp.verifyMailbox "mx.example.org" "user@example.org" "example.org"
            (Some Providers.genericConfig)
            (net true (plainSession "550 5.1.1 no such user")))).
Proof.
  refine (proj2 (@C6_reject_is_decisive Net _ Providers.genericConfig
                   "mx.example.org" "user@example.org" "example.org" 1 0 None
                   (net true (plainSession "550 5.1.1 no such user"))
                   (net true (plainSession "550 5.1.1 no such user"))
                   _
                   {| success := true; mailboxExists := false; supportsTLS := Some false;
                      replyCode := Some 550%Z; replyMessage := Some "5.1.1 no such user";
                      error := None; protected := None |}
                   550%Z _ _ _ _ _ _) _).
  - vm_compute. reflexivity.
  - vm_compute. reflexivity.
  - reflexivity.
  - reflexivity.
  - simpl. tauto.
  - simpl. intros [H|[H|[]]]; discriminate H.
  - reflexivity.
Defined.

(** C7. For every policy with [reliable = false] that defines
    [tempCodes], in whichever iteration of the retry loop it happens: when
    the connection test passes and the probe completes with a reply code
    that is among the temporary codes and among neither the accept nor the
    reject codes, the controller returns [success = true, mailboxExists =
    true] with the [protected] flag set.  The generic policy is such a
    policy, with temporary codes 450, 451 and 452. *)
Theorem C7_temporary_code_protected
    (W : Type) (T : Transport W)
    (cfg : ProviderConfig) (temps : list Z) (mxServer email domain : string)
    (remaining attempt : nat) (lastError : option string)
    (w w1 w2 : W) (result : SmtpResult) (c : Z) :
  reliable cfg = false ->
  tempCodes cfg = Some temps ->
  testConnection mxServer w = (Ok tt, w1) ->
  Smtp.verifyMailbox mxServer email domain (Some cfg) w1 = (Ok result, w2) ->
  success result = true ->
  replyCode result = Some c ->
  In c temps ->
  ~ In c (acceptCodes cfg) ->
  ~ In c (rejectCodes cfg) ->
  Providers.attempts cfg mxServer email domain (S remaining) attempt lastError w
  = (Ok {| success := true;
           mailboxExists := true;
           supportsTLS := supportsTLS result;
           replyCode := Some c;
           replyMessage := Some "Server employs protection measures";
           error := None;
           protected := Some true |}, w2) /\
  reliable Providers.genericConfig = false /\
  tempCodes Providers.genericConfig = Some [450; 451; 452]%Z.
Proof.
  intros Hrel Ht Hconn Hprobe Hs Hc Hin Ha Hr.
  split; [|split; reflexivity].
  eapply ControllerFacts.attempts_decisive; eauto.
  eapply ControllerFacts.classify_temp; eauto.
Qed.

Lemma C7_temporary_code_protected_witness :
  fst (Providers.performSMTPCheck "mx.example.org" "user@example.org" "example.org"
         (Some (Providers.getProviderConfig "example.org"))
         (net true (plainSession "450 4.2.0 greylisted")))
  = Ok {| success := true;
          mailboxExists := true;
          supportsTLS := Some false;
          replyCode := Some 450%Z;
          replyMessage := Some "Server employs protection measures";
          error := None;
          protected := Some true |}.
Proof.
  change (Providers.getProviderConfig "example.org") with Providers.genericConfig.
  unfold Providers.performSMTPCheck.
  erewrite (fun w1 w2 r H3 H4 H5 H6 H7 H8 H9 =>
              proj1 (@C7_temporary_code_protected Net _ Providers.genericConfig
                       [450; 451; 452]%Z "mx.example.org" "user@example.org" "example.org"
                       1 0 None (net true (plainSession "450 4.2.0 greylisted"))
                       w1 w2 r 450%Z eq_refl eq_refl H3 H4 H5 H6 H7 H8 H9)); cycle 1.
  - vm_compute. reflexivity.
  - vm_compute. reflexivity.
  - reflexivity.
  - reflexivity.
  - simpl. tauto.
  - simpl. intros [H|[H|[]]]; discriminate H.
  - simpl. intros [H|[H|[H|[H|[]]]]]; discriminate H.
  - reflexivity.
Defined.

(** C9. On an input with no records the stream written by the bulk route
    consists of one error event.  On an input with records the stream need
    not end with [complete].  With ten records the last one fills the
    second chunk; the parser emits ['end'] on the tick after it read that
    record out of its buffer, although the ['data'] handler has paused it
    and awaits the validation of the chunk, so the ['end'] handler finds
    [currentChunk] still full and validates it again.  The five records are
    reported twice and [processedCount] ends at 15 out of 10.  When the
    validation started by the ['end'] handler settles first, [complete] is
    written and the response ended before the ['data'] handler writes its
    progress event, which says 150 percent; when it settles second, the
    records of the chunk appear in two progress events.  And with a single
    record whose mail server falls silent in the TLS handshake, the
    validation never settles and nothing follows the [init] event. *)
Theorem C9_end_overtakes_last_chunk
    (W : Type) (R : Resolver W) (T : Transport W)
    (production : bool) (schedule : Bulk.Schedule) (w : W) :
  let header := Bulk.Init 10 ("name" :: Bulk.validationColumns) in
  let report := map (fun record => Bulk.failedRecord record "No email address found")
                    (repeat nameless 5) in
  (let pass := Bulk.validateBulk production schedule [] w in
   Bulk.events (Bulk.written pass)
   = [Bulk.Error (if production then "Failed to process CSV file"
                  else "CSV file is empty")] /\
   Bulk.ended pass = Some 1%nat) /\
  (let pass := Bulk.validateBulk production
                 {| Bulk.endEarly := true; Bulk.endFirst := true |}
                 (repeat nameless 10) w in
   Bulk.events (Bulk.written pass)
   = [header;
      Bulk.Progress (Bulk.percent 5 10) report;
      Bulk.Progress 100 report;
      Bulk.Complete;
      Bulk.Progress (Bulk.percent 15 10) report] /\
   Bulk.events (Bulk.delivered pass)
   = [header;
      Bulk.Progress (Bulk.percent 5 10) report;
      Bulk.Progress 100 report;
      Bulk.Complete] /\
   last (Bulk.events (Bulk.written pass)) Bulk.Complete <> Bulk.Complete /\
   Bulk.processedCount pass = 15%nat /\
   (Bulk.percent 15 10 == 150)%Q) /\
  (let pass := Bulk.validateBulk production
                 {| Bulk.endEarly := true; Bulk.endFirst := false |}
                 (repeat nameless 10) w in
   Bulk.events (Bulk.written pass)
   = [header;
      Bulk.Progress (Bulk.percent 5 10) report;
      Bulk.Progress (Bulk.percent 10 10) report;
      Bulk.Progress 100 report;
      Bulk.Complete] /\
   Bulk.processedCount pass = 15%nat) /\
  (let pass := @Bulk.validateBulk Net resolver silentTransport production schedule
                 [[("email", "user@example.org")]]
                 (net true (tlsSession "250 2.1.5 Ok")) in
   Bulk.events (Bulk.written pass)
   = [Bulk.Init 1 ("email" :: Bulk.validationColumns)] /\
   Bulk.ended pass = None).
Proof.
  intros header report. split; [|split; [|split]].
  - split; reflexivity.
  - split; [reflexivity|]. split; [reflexivity|]. split; [|split].
    + cbn. discriminate.
    + reflexivity.
    + reflexivity.
  - split; reflexivity.
  - destruct production, schedule as [[|] [|]]; vm_compute; split; reflexivity.
Qed.

(** C10. In every result that [validateEmail] returns, a true
    [checks.mailbox] comes with true [checks.smtp], [checks.format],
    [checks.dns] and [checks.mx], with [valid = true], and with the reason
    [Email verified successfully]. *)
Theorem C10_confirmed_mailbox
    (W : Type) (R : Resolver W) (T : Transport W)
    (input : JsValue) (w w' : W) (r : ValidationResult) :
  Email.validateEmail input w = (Ok r, w') ->
  mailbox (checks r) = true ->
  smtp (checks r) = true /\ format (checks r) = true /\
  dns (checks r) = true /\ mx (checks r) = true /\
  valid r = true /\ reason r = "Email verified successfully".
Proof.
  intros Hrun.
  pose proof (PipelineFacts.validateEmail_safe input w) as Hm.
  rewrite Hrun in Hm. exact (proj2 Hm).
Qed.

Lemma C10_confirmed_mailbox_witness :
  let r := valueOf
             (Email.validateEmail (JsString "user@example.org")
                (net true (plainSession "250 2.1.5 Ok")))
             (Email.initialResult JsNull) in
  smtp (checks r) = true /\ format (checks r) = true /\
  dns (checks r) = true /\ mx (checks r) = true /\
  valid r = true /\ reason r = "Email verified successfully".
Proof.
  eapply (fun w' H => @C10_confirmed_mailbox Net _ _ (JsString "user@example.org")
                        (net true (plainSession "250 2.1.5 Ok")) w' _ H).
  - vm_compute. reflexivity.
  - vm_compute. reflexivity.
Defined.


(* ================================================================== *)
(** * Further properties of the pipeline *)
(* ================================================================== *)

(** X1. The reason of a result of [validateEmail] is one of six strings.
    Three messages of the source are never given: the one for a local
    part that is too long, the one for a failed SMTP verification and the
    generic one. *)
Theorem X1_reason_is_one_of_six
    (W : Type) (R : Resolver W) (T : Transport W)
    (input : JsValue) (w w' : W) (r : ValidationResult) :
  Email.validateEmail input w = (Ok r, w') ->
  In (reason r) Shape.reasons /\
  reason r <> "Local part exceeds maximum length" /\
  reason r <> "One or more validation checks failed" /\
  (forall lastError, reason r <> "SMTP verification failed: " ++ lastError).
Proof.
  intros Hrun.
  pose proof (AuditFacts.validateEmail_checked input w) as Haudit.
  rewrite Hrun in Haudit; cbn [fst] in Haudit. clear Hrun; rename Haudit into Hrun.
  destruct Hrun as (_ & (st & Hst) & _).
  assert (Hin : In (reason r) Shape.reasons).
  { destruct st; simpl in Hst; unfold Shape.reasons.
    - destruct Hst as (_ & _ & ->); simpl; tauto.
    - destruct Hst as (_ & _ & [->| ->]); simpl; tauto.
    - destruct Hst as (_ & _ & ->); simpl; tauto.
    - destruct Hst as (_ & _ & ->); simpl; tauto.
    - destruct Hst as (_ & _ & ->); simpl; tauto. }
  split; [exact Hin|].
  unfold Shape.reasons in Hin; simpl in Hin.
  split; [|split; [|intros lastError]]; intros E; rewrite E in Hin;
    repeat (destruct Hin as [Hin|Hin]; [discriminate Hin|]); contradiction.
Qed.

Lemma X1_reason_is_one_of_six_witness :
  let r := valueOf
             (Email.validateEmail (JsString "user@example.org")
                (net false []))
             (Email.initialResult JsNull) in
  smtp (checks r) = false /\ reason r = "Mailbox does not exist" /\
  In (reason r) Shape.reasons.
Proof.
  split; [vm_compute; reflexivity|]. split; [vm_compute; reflexivity|].
  eapply (fun w' H => proj1 (@X1_reason_is_one_of_six Net _ _
            (JsString "user@example.org") (net false []) w' _ H)).
  vm_compute. reflexivity.
Defined.

(** X2. Every result of [validateEmail] is of one of five kinds, named by
    the stage that stopped the pipeline: the flags of the stages before it
    are true, its own and all later ones false, and the reason is the one
    of that stage.  In particular, once the MX stage has passed and no
    mailbox was confirmed the reason is [Mailbox does not exist], whether
    a probe completed or all of them failed. *)
Theorem X2_result_names_the_failing_stage
    (W : Type) (R : Resolver W) (T : Transport W)
    (input : JsValue) (w w' : W) (r : ValidationResult) :
  Email.validateEmail input w = (Ok r, w') ->
  email r = input /\
  (exists st, Shape.atStage st r) /\
  (dns (checks r) = true -> format (checks r) = true) /\
  (mx (checks r) = true -> dns (checks r) = true) /\
  (spf (checks r) = true -> mx (checks r) = true) /\
  (smtp (checks r) = true -> mx (checks r) = true) /\
  (mx (checks r) = true -> mailbox (checks r) = false ->
   reason r = "Mailbox does not exist").
Proof.
  intros Hrun.
  pose proof (AuditFacts.validateEmail_checked input w) as Haudit.
  rewrite Hrun in Haudit; cbn [fst] in Haudit. clear Hrun; rename Haudit into Hrun.
  destruct Hrun as (He & (st & Hst) & _).
  split; [exact He|]. split; [now exists st|].
  destruct st; simpl in Hst.
  - destruct Hst as (-> & _ & _); simpl; repeat split; intros; congruence.
  - destruct Hst as (-> & _ & _); simpl; repeat split; intros; congruence.
  - destruct Hst as (-> & _ & _); simpl; repeat split; intros; congruence.
  - destruct Hst as ((sp & sm & ->) & _ & ->); simpl; repeat split; intros; congruence.
  - destruct Hst as ((sp & ->) & _ & _); simpl; repeat split; intros; congruence.
Qed.

Lemma X2_result_names_the_failing_stage_witness :
  let r := valueOf
             (Email.validateEmail (JsString "user@example.org")
                (net true (plainSession "550 5.1.1 no such user")))
             (Email.initialResult JsNull) in
  Shape.atStage Shape.MailboxStage r /\ exists st, Shape.atStage st r.
Proof.
  split.
  - split; [exists true, true; vm_compute; reflexivity|].
    split; vm_compute; reflexivity.
  - eapply (fun w' H => proj1 (proj2 (@X2_result_names_the_failing_stage Net _ _
              (JsString "user@example.org")
              (net true (plainSession "550 5.1.1 no such user")) w' _ H))).
    vm_compute. reflexivity.
Defined.

(** X3. In every result of [validateEmail] the list [details.mxRecords]
    is empty when the MX check is false, and non-empty and ascending by
    priority when it is true. *)
Theorem X3_mx_records_ascending
    (W : Type) (R : Resolver W) (T : Transport W)
    (input : JsValue) (w w' : W) (r : ValidationResult) :
  Email.validateEmail input w = (Ok r, w') ->
  (mx (checks r) = false -> mxRecords (details r) = []) /\
  (mx (checks r) = true ->
   mxRecords (details r) <> [] /\ Shape.ascending (mxRecords (details r))).
Proof.
  intros Hrun.
  pose proof (AuditFacts.validateEmail_checked input w) as Haudit.
  rewrite Hrun in Haudit; cbn [fst] in Haudit. clear Hrun; rename Haudit into Hrun.
  destruct Hrun as (_ & _ & (Hnone & Hsome & _)).
  split; [|exact Hsome]. intros Hmx. now rewrite (Hnone Hmx).
Qed.

Lemma X3_mx_records_ascending_witness :
  let r := valueOf
             (Email.validateEmail (JsString "user@example.org")
                (net true (plainSession "250 2.1.5 Ok")))
             (Email.initialResult JsNull) in
  map priority (mxRecords (details r)) = [10; 20]%Z /\
  Shape.ascending (mxRecords (details r)).
Proof.
  split; [vm_compute; reflexivity|].
  eapply (fun w' H => proj2 (@X3_mx_records_ascending Net _ _
            (JsString "user@example.org")
            (net true (plainSession "250 2.1.5 Ok")) w' _ H)).
  - vm_compute. reflexivity.
  - vm_compute. reflexivity.
Defined.

(** X4. [checkMX] never throws.  It gives the resolver's answer,
    reordered ascending by priority with no record dropped or added,
    when that answer is a non-empty list; it gives [false] when the
    answer is empty or the lookup is rejected. *)
Theorem X4_checkMX_reorders_the_answer
    (W : Type) (R : Resolver W) (T : Transport W) (domain : string) (w : W) :
  (exists records sorted w',
      resolveMx domain w = (Ok records, w') /\ records <> [] /\
      Email.checkMX domain w = (Ok (Some sorted), w') /\
      Permutation records sorted /\ Shape.ascending sorted) \/
  (exists w',
      Email.checkMX domain w = (Ok None, w') /\
      (resolveMx domain w = (Ok [], w') \/
       exists msg, resolveMx domain w = (Thrown msg, w'))).
Proof.
  destruct (AuditFacts.checkMX_cases domain w)
    as [(records & w' & Hres & Hne & E)|(w' & E & Hres)].
  - left. exists records, (Email.sortByPriority records), w'.
    repeat split; auto.
    + apply AuditFacts.sort_permutation.
    + apply AuditFacts.sort_ascending.
  - right. now exists w'.
Qed.

Lemma X4_checkMX_reorders_the_answer_witness :
  exists sorted,
    Email.checkMX "example.org" (net true []) = (Ok (Some sorted), net true []) /\
    Shape.ascending sorted.
Proof.
  destruct (@X4_checkMX_reorders_the_answer Net _ _ "example.org" (net true []))
    as [(records & sorted & w' & H1 & _ & H3 & _ & H5)|(w' & H & _)].
  - exists sorted. split; [|exact H5].
    rewrite H3. vm_compute in H1. now injection H1 as _ <-.
  - vm_compute in H. discriminate H.
Defined.

(** X5. In every result of [validateEmail], [checks.smtp] is true
    exactly when [details.smtpResponse] is a successful outcome, and then
    [checks.mailbox] is that outcome's [mailboxExists]; when it is false
    the stored outcome, if any, is a failed one. *)
Theorem X5_smtp_response_agrees_with_flags
    (W : Type) (R : Resolver W) (T : Transport W)
    (input : JsValue) (w w' : W) (r : ValidationResult) :
  Email.validateEmail input w = (Ok r, w') ->
  (smtp (checks r) = true ->
   exists s, smtpResponse (details r) = Some s /\ success s = true /\
             mailboxExists s = mailbox (checks r)) /\
  (smtp (checks r) = false ->
   smtpResponse (details r) = None \/
   exists s, smtpResponse (details r) = Some s /\ success s = false).
Proof.
  intros Hrun.
  pose proof (AuditFacts.validateEmail_checked input w) as Haudit.
  rewrite Hrun in Haudit; cbn [fst] in Haudit. clear Hrun; rename Haudit into Hrun.
  destruct Hrun as (_ & _ & (_ & _ & _ & _ & Hok & Hko)). now split.
Qed.

Lemma X5_smtp_response_agrees_with_flags_witness :
  let r := valueOf
             (Email.validateEmail (JsString "user@example.org")
                (net true (plainSession "450 4.2.0 greylisted")))
             (Email.initialResult JsNull) in
  exists s, smtpResponse (details r) = Some s /\ success s = true /\
            mailboxExists s = mailbox (checks r).
Proof.
  eapply (fun w' H => proj1 (@X5_smtp_response_agrees_with_flags Net _ _
            (JsString "user@example.org")
            (net true (plainSession "450 4.2.0 greylisted")) w' _ H)).
  - vm_compute. reflexivity.
  - vm_compute. reflexivity.
Defined.

(** X6. In every result of [validateEmail], [checks.spf] is true exactly
    when [details.spfRecord] holds a record, and a record held starts
    with [v=spf1]. *)
Theorem X6_spf_flag_iff_record
    (W : Type) (R : Resolver W) (T : Transport W)
    (input : JsValue) (w w' : W) (r : ValidationResult) :
  Email.validateEmail input w = (Ok r, w') ->
  (spf (checks r) = true <-> exists s, spfRecord (details r) = Some s) /\
  (forall s, spfRecord (details r) = Some s -> Js.startsWith s "v=spf1" = true).
Proof.
  intros Hrun.
  pose proof (AuditFacts.validateEmail_checked input w) as Haudit.
  rewrite Hrun in Haudit; cbn [fst] in Haudit. clear Hrun; rename Haudit into Hrun.
  destruct Hrun as (_ & _ & (_ & _ & Hspf & Hpre & _)). now split.
Qed.

Lemma X6_spf_flag_iff_record_witness :
  let r := valueOf
             (Email.validateEmail (JsString "user@example.org")
                (net true (plainSession "250 2.1.5 Ok")))
             (Email.initialResult JsNull) in
  spfRecord (details r) = Some "v=spf1 -all" /\ spf (checks r) = true.
Proof.
  split; [vm_compute; reflexivity|].
  eapply (fun w' H => proj2 (proj1 (@X6_spf_flag_iff_record Net _ _
            (JsString "user@example.org")
            (net true (plainSession "250 2.1.5 Ok")) w' _ H))).
  - vm_compute. reflexivity.
  - eexists. vm_compute. reflexivity.
Defined.

(** X7. An input the format check rejects is answered without any call
    to the resolver or the transport: the world is left as it was, and
    the result is the initial one with the reason [Invalid email format]. *)
Theorem X7_rejected_format_calls_nothing
    (W : Type) (R : Resolver W) (T : Transport W) (input : JsValue) (w : W) :
  Email.validateEmailFormat input = false ->
  Email.validateEmail input w
  = (Ok (Email.setReason (Email.initialResult input) "Invalid email format"), w).
Proof.
  intros H. unfold Email.validateEmail. rewrite H. reflexivity.
Qed.

Lemma X7_rejected_format_calls_nothing_witness :
  Email.validateEmail (JsString "bad-format") (net true [])
  = (Ok (Email.setReason (Email.initialResult (JsString "bad-format"))
           "Invalid email format"), net true []).
Proof.
  apply X7_rejected_format_calls_nothing. vm_compute. reflexivity.
Defined.

(** X8. For an accepted address whose domain is within the length cap:
    when none of the three address lookups fulfils, [validateEmail]
    returns [Domain does not exist] with only the format flag set, and
    the world is the one those lookups left, so no MX or TXT lookup and
    no probe is made; when they do and the MX step finds nothing, it
    returns [No mail servers found for domain] with the format and DNS
    flags set, in the world the MX lookup left. *)
Theorem X8_early_exits
    (W : Type) (R : Resolver W) (T : Transport W)
    (address localPart domain : string) (w w1 : W) :
  Email.validateEmailFormat (JsString address) = true ->
  Js.split "@" address = [localPart; domain] ->
  (String.length domain <= 255)%nat ->
  (Email.checkDNS domain w = (Ok false, w1) ->
   Email.validateEmail (JsString address) w
   = (Ok {| email := JsString address;
            valid := false;
            checks := mkChecks true false false false false false;
            details := mkDetails [] None None;
            reason := "Domain does not exist" |}, w1)) /\
  (forall w2,
     Email.checkDNS domain w = (Ok true, w1) ->
     Email.checkMX domain w1 = (Ok None, w2) ->
     Email.validateEmail (JsString address) w
     = (Ok {| email := JsString address;
              valid := false;
              checks := mkChecks true true false false false false;
              details := mkDetails [] None None;
              reason := "No mail servers found for domain" |}, w2)).
Proof.
  intros Hfmt Hsplit Hlen.
  assert (Hlocal : (String.length localPart <= 63)%nat).
  { simpl in Hfmt. destruct (String.eqb address ""); [discriminate|].
    destruct (FormatFacts.accepted_split _ Hfmt) as (l & d & Hs & Hl & _).
    rewrite Hsplit in Hs; injection Hs as <- <-.
    apply FormatFacts.local_length in Hl; lia. }
  assert (Hhead : Email.validateEmail (JsString address) w
                  = Email.validateDomain address domain
                      (Email.setFormat (Email.initialResult (JsString address)) true) w).
  { unfold Email.validateEmail. rewrite Hfmt, Hsplit; simpl.
    replace (64 <? String.length localPart)%nat with false
      by (symmetry; apply Nat.ltb_ge; lia).
    replace (255 <? String.length domain)%nat with false
      by (symmetry; apply Nat.ltb_ge; lia).
    reflexivity. }
  rewrite Hhead. unfold Email.validateDomain, bind. split.
  - intros Hdns. rewrite Hdns. reflexivity.
  - intros w2 Hdns Hmx. rewrite Hdns; simpl. rewrite Hmx. reflexivity.
Qed.

Lemma X8_early_exits_witness :
  reason (valueOf (Email.validateEmail (JsString "user@example.com")
                     {| addressable := false; mxAnswer := None; txtAnswer := None;
                        reachable := false; tlsWorks := false; inbox := []; sent := [] |})
                  (Email.initialResult JsNull))
  = "Domain does not exist" /\
  reason (valueOf (Email.validateEmail (JsString "user@example.com")
                     {| addressable := true; mxAnswer := Some []; txtAnswer := None;
                        reachable := false; tlsWorks := false; inbox := []; sent := [] |})
                  (Email.initialResult JsNull))
  = "No mail servers found for domain".
Proof.
  split.
  - erewrite (fun w1 H1 H2 H3 H4 =>
                proj1 (@X8_early_exits Net _ _ "user@example.com" "user" "example.com"
                         _ w1 H1 H2 H3) H4); cycle 1.
    + vm_compute. reflexivity.
    + vm_compute. reflexivity.
    + vm_compute. lia.
    + vm_compute. reflexivity.
    + reflexivity.
  - erewrite (fun w1 w2 H1 H2 H3 H4 H5 =>
                proj2 (@X8_early_exits Net _ _ "user@example.com" "user" "example.com"
                         _ w1 H1 H2 H3) w2 H4 H5); cycle 1.
    + vm_compute. reflexivity.
    + vm_compute. reflexivity.
    + vm_compute. lia.
    + vm_compute. reflexivity.
    + vm_compute. reflexivity.
    + reflexivity.
Defined.

(** X9. An address the format check accepts is a local part, one [@], a
    non-empty name, a dot and a top-level label: the local part has 1 to
    63 characters, all letters, digits or one of [._%+-], and begins and
    ends with a letter or a digit; the top-level label has at least two
    characters, all of them letters. *)
Theorem X9_accepted_address_anatomy (address : string) :
  Email.validateEmailFormat (JsString address) = true ->
  exists localPart name tld,
    address = localPart ++ "@" ++ name ++ "." ++ tld /\
    Js.split "@" address = [localPart; name ++ "." ++ tld] /\
    (1 <= String.length localPart <= 63)%nat /\
    Js.allChars Format.localChar localPart = true /\
    (exists c rest, localPart = String c rest /\ Js.isAlnum c = true) /\
    (exists pre c, localPart = pre ++ String c "" /\ Js.isAlnum c = true) /\
    name <> "" /\
    (2 <= String.length tld)%nat /\
    Js.allChars Js.isAlpha tld = true.
Proof.
  intros H. simpl in H. destruct (String.eqb address ""); [discriminate|].
  destruct (FormatFacts.email_shape _ H) as (l & d & Haddr & Hl & Hd).
  destruct (FormatFacts.accepted_split _ H) as (l' & d' & Hsplit & _ & _).
  destruct (AddressFacts.domain_anatomy Hd) as (name & tld & -> & Hname & Hlen & Halpha).
  destruct (AddressFacts.local_anatomy Hl) as (Hfirst & Hlast & Hchars).
  assert (Hsplit' : Js.split "@" address = [l; name ++ "." ++ tld]).
  { rewrite Haddr. rewrite JsFacts.split_at.
    - rewrite JsFacts.split_none; [reflexivity|].
      eapply JsFacts.allChars_weaken; [apply FormatFacts.domain_no_at|].
      now apply FormatFacts.lang_chars.
    - eapply JsFacts.allChars_weaken; [apply FormatFacts.local_no_at|].
      now apply FormatFacts.lang_chars. }
  exists l, name, tld. repeat split; auto.
  - apply FormatFacts.local_length in Hl; lia.
  - apply FormatFacts.local_length in Hl; lia.
Qed.

Lemma X9_accepted_address_anatomy_witness :
  exists localPart name tld,
    "first.last+tag@mail.example.org" = localPart ++ "@" ++ name ++ "." ++ tld /\
    Js.split "@" "first.last+tag@mail.example.org" = [localPart; name ++ "." ++ tld] /\
    (1 <= String.length localPart <= 63)%nat /\
    Js.allChars Format.localChar localPart = true /\
    (exists c rest, localPart = String c rest /\ Js.isAlnum c = true) /\
    (exists pre c, localPart = pre ++ String c "" /\ Js.isAlnum c = true) /\
    name <> "" /\
    (2 <= String.length tld)%nat /\
    Js.allChars Js.isAlpha tld = true.
Proof.
  apply X9_accepted_address_anatomy. vm_compute. reflexivity.
Defined.


(* ================================================================== *)
(** * Further properties of the controller and of the policies *)
(* ================================================================== *)

(** X10. For every policy, in whichever iteration of the retry loop it
    happens: when the connection test passes and the probe completes with
    a reply code among the policy's accept codes, the controller returns
    [success = true, mailboxExists = true] with that code, whatever the
    probe itself said about the mailbox, and leaves the world the probe
    left. *)
Theorem X10_accept_is_decisive
    (W : Type) (T : Transport W)
    (cfg : ProviderConfig) (mxServer email domain : string)
    (remaining attempt : nat) (lastError : option string)
    (w w1 w2 : W) (result : SmtpResult) (c : Z) :
  testConnection mxServer w = (Ok tt, w1) ->
  Smtp.verifyMailbox mxServer email domain (Some cfg) w1 = (Ok result, w2) ->
  success result = true ->
  replyCode result = Some c ->
  In c (acceptCodes cfg) ->
  Providers.attempts cfg mxServer email domain (S remaining) attempt lastError w
  = (Ok {| success := true;
           mailboxExists := true;
           supportsTLS := supportsTLS result;
           replyCode := Some c;
           replyMessage := replyMessage result;
           error := None;
           protected := None |}, w2).
Proof.
  intros Hconn Hprobe Hs Hc Ha.
  eapply ControllerFacts.attempts_decisive; eauto.
  now apply OutcomeFacts.classify_accept.
Qed.

Lemma X10_accept_is_decisive_witness :
  mailboxExists
    (valueOf (Smtp.verifyMailbox "mx.example.org" "user@example.org" "example.org"
                (Some Providers.genericConfig) (net true (plainSession "251 will forward")))
             (Providers.exhausted None))
  = false /\
  fst (Providers.performSMTPCheck "mx.example.org" "user@example.org" "example.org"
         (Some Providers.genericConfig) (net true (plainSession "251 will forward")))
  = Ok {| success := true;
          mailboxExists := true;
          supportsTLS := Some false;
          replyCode := Some 251%Z;
          replyMessage := Some "will forward";
          error := None;
          protected := None |}.
Proof.
  split; [vm_compute; reflexivity|].
  unfold Providers.performSMTPCheck.
  erewrite (fun w1 w2 r H1 H2 H3 H4 H5 =>
              @X10_accept_is_decisive Net _ Providers.genericConfig
                "mx.example.org" "user@example.org" "example.org" 1 0 None
                (net true (plainSession "251 will forward")) w1 w2 r 251%Z
                H1 H2 H3 H4 H5); cycle 1.
  - vm_compute. reflexivity.
  - vm_compute. reflexivity.
  - reflexivity.
  - reflexivity.
  - simpl. tauto.
  - reflexivity.
Defined.

(** X11. When the connection test passes and the probe either fails or
    completes with a code that is in none of the policy's sets (a
    temporary code counts only under a policy that is not reliable), the
    controller goes on to the next attempt at once, without a backoff,
    from the world the probe left; it records the probe's error, or
    [Ambiguous server response] for a completed probe. *)
Theorem X11_unclassified_probe_is_retried
    (W : Type) (T : Transport W)
    (cfg : ProviderConfig) (mxServer email domain : string)
    (remaining attempt : nat) (lastError : option string)
    (w w1 w2 : W) (result : SmtpResult) :
  testConnection mxServer w = (Ok tt, w1) ->
  Smtp.verifyMailbox mxServer email domain (Some cfg) w1 = (Ok result, w2) ->
  (success result = false ->
   Providers.attempts cfg mxServer email domain (S remaining) attempt lastError w
   = Providers.attempts cfg mxServer email domain remaining (S attempt)
       (Some (Js.orElse (error result) "Ambiguous server response")) w2) /\
  (forall c,
     success result = true -> replyCode result = Some c ->
     ~ In c (acceptCodes cfg) -> ~ In c (rejectCodes cfg) ->
     reliable cfg = true \/ Providers.tempIncludes cfg (Some c) = false ->
     Providers.attempts cfg mxServer email domain (S remaining) attempt lastError w
     = Providers.attempts cfg mxServer email domain remaining (S attempt)
         (Some "Ambiguous server response") w2).
Proof.
  intros Hconn Hprobe. split.
  - intros Hs. eapply OutcomeFacts.attempts_continue; eauto.
    apply OutcomeFacts.classify_ambiguous; now left.
  - intros c Hs Hc Ha Hr Ht.
    assert (Herr : error result = None).
    { pose proof (ProbeFacts.verifyMailbox_shaped _ _ _ _ _ Hprobe) as Hp.
      destruct Hp as (_ & _ & Hp).
      rewrite Hs in Hp. now destruct Hp. }
    erewrite OutcomeFacts.attempts_continue; eauto.
    + now rewrite Herr.
    + apply OutcomeFacts.classify_ambiguous; right. rewrite Hc; simpl.
      rewrite (ControllerFacts.includesZ_not_In _ _ Ha),
              (ControllerFacts.includesZ_not_In _ _ Hr).
      repeat split. exact Ht.
Qed.

Lemma X11_unclassified_probe_is_retried_witness :
  fst (Providers.performSMTPCheck "mx.example.org" "user@gmail.com" "gmail.com"
         (Some gmailConfig)
         (net true (plainSession "450 4.2.0 greylisted" ++
                    plainSession "450 4.2.0 greylisted")))
  = Ok (Providers.exhausted (Some "Ambiguous server response")).
Proof.
  unfold Providers.performSMTPCheck.
  change (retryAttempts gmailConfig) with 2%nat.
  erewrite (fun w1 w2 r H1 H2 c H3 H4 H5 H6 H7 =>
              proj2 (@X11_unclassified_probe_is_retried Net _ gmailConfig
                       "mx.example.org" "user@gmail.com" "gmail.com" 1 0 None
                       _ w1 w2 r H1 H2) c H3 H4 H5 H6 H7); cycle 1.
  - vm_compute. reflexivity.
  - vm_compute. reflexivity.
  - vm_compute. reflexivity.
  - vm_compute. reflexivity.
  - simpl. intros [H|[]]; discriminate H.
  - simpl. intros [H|[H|[H|[H|[H|[]]]]]]; discriminate H.
  - left. reflexivity.
  - vm_compute. reflexivity.
Defined.

(** X12. Against a host whose connection test throws at every attempt,
    [performSMTPCheck] under a policy with a budget of [n + 1] attempts
    never starts a probe: it backs off [n] times, once between two
    attempts and not after the last, and returns a failure that carries
    the message thrown, or [Maximum retry attempts exceeded] when that
    message is empty. *)
Theorem X12_unreachable_host_exhausts_the_budget
    (W : Type) (T : Transport W)
    (cfg : ProviderConfig) (mxServer email domain msg : string) (n : nat) (w : W) :
  (forall k, (k <= n)%nat ->
     testConnection mxServer (Shape.iterate k (sleep 1000) w)
     = (Thrown msg, Shape.iterate k (sleep 1000) w)) ->
  retryAttempts cfg = S n ->
  Providers.performSMTPCheck mxServer email domain (Some cfg) w
  = (Ok {| success := false;
           mailboxExists := false;
           supportsTLS := None;
           replyCode := None;
           replyMessage := None;
           error := Some (Js.orElse (Some msg) "Maximum retry attempts exceeded");
           protected := None |},
     Shape.iterate n (sleep 1000) w).
Proof.
  intros Hdown Hn. unfold Providers.performSMTPCheck. rewrite Hn.
  apply OutcomeFacts.attempts_all_unreachable; [exact Hdown | lia].
Qed.

Lemma X12_unreachable_host_exhausts_the_budget_witness :
  Providers.performSMTPCheck "mx.example.org" "user@example.org" "example.org"
    (Some Providers.genericConfig)
    {| addressable := true; mxAnswer := None; txtAnswer := None;
       reachable := false; tlsWorks := false; inbox := []; sent := [] |}
  = (Ok {| success := false;
           mailboxExists := false;
           supportsTLS := None;
           replyCode := None;
           replyMessage := None;
           error := Some "connect ECONNREFUSED";
           protected := None |},
     {| addressable := true; mxAnswer := None; txtAnswer := None;
        reachable := false; tlsWorks := false; inbox := []; sent := [] |}).
Proof.
  rewrite (@X12_unreachable_host_exhausts_the_budget Net _ Providers.genericConfig
             "mx.example.org" "user@example.org" "example.org" "connect ECONNREFUSED" 1).
  - reflexivity.
  - intros [|[|k]] Hk; [reflexivity | reflexivity | lia].
  - reflexivity.
Defined.


(** X13. [performSMTPCheck] never throws, whatever the transport does,
    and what it returns is well formed for the policy in force: a
    success carries a reply code that the policy accepts (mailbox
    exists), rejects without accepting (mailbox does not exist) or, for
    a policy that is not reliable, lists as temporary (mailbox presumed
    to exist, [protected] set); a failure carries a non-empty error, no
    code, and [mailboxExists = false].  It returns whenever the TLS
    handshake settles in every state of the world. *)
Theorem X13_controller_outcome_well_formed
    (W : Type) (T : Transport W)
    (mxServer email domain : string) (providerConfig : option ProviderConfig) (w : W) :
  let config := match providerConfig with
                | Some c => c
                | None => Providers.getProviderConfig domain
                end in
  (forall msg w',
     Providers.performSMTPCheck mxServer email domain providerConfig w <> (Thrown msg, w')) /\
  (forall r w',
     Providers.performSMTPCheck mxServer email domain providerConfig w = (Ok r, w') ->
     Shape.outcomeShaped config r) /\
  ((forall w0 : W, fst (tlsConnect w0) <> Pending) ->
   exists r w',
     Providers.performSMTPCheck mxServer email domain providerConfig w = (Ok r, w')).
Proof.
  intros config. unfold Providers.performSMTPCheck. fold config.
  pose proof (@OutcomeFacts.attempts_shaped W T True (@AsyncFacts.may_trivial _ _ _)
                config mxServer email domain (retryAttempts config) 0%nat None w) as Hm.
  split; [|split].
  - intros msg w' E. now rewrite E in Hm.
  - intros r w' E. now rewrite E in Hm.
  - intros Hsettles.
    assert (Hhs : may False (tlsConnect (W := W)) (fun _ => True)).
    { intros w0. specialize (Hsettles w0). destruct (fst (tlsConnect w0)); auto. }
    destruct (AsyncFacts.must_returns
                (@OutcomeFacts.attempts_shaped W T False Hhs
                   config mxServer email domain (retryAttempts config) 0%nat None) w)
      as (r & w' & E & _).
    now exists r, w'.
Qed.

Lemma X13_controller_outcome_well_formed_witness :
  Shape.outcomeShaped Providers.genericConfig
    {| success := true; mailboxExists := true; supportsTLS := Some false;
       replyCode := Some 450%Z;
       replyMessage := Some "Server employs protection measures";
       error := None; protected := Some true |}.
Proof.
  eapply (fun w' H =>
            proj1 (proj2 (@X13_controller_outcome_well_formed Net _
                     "mx.example.org" "user@example.org" "example.org"
                     (Some Providers.genericConfig)
                     (net true (plainSession "450 4.2.0 greylisted")))) _ w' H).
  vm_compute. reflexivity.
Defined.

(** X14. A domain that is, in any letter case, one of the aliases
    registered for a provider gets that provider's policy, with the
    provider's key added. *)
Theorem X14_alias_selects_its_provider
    (entry : string * ProviderConfig) (domain : string) :
  In entry Providers.PROVIDERS ->
  In (Js.toLowerCase domain) (domains (snd entry)) ->
  Providers.getProviderConfig domain = Providers.withProvider entry /\
  provider (Providers.getProviderConfig domain) = Some (fst entry).
Proof.
  intros Hentry Halias.
  rewrite (@PolicyFacts.alias_selects entry domain Hentry Halias).
  split; [reflexivity | now destruct entry].
Qed.

Lemma X14_alias_selects_its_provider_witness :
  provider (Providers.getProviderConfig "HotMail.COM") = Some "outlook.com".
Proof.
  refine (proj2 (@X14_alias_selects_its_provider
                   (nth 1 Providers.PROVIDERS ("", Providers.genericConfig))
                   "HotMail.COM" _ _)).
  - simpl. tauto.
  - vm_compute. tauto.
Defined.

(** X15. [getProviderConfig] answers with the generic policy, the one
    without a provider key, exactly for the domains that in lower case
    are no registered alias and contain none of the mail-host patterns
    of any provider. *)
Theorem X15_generic_policy_iff_no_match (domain : string) :
  provider (Providers.getProviderConfig domain) = None <->
  (forall entry, In entry Providers.PROVIDERS ->
     ~ In (Js.toLowerCase domain) (domains (snd entry)) /\
     forall pattern, In pattern (mxDomains (snd entry)) ->
                     Js.includes (Js.toLowerCase domain) pattern = false).
Proof. apply PolicyFacts.generic_iff. Qed.

Lemma X15_generic_policy_iff_no_match_witness :
  provider (Providers.getProviderConfig "mail.notgmail.com.example") <> None.
Proof.
  intros H.
  pose proof (proj1 (X15_generic_policy_iff_no_match "mail.notgmail.com.example") H)
    as Hall.
  destruct (Hall (nth 0 Providers.PROVIDERS ("", Providers.genericConfig))) as [_ Hno];
    [simpl; tauto|].
  assert (E : Js.includes (Js.toLowerCase "mail.notgmail.com.example") "gmail.com" = true)
    by (vm_compute; reflexivity).
  rewrite (Hno "gmail.com") in E; [discriminate E | simpl; tauto].
Defined.

(** X16. Every policy [getProviderConfig] returns accepts reply code 250,
    has a retry budget of two or three attempts and a timeout between ten
    and twenty seconds; it requires TLS exactly when it is reliable, and
    it is unreliable, and defines temporary codes, exactly when it is the
    generic policy. *)
Theorem X16_resolved_policy_facts (domain : string) :
  let cfg := Providers.getProviderConfig domain in
  (provider cfg = None <-> cfg = Providers.genericConfig) /\
  reliable cfg = requireTLS cfg /\
  (reliable cfg = false <-> provider cfg = None) /\
  (tempCodes cfg <> None <-> provider cfg = None) /\
  In 250%Z (acceptCodes cfg) /\
  (2 <= retryAttempts cfg <= 3)%nat /\
  (10000 <= timeout cfg <= 20000)%Z /\
  (forall c, In c (rejectCodes cfg) -> ~ In c (acceptCodes cfg)).
Proof.
  cbv zeta.
  destruct (PolicyFacts.resolved_policy_facts domain)
    as (H1 & H2 & H3 & H4 & H5 & H6 & H7 & _).
  repeat split; try apply H1; try apply H3; try apply H4; auto; try lia.
  intros c. apply ControllerFacts.resolved_policy_disjoint.
Qed.

Lemma X16_resolved_policy_facts_witness :
  ~ In 550%Z (acceptCodes (Providers.getProviderConfig "gmail.com")).
Proof.
  apply (proj2 (proj2 (proj2 (proj2 (proj2 (proj2 (proj2
           (X16_resolved_policy_facts "gmail.com")))))))).
  vm_compute. tauto.
Defined.

(* ================================================================== *)
(** * Further properties of the SMTP client *)
(* ================================================================== *)

(** X17. Whatever [command] resolves with carries a code between 0 and
    999: the buffer it returns as [fullResponse] has a line that starts
    with three digits, the code is the number they spell, and the message
    is that line from its fifth character on. *)
Theorem X17_reply_code_is_three_digits
    (W : Type) (T : Transport W)
    (cmd : option string) (cl cl' : Smtp.Client) (r : Response) :
  Smtp.command cmd cl = (Ok r, cl') ->
  (0 <= code r <= 999)%Z /\
  exists a b c rest,
    In (String a (String b (String c rest))) (Js.splitCRLF (fullResponse r)) /\
    Js.isDigit a = true /\ Js.isDigit b = true /\ Js.isDigit c = true /\
    code r = (100 * Js.digitVal a + 10 * Js.digitVal b + Js.digitVal c)%Z /\
    message r = Js.dropChars 4 (String a (String b (String c rest))).
Proof.
  intros H. split; [now apply ProbeFacts.command_code in H|].
  apply ProbeFacts.command_resolved in H as (chunks & H).
  unfold Smtp.deliver in H. apply FramingFacts.resolved_from in H
    as (n & line & _ & _ & Hin & Hfinal & Hcode & Hmsg).
  destruct (ProbeFacts.final_line_code _ Hfinal)
    as (a & b & c & rest & -> & Ha & Hb & Hc & Hval & _).
  exists a, b, c, rest. repeat split; auto. now rewrite Hcode.
Qed.

Lemma X17_reply_code_is_three_digits_witness :
  exists a b c rest,
    In (String a (String b (String c rest)))
       (Js.splitCRLF ("220 mx.example.org ESMTP" ++ Js.CRLF)) /\
    Js.isDigit a = true /\ Js.isDigit b = true /\ Js.isDigit c = true /\
    220%Z = (100 * Js.digitVal a + 10 * Js.digitVal b + Js.digitVal c)%Z /\
    "mx.example.org ESMTP" = Js.dropChars 4 (String a (String b (String c rest))).
Proof.
  eapply (fun cl' H =>
            proj2 (@X17_reply_code_is_three_digits Net _ None
                     (Smtp.newClient None (net true (plainSession "250 ok"))) cl'
                     {| code := 220; message := "mx.example.org ESMTP";
                        fullResponse := "220 mx.example.org ESMTP" ++ Js.CRLF |} H)).
  vm_compute. reflexivity.
Defined.

(** X18. The identities tried in the EHLO/HELO negotiation are never the
    empty string, come from the policy's [heloHost], the domain, the host
    and the placeholder only, and always end with [verify.local]; so the
    list is never empty and the EHLO sent again after a TLS upgrade names
    a real candidate. *)
Theorem X18_helo_candidates
    (host domain : string) (config : option ProviderConfig) :
  (exists pre, Smtp.heloHosts host domain config = (pre ++ ["verify.local"])%list) /\
  In (nth 0 (Smtp.heloHosts host domain config) "undefined")
     (Smtp.heloHosts host domain config) /\
  (forall h, In h (Smtp.heloHosts host domain config) ->
     h <> "" /\
     ((exists cfg, config = Some cfg /\ heloHost cfg = Some h) \/
      h = domain \/ h = host \/ h = "verify.local")).
Proof.
  destruct (PolicyFacts.heloHosts_anatomy host domain config) as ((pre & E) & Hne & Hfrom).
  split; [now exists pre|]. split.
  - rewrite E. destruct pre as [|p pre]; simpl; auto.
  - intros h Hin. split; [now apply Hne | now apply Hfrom].
Qed.

Lemma X18_helo_candidates_witness :
  "gmail-smtp-in.l.google.com" <> "" /\
  ((exists cfg, Some gmailConfig = Some cfg /\
                heloHost cfg = Some "gmail-smtp-in.l.google.com") \/
   "gmail-smtp-in.l.google.com" = "gmail.com" \/
   "gmail-smtp-in.l.google.com" = "mx.example.org" \/
   "gmail-smtp-in.l.google.com" = "verify.local").
Proof.
  apply (proj2 (proj2 (X18_helo_candidates "mx.example.org" "gmail.com" (Some gmailConfig)))).
  vm_compute. tauto.
Defined.

(** X19. Every outcome of [verifyMailbox] is well formed: it has no
    [protected] flag and always says whether TLS was in use; a success
    has no error and a reply code between 0 and 999, with [mailboxExists]
    true exactly for 250; a failure has an error and neither code nor
    message, and [mailboxExists = false].  And [verifyMailbox] never
    throws: whatever goes wrong in the session comes back as a failure. *)
Theorem X19_probe_outcome_well_formed
    (W : Type) (T : Transport W)
    (host email domain : string) (config : option ProviderConfig) (w : W) :
  (forall msg w', Smtp.verifyMailbox host email domain config w <> (Thrown msg, w')) /\
  (forall r w',
     Smtp.verifyMailbox host email domain config w = (Ok r, w') ->
     Shape.probeShaped r).
Proof.
  split.
  - intros msg w' E.
    pose proof (@SessionFacts.verifyMailbox_must W T True (@AsyncFacts.may_trivial _ _ _)
                  host email domain config w) as Hm.
    now rewrite E in Hm.
  - intros r w'. apply ProbeFacts.verifyMailbox_shaped.
Qed.

Lemma X19_probe_outcome_well_formed_witness :
  Shape.probeShaped
    {| success := false; mailboxExists := false; supportsTLS := Some false;
       replyCode := None; replyMessage := None;
       error := Some "HELO/EHLO failed"; protected := None |}.
Proof.
  eapply (fun w' H =>
            proj2 (@X19_probe_outcome_well_formed Net _
                     "mx.example.org" "user@example.org" "example.org"
                     (Some Providers.genericConfig)
                     (net true [reply "220 mx.example.org ESMTP"])) _ w' H).
  vm_compute. reflexivity.
Defined.

(** X20. A probe is aborted before any command is written when the
    connection fails, with the connection's error, and when the greeting
    read carries a code other than 220, with [Invalid server greeting];
    in both cases the socket is cleaned up in the state the failing step
    left. *)
Theorem X20_connect_and_greeting_aborts
    (W : Type) (T : Transport W)
    (host email domain : string) (config : option ProviderConfig) (w : W) :
  (forall msg cl1,
     Smtp.connect host (Smtp.newClient config w) = (Thrown msg, cl1) ->
     Smtp.verifyMailbox host email domain config w
     = (Ok {| success := false; mailboxExists := false; supportsTLS := Some false;
              replyCode := None; replyMessage := None; error := Some msg;
              protected := None |},
        socketCleanup (Smtp.socket cl1))) /\
  (forall cl1 greeting cl2,
     Smtp.connect host (Smtp.newClient config w) = (Ok tt, cl1) ->
     Smtp.command None cl1 = (Ok greeting, cl2) ->
     code greeting <> 220%Z ->
     Smtp.verifyMailbox host email domain config w
     = (Ok {| success := false; mailboxExists := false; supportsTLS := Some false;
              replyCode := None; replyMessage := None;
              error := Some "Invalid server greeting"; protected := None |},
        socketCleanup (Smtp.socket cl2))).
Proof.
  split.
  - intros msg cl1 Hconn.
    pose proof (SessionFacts.keeps_connect host (Smtp.newClient config w)) as Hflag.
    rewrite Hconn in Hflag; simpl in Hflag.
    erewrite SessionFacts.verifyMailbox_caught; [now rewrite Hflag|].
    unfold Smtp.negotiate, Smtp.hello, bind. now rewrite Hconn.
  - intros cl1 greeting cl2 Hconn Hgreet Hcode.
    pose proof (SessionFacts.keeps_connect host (Smtp.newClient config w)) as Hf1.
    pose proof (SessionFacts.keeps_command None cl1) as Hf2.
    rewrite Hconn in Hf1; rewrite Hgreet in Hf2; simpl in Hf1, Hf2.
    erewrite SessionFacts.verifyMailbox_caught; [now rewrite Hf2, Hf1|].
    unfold Smtp.negotiate, Smtp.hello, bind. rewrite Hconn, Hgreet.
    apply Z.eqb_neq in Hcode; now rewrite Hcode.
Qed.

Lemma X20_connect_and_greeting_aborts_witness :
  Smtp.verifyMailbox "mx.example.org" "user@example.org" "example.org"
    (Some Providers.genericConfig) (net true [reply "554 no service"])
  = (Ok {| success := false; mailboxExists := false; supportsTLS := Some false;
           replyCode := None; replyMessage := None;
           error := Some "Invalid server greeting"; protected := None |},
     {| addressable := true;
        mxAnswer := Some [ {| exchange := "mx2.example.org"; priority := 20 |};
                           {| exchange := "mx.example.org"; priority := 10 |} ];
        txtAnswer := Some [["v=spf1 -all"]];
        reachable := true; tlsWorks := true; inbox := [];
        sent := ["QUIT" ++ Js.CRLF] |}) /\
  error (valueOf
           (Smtp.verifyMailbox "mx.example.org" "user@example.org" "example.org"
              (Some Providers.genericConfig)
              {| addressable := true; mxAnswer := None; txtAnswer := None;
                 reachable := false; tlsWorks := false; inbox := []; sent := [] |})
           (Providers.exhausted None))
  = Some "connect ECONNREFUSED".
Proof.
  split.
  - erewrite (fun c1 g c2 H1 H2 H3 =>
                proj2 (@X20_connect_and_greeting_aborts Net _ "mx.example.org"
                         "user@example.org" "example.org" (Some Providers.genericConfig)
                         (net true [reply "554 no service"])) c1 g c2 H1 H2 H3); cycle 1.
    + vm_compute. reflexivity.
    + vm_compute. reflexivity.
    + vm_compute. discriminate.
    + vm_compute. reflexivity.
  - erewrite (fun m c1 H1 =>
                proj1 (@X20_connect_and_greeting_aborts Net _ "mx.example.org"
                         "user@example.org" "example.org" (Some Providers.genericConfig)
                         _) m c1 H1); cycle 1.
    + vm_compute. reflexivity.
    + reflexivity.
Defined.

(* ================================================================== *)
(** * Further properties of the routes *)
(* ================================================================== *)

(** X21. The handler of [POST /validate] answers 400 with [Email is
    required], without calling the pipeline, when the [email] property is
    missing or falsy; otherwise it answers 200 with the result of
    [validateEmail].  It never throws and never answers 500, whatever the
    collaborators do. *)
Theorem X21_validate_endpoint
    (W : Type) (R : Resolver W) (T : Transport W)
    (production : bool) (email : JsValue) (w : W) :
  (Endpoint.falsy email = true ->
   Endpoint.postValidate production email w
   = (Ok {| Endpoint.status := 400;
            Endpoint.body := Endpoint.JsonFailure "Email is required" |}, w)) /\
  (Endpoint.falsy email = false ->
   forall response w',
     Endpoint.postValidate production email w = (Ok response, w') ->
     exists result,
       Email.validateEmail email w = (Ok result, w') /\
       response = {| Endpoint.status := 200; Endpoint.body := Endpoint.JsonResult result |}) /\
  (forall msg w', Endpoint.postValidate production email w <> (Thrown msg, w')) /\
  (forall response w',
     Endpoint.postValidate production email w = (Ok response, w') ->
     Endpoint.status response <> 500%Z).
Proof.
  pose proof (PipelineFacts.validateEmail_safe email w) as Hm.
  unfold Endpoint.postValidate, tryCatch, bind.
  destruct (Endpoint.falsy email).
  - split; [reflexivity|]. split; [discriminate|]. split.
    + intros msg w' E; discriminate E.
    + intros response w' E. injection E as <- _. discriminate.
  - split; [discriminate|].
    destruct (Email.validateEmail email w) as [[result|msg|] w1]; simpl in Hm;
      [|contradiction|].
    + split; [|split].
      * intros _ response w' E. injection E as <- <-. now exists result.
      * intros msg w' E; discriminate E.
      * intros response w' E. injection E as <- _. discriminate.
    + split; [|split].
      * intros _ response w' E; discriminate E.
      * intros msg w' E; discriminate E.
      * intros response w' E; discriminate E.
Qed.

Lemma X21_validate_endpoint_witness :
  Endpoint.postValidate true (JsString "") (net true [])
  = (Ok {| Endpoint.status := 400;
           Endpoint.body := Endpoint.JsonFailure "Email is required" |}, net true []) /\
  exists result,
    Email.validateEmail (JsNumber 7) (net true []) = (Ok result, net true []) /\
    {| Endpoint.status := 200;
       Endpoint.body := Endpoint.JsonResult
                          (Email.setReason (Email.initialResult (JsNumber 7))
                             "Invalid email format") |}
    = {| Endpoint.status := 200; Endpoint.body := Endpoint.JsonResult result |}.
Proof.
  split.
  - apply (proj1 (@X21_validate_endpoint Net _ _ true (JsString "") (net true []))).
    reflexivity.
  - apply (proj1 (proj2 (@X21_validate_endpoint Net _ _ true (JsNumber 7) (net true [])))).
    + reflexivity.
    + vm_compute. reflexivity.
Defined.

(** X22. The function [processChunk] maps over the records never
    throws, and the row it returns keeps the record and is well formed:
    its verdict is [Valid] or [Invalid], and [Valid] exactly when the
    mailbox flag is set, which comes with the SMTP, MX and DNS flags and
    the success reason; the flags respect the order of the stages; and
    the reason is never empty.  A record without an address gets
    [No email address found] without any call to the pipeline. *)
Theorem X22_rows_are_well_formed
    (W : Type) (R : Resolver W) (T : Transport W) (record : Bulk.Row) (w : W) :
  (forall msg w', Bulk.processRecord record w <> (Thrown msg, w')) /\
  (forall row w',
     Bulk.processRecord record w = (Ok row, w') ->
     Bulk.source row = record /\ Shape.rowShaped row) /\
  (Bulk.emailOf record = None ->
   Bulk.processRecord record w
   = (Ok (Bulk.failedRecord record "No email address found"), w)).
Proof.
  pose proof (@StreamFacts.processRecord_shaped W R T True
                (fun _ _ _ _ => @AsyncFacts.may_trivial _ _ _) record w) as Hm.
  split; [|split].
  - intros msg w' E. now rewrite E in Hm.
  - intros row w' E. now rewrite E in Hm.
  - intros Hnone. unfold Bulk.processRecord. now rewrite Hnone.
Qed.

Lemma X22_rows_are_well_formed_witness :
  Shape.rowShaped (Bulk.failedRecord nameless "No email address found") /\
  Bulk.processRecord nameless (net true [])
  = (Ok (Bulk.failedRecord nameless "No email address found"), net true []).
Proof.
  split.
  - eapply (fun w' H => proj2 (proj1 (proj2 (@X22_rows_are_well_formed Net _ _ nameless
                                               (net true []))) _ w' H)).
    vm_compute. reflexivity.
  - apply (proj2 (proj2 (@X22_rows_are_well_formed Net _ _ nameless (net true [])))).
    reflexivity.
Defined.

(** X23. When the parser emits ['end'] only after the handler of the last
    record is done, and the TLS handshake settles in every state of the
    world, the stream of an input with at least one record is as
    announced: the [init] event with the record count and the headers,
    then progress events only, then [complete], after which the response
    is ended and nothing more is written.  The progress events report
    every record exactly once, in input order, each as a well-formed
    row; their percentages never decrease and never exceed 100; and the
    counter ends at the number of records. *)
Theorem X23_orderly_stream
    (W : Type) (R : Resolver W) (T : Transport W)
    (production : bool) (schedule : Bulk.Schedule)
    (first : Bulk.Row) (rest : list Bulk.Row) (w : W) :
  (forall w0 : W, fst (tlsConnect w0) <> Pending) ->
  Bulk.endEarly schedule = false ->
  let records := first :: rest in
  let pass := Bulk.validateBulk production schedule records w in
  exists middle,
    Bulk.events (Bulk.written pass)
    = Bulk.Init (List.length records) (Bulk.keys first ++ Bulk.validationColumns)%list
        :: (middle ++ [Bulk.Complete])%list /\
    forallb Bulk.isProgress middle = true /\
    map Bulk.source (List.concat (Shape.batches middle)) = records /\
    Forall (Forall Shape.rowShaped) (Shape.batches middle) /\
    Bulk.nonDecreasing (Bulk.percentages middle) /\
    Forall (fun q => (q <= 100)%Q) (Bulk.percentages middle) /\
    Bulk.ended pass = Some (List.length (Bulk.written pass)) /\
    Bulk.processedCount pass = List.length records.
Proof.
  intros Hsettles Hlate. now apply StreamFacts.stream_orderly.
Qed.

Lemma X23_orderly_stream_witness :
  exists middle,
    Bulk.events (Bulk.written
                   (Bulk.validateBulk false
                      {| Bulk.endEarly := false; Bulk.endFirst := false |}
                      (repeat nameless 10) (net true [])))
    = Bulk.Init 10 ("name" :: Bulk.validationColumns) :: (middle ++ [Bulk.Complete])%list /\
    map Bulk.source (List.concat (Shape.batches middle)) = repeat nameless 10.
Proof.
  destruct (@X23_orderly_stream Net _ _ false
              {| Bulk.endEarly := false; Bulk.endFirst := false |}
              nameless (repeat nameless 9) (net true []))
    as (middle & H1 & _ & H3 & _).
  - intros w0. simpl. destruct (tlsWorks w0); discriminate.
  - reflexivity.
  - exists middle. split; [exact H1 | exact H3].
Defined.

(** X24. A command whose reads deliver no final line before the timer
    fires is rejected with [Response timeout]; the command itself was
    written. *)
Theorem X24_silent_server_times_out
    (W : Type) (T : Transport W) (cmd : string) (cl : Smtp.Client)
    (w1 w2 : W) (chunks : list string) (buffered : string) :
  socketWrite (cmd ++ Js.CRLF) (Smtp.socket cl) = (Ok tt, w1) ->
  socketData (Smtp.optionsTimeout cl) w1 = (chunks, w2) ->
  Smtp.deliver chunks = Smtp.Waiting buffered ->
  Smtp.command (Some cmd) cl
  = (Thrown "Response timeout",
     {| Smtp.socket := w2; Smtp.optionsTimeout := Smtp.optionsTimeout cl;
        Smtp.tlsSeen := Smtp.tlsSeen cl |}).
Proof.
  intros Hwrite Hread Hwait.
  unfold Smtp.command, bind, Smtp.onSocket. rewrite Hwrite; simpl.
  now rewrite Hread, Hwait.
Qed.

Lemma X24_silent_server_times_out_witness :
  fst (Smtp.command (Some "NOOP")
         (Smtp.newClient None (net true [["250-mx.example.org" ++ Js.CRLF; "250-SIZ"]])))
  = Thrown "Response timeout".
Proof.
  erewrite (fun w1 w2 c b H1 H2 H3 =>
              @X24_silent_server_times_out Net _ "NOOP"
                (Smtp.newClient None (net true [["250-mx.example.org" ++ Js.CRLF; "250-SIZ"]]))
                w1 w2 c b H1 H2 H3); cycle 1.
  - vm_compute. reflexivity.
  - vm_compute. reflexivity.
  - vm_compute. reflexivity.
  - reflexivity.
Defined.

(** X25. When the reply to EHLO does not mention STARTTLS, in any letter
    case, the STARTTLS step does nothing: no command is written and the
    session stays unencrypted, under every policy, also one with
    [requireTLS = true]. *)
Theorem X25_no_upgrade_without_offer
    (W : Type) (T : Transport W)
    (host domain : string) (config : option ProviderConfig)
    (ehloResponse : Response) (cl : Smtp.Client) :
  Smtp.advertisesStartTls ehloResponse = false ->
  Smtp.startTls host domain config ehloResponse cl = (Ok tt, cl).
Proof.
  intros H. unfold Smtp.startTls. now rewrite H.
Qed.

Lemma X25_no_upgrade_without_offer_witness :
  requireTLS gmailConfig = true /\
  success (valueOf (Smtp.verifyMailbox "mx.example.org" "user@gmail.com" "gmail.com"
                      (Some gmailConfig) (net true (plainSession "250 2.1.5 Ok")))
                   (Providers.exhausted None)) = true /\
  Smtp.startTls "mx.example.org" "gmail.com" (Some gmailConfig)
    {| code := 250; message := "mx.example.org";
       fullResponse := "250 mx.example.org" ++ Js.CRLF |}
    (Smtp.newClient (Some gmailConfig) (net true []))
  = (Ok tt, Smtp.newClient (Some gmailConfig) (net true [])).
Proof.
  split; [reflexivity|]. split; [vm_compute; reflexivity|].
  apply X25_no_upgrade_without_offer. vm_compute. reflexivity.
Defined.
